(** * Session Client and Action Supervisor of AutoAccept-Antigravity

    A shallow embedding of [src/cdpClient.ts] (class [CDPClient]) and of the
    CDP-driven [AutoAcceptor] (polling loop and action script), together
    with the properties of the design document that they decide.

    The code is event driven: every method and every handler registered on
    a socket, a timer or a promise runs to completion on the host's event
    loop.  Each of them is a function on the state below; the host (sockets,
    timers, the HTTP discovery request) is the source of the events. *)

From Stdlib Require Import ZArith QArith List Bool String Ascii Lia Arith.
Import ListNotations.
Open Scope Z_scope.

Module Cdp.

(** ** Data *)

(** The options are JavaScript numbers, taken here to hold integers. *)
Record CDPClientOptions : Type := mkOptions {
  maxRetries : Z;
  initialRetryDelay : Z;
  maxRetryDelay : Z;
  callTimeout : Z
}.

Definition DEFAULT_OPTIONS : CDPClientOptions :=
  {| maxRetries := 10; initialRetryDelay := 1000;
     maxRetryDelay := 30000; callTimeout := 5000 |}.

(** [WebSocket.readyState]. *)
Inductive ReadyState : Type := CONNECTING | OPEN | CLOSING | CLOSED.

Definition ReadyState_eqb (a b : ReadyState) : bool :=
  match a, b with
  | CONNECTING, CONNECTING | OPEN, OPEN | CLOSING, CLOSING | CLOSED, CLOSED => true
  | _, _ => false
  end.

(** Who awaits the promise returned by one call of [doConnect]: the caller
    of [connect], or the [async] callback of the retry timer. *)
Inductive waiter : Type := Initial | Retry.

(** How far one call of [doConnect] has come: the HTTP request is out, the
    WebSocket has been created (and is in some ready state), or the call
    ended without a socket. *)
Inductive phase : Type :=
  | Discovering
  | Sock (rs : ReadyState)
  | NoSocket.

(** One call of [doConnect].  Its promise settles at most once
    ([a_settled]); a socket it creates is named by the position of the
    attempt in the table below. *)
Record attempt : Type := mkAttempt {
  a_waiter : waiter;
  a_settled : bool;
  a_phase : phase
}.

(** The [Error]s a [connect]/[doConnect] promise is rejected with. *)
Inductive connectError : Type :=
  | CannotConnectDisposed       (* 'Cannot connect: CDPClient has been disposed.' *)
  | InvalidPort (p : Z)         (* `Invalid port number: ${port}` *)
  | ClientIsDisposed            (* 'CDPClient is disposed' *)
  | NoTargets                   (* 'No CDP targets found.' *)
  | TargetNotFound              (* 'Could not find IDE CDP target' *)
  | WebSocketCreateFailed       (* `Failed to create WebSocket: ...` *)
  | TargetListParseFailed       (* `Failed to parse CDP target list: ...` *)
  | ResponseReadError           (* `Error reading CDP response: ...` *)
  | HttpRequestCreateFailed     (* `Failed to create HTTP request: ...` *)
  | EndpointUnreachable         (* `Failed to reach CDP endpoint at port ...` *)
  | DiscoveryTimedOut.          (* `CDP discovery request timed out on port ...` *)

(** The [Error]s [send] throws before a call is registered. *)
Inductive sendError : Type :=
  | CannotSendDisposed          (* 'Cannot send: CDPClient has been disposed.' *)
  | InvalidMethod               (* 'CDP method name must be a non-empty string.' *)
  | NotConnected.               (* 'CDP WebSocket is not connected' *)

(** The reasons a registered call is rejected with. *)
Inductive rejectReason : Type :=
  | CallTimedOut                (* `CDP call "..." timed out after ...ms` *)
  | SendFailed                  (* `Failed to send CDP message: ...` *)
  | CDPErrorReply               (* `CDP error: ...` *)
  | ConnectionClosed            (* 'WebSocket connection closed' *)
  | DisconnectedIntentionally.  (* 'Client disconnected intentionally' *)

(** A JavaScript number as the delay of a retry timer can come out: an
    integer, an infinity, or [NaN]. *)
Inductive number : Type :=
  | Finite (z : Z)
  | PosInfinity
  | NegInfinity
  | NaN.

Inductive logMessage : Type :=
  | LogConnected                        (* 'CDP WebSocket connected.' *)
  | LogSocketError                      (* `CDP WebSocket error: ...` *)
  | LogClosed                           (* 'CDP WebSocket closed.' *)
  | LogGivingUp (max : Z)               (* `Reconnect failed after ${max} attempts. Giving up.` *)
  | LogReconnecting (delay : number) (n max : Z)
                                        (* `Reconnecting in ${delay}ms (attempt ${n}/${max})...` *)
  | LogReconnected                      (* 'Reconnected successfully.' *)
  | LogNullMessage                      (* 'Received null/undefined message, skipping.' *)
  | LogUnrecognized                     (* 'Received unrecognized message format, skipping.' *)
  | LogParseFailed.                     (* 'Failed to parse CDP message, ignoring.' *)

(** What a frame decodes to, as far as [handleMessage] looks at it:
    [JSON.parse] throws ([Malformed]), or it yields [data] with
    [f_id = Some n] when [data] is truthy and [data.id] is the number [n],
    [f_error] the truthiness of [data.error], and [f_value] the string at
    [data.result.result.value], if there is one. *)
Inductive frame : Type :=
  | Malformed
  | Json (f_id : option Z) (f_error : bool) (f_value : option string).

(** [WebSocket.RawData] as [handleMessage] dispatches on it: falsy, one of
    the formats it decodes (string, Buffer, ArrayBuffer, Buffer[]), or
    anything else. *)
Inductive RawData : Type :=
  | RawFalsy
  | RawText (f : frame)
  | RawOther.

(** What the client does to the outside, newest first in [trace]. *)
Inductive effect : Type :=
  | ELog (m : logMessage)                 (* this._onLog(message) *)
  | EHttpGet (a : nat) (p : Z)            (* http.get(.../json/list) of attempt a *)
  | ESetRetryTimer (h : nat) (delay : number)
                                          (* this.retryTimer = setTimeout(..., delay) *)
  | EWsSend (sock : nat) (id : Z) (method : string)   (* ws.send({id, method, params}) *)
  | EWsClose (sock : nat)                 (* ws.close() *)
  | ECallCreated (id : Z)                 (* the promise of one send() *)
  | ECallResolved (id : Z) (v : option string)  (* cb.resolve(data.result) *)
  | ECallRejected (id : Z) (r : rejectReason)   (* cb.reject / reject *)
  | EConnectResolved (a : nat)            (* the promise of connect() resolves *)
  | EConnectRejected (a : nat) (e : connectError)
  | EOnDisconnect                         (* this._onDisconnect() *)
  | EOnReconnect                          (* this._onReconnect() *)
  | EOnReconnectFailed.                   (* this._onReconnectFailed() *)

(** The fields of [class CDPClient], then the part of the host the class
    talks to: the table of [doConnect] calls and their sockets, the armed
    retry timers (handle and delay), the armed per-call timers (one per
    call, named by the call's id), and the effects so far.

    [callbacks] is the [Map] from id to [{resolve, reject, timer}]: its keys
    in insertion order.  The value under an id is made of the promise and
    the timer that [send] created for that id, so the key names it.  The
    four callback slots hold whether a callback is registered.  [messageId]
    and [retryCount] are JavaScript numbers holding integers; they are exact
    below 2^53, the range this model is about. *)
Record CDPClient : Type := mkClient {
  ws : option nat;
  messageId : Z;
  callbacks : list Z;
  port : Z;
  retryCount : Z;
  retryTimer : option nat;
  intentionalDisconnect : bool;
  isDisposed : bool;
  options : CDPClientOptions;
  _onDisconnect : bool;
  _onReconnect : bool;
  _onReconnectFailed : bool;
  _onLog : bool;
  attempts : list attempt;
  retryTimers : list (nat * number);
  nextTimer : nat;
  callTimers : list Z;
  trace : list effect
}.

(** [new CDPClient(options)]. *)
Definition newClient (o : CDPClientOptions) : CDPClient :=
  {| ws := None; messageId := 1; callbacks := []; port := 9222;
     retryCount := 0; retryTimer := None; intentionalDisconnect := false;
     isDisposed := false; options := o;
     _onDisconnect := false; _onReconnect := false;
     _onReconnectFailed := false; _onLog := false;
     attempts := []; retryTimers := []; nextTimer := 0%nat;
     callTimers := []; trace := [] |}.

(** Field updates. *)
Definition set_ws (v : option nat) (s : CDPClient) : CDPClient :=
  {|
     ws := v; messageId := messageId s; callbacks := callbacks s;
     port := port s; retryCount := retryCount s;
     retryTimer := retryTimer s;
     intentionalDisconnect := intentionalDisconnect s;
     isDisposed := isDisposed s; options := options s;
     _onDisconnect := _onDisconnect s; _onReconnect := _onReconnect s;
     _onReconnectFailed := _onReconnectFailed s; _onLog := _onLog s;
     attempts := attempts s; retryTimers := retryTimers s;
     nextTimer := nextTimer s; callTimers := callTimers s; trace := trace s |}.

Definition set_messageId (v : Z) (s : CDPClient) : CDPClient :=
  {|
     ws := ws s; messageId := v; callbacks := callbacks s; port := port s;
     retryCount := retryCount s; retryTimer := retryTimer s;
     intentionalDisconnect := intentionalDisconnect s;
     isDisposed := isDisposed s; options := options s;
     _onDisconnect := _onDisconnect s; _onReconnect := _onReconnect s;
     _onReconnectFailed := _onReconnectFailed s; _onLog := _onLog s;
     attempts := attempts s; retryTimers := retryTimers s;
     nextTimer := nextTimer s; callTimers := callTimers s; trace := trace s |}.

Definition set_callbacks (v : list Z) (s : CDPClient) : CDPClient :=
  {|
     ws := ws s; messageId := messageId s; callbacks := v; port := port s;
     retryCount := retryCount s; retryTimer := retryTimer s;
     intentionalDisconnect := intentionalDisconnect s;
     isDisposed := isDisposed s; options := options s;
     _onDisconnect := _onDisconnect s; _onReconnect := _onReconnect s;
     _onReconnectFailed := _onReconnectFailed s; _onLog := _onLog s;
     attempts := attempts s; retryTimers := retryTimers s;
     nextTimer := nextTimer s; callTimers := callTimers s; trace := trace s |}.

Definition set_port (v : Z) (s : CDPClient) : CDPClient :=
  {|
     ws := ws s; messageId := messageId s; callbacks := callbacks s;
     port := v; retryCount := retryCount s; retryTimer := retryTimer s;
     intentionalDisconnect := intentionalDisconnect s;
     isDisposed := isDisposed s; options := options s;
     _onDisconnect := _onDisconnect s; _onReconnect := _onReconnect s;
     _onReconnectFailed := _onReconnectFailed s; _onLog := _onLog s;
     attempts := attempts s; retryTimers := retryTimers s;
     nextTimer := nextTimer s; callTimers := callTimers s; trace := trace s |}.

Definition set_retryCount (v : Z) (s : CDPClient) : CDPClient :=
  {|
     ws := ws s; messageId := messageId s; callbacks := callbacks s;
     port := port s; retryCount := v; retryTimer := retryTimer s;
     intentionalDisconnect := intentionalDisconnect s;
     isDisposed := isDisposed s; options := options s;
     _onDisconnect := _onDisconnect s; _onReconnect := _onReconnect s;
     _onReconnectFailed := _onReconnectFailed s; _onLog := _onLog s;
     attempts := attempts s; retryTimers := retryTimers s;
     nextTimer := nextTimer s; callTimers := callTimers s; trace := trace s |}.

Definition set_retryTimer (v : option nat) (s : CDPClient) : CDPClient :=
  {|
     ws := ws s; messageId := messageId s; callbacks := callbacks s;
     port := port s; retryCount := retryCount s; retryTimer := v;
     intentionalDisconnect := intentionalDisconnect s;
     isDisposed := isDisposed s; options := options s;
     _onDisconnect := _onDisconnect s; _onReconnect := _onReconnect s;
     _onReconnectFailed := _onReconnectFailed s; _onLog := _onLog s;
     attempts := attempts s; retryTimers := retryTimers s;
     nextTimer := nextTimer s; callTimers := callTimers s; trace := trace s |}.

Definition set_intentionalDisconnect (v : bool) (s : CDPClient) : CDPClient :=
  {|
     ws := ws s; messageId := messageId s; callbacks := callbacks s;
     port := port s; retryCount := retryCount s;
     retryTimer := retryTimer s; intentionalDisconnect := v;
     isDisposed := isDisposed s; options := options s;
     _onDisconnect := _onDisconnect s; _onReconnect := _onReconnect s;
     _onReconnectFailed := _onReconnectFailed s; _onLog := _onLog s;
     attempts := attempts s; retryTimers := retryTimers s;
     nextTimer := nextTimer s; callTimers := callTimers s; trace := trace s |}.

Definition set_isDisposed (v : bool) (s : CDPClient) : CDPClient :=
  {|
     ws := ws s; messageId := messageId s; callbacks := callbacks s;
     port := port s; retryCount := retryCount s;
     retryTimer := retryTimer s;
     intentionalDisconnect := intentionalDisconnect s; isDisposed := v;
     options := options s; _onDisconnect := _onDisconnect s;
     _onReconnect := _onReconnect s;
     _onReconnectFailed := _onReconnectFailed s; _onLog := _onLog s;
     attempts := attempts s; retryTimers := retryTimers s;
     nextTimer := nextTimer s; callTimers := callTimers s; trace := trace s |}.

Definition set_options (v : CDPClientOptions) (s : CDPClient) : CDPClient :=
  {|
     ws := ws s; messageId := messageId s; callbacks := callbacks s;
     port := port s; retryCount := retryCount s;
     retryTimer := retryTimer s;
     intentionalDisconnect := intentionalDisconnect s;
     isDisposed := isDisposed s; options := v;
     _onDisconnect := _onDisconnect s; _onReconnect := _onReconnect s;
     _onReconnectFailed := _onReconnectFailed s; _onLog := _onLog s;
     attempts := attempts s; retryTimers := retryTimers s;
     nextTimer := nextTimer s; callTimers := callTimers s; trace := trace s |}.

Definition set_onDisconnect (v : bool) (s : CDPClient) : CDPClient :=
  {|
     ws := ws s; messageId := messageId s; callbacks := callbacks s;
     port := port s; retryCount := retryCount s;
     retryTimer := retryTimer s;
     intentionalDisconnect := intentionalDisconnect s;
     isDisposed := isDisposed s; options := options s; _onDisconnect := v;
     _onReconnect := _onReconnect s;
     _onReconnectFailed := _onReconnectFailed s; _onLog := _onLog s;
     attempts := attempts s; retryTimers := retryTimers s;
     nextTimer := nextTimer s; callTimers := callTimers s; trace := trace s |}.

Definition set_onReconnect (v : bool) (s : CDPClient) : CDPClient :=
  {|
     ws := ws s; messageId := messageId s; callbacks := callbacks s;
     port := port s; retryCount := retryCount s;
     retryTimer := retryTimer s;
     intentionalDisconnect := intentionalDisconnect s;
     isDisposed := isDisposed s; options := options s;
     _onDisconnect := _onDisconnect s; _onReconnect := v;
     _onReconnectFailed := _onReconnectFailed s; _onLog := _onLog s;
     attempts := attempts s; retryTimers := retryTimers s;
     nextTimer := nextTimer s; callTimers := callTimers s; trace := trace s |}.

Definition set_onReconnectFailed (v : bool) (s : CDPClient) : CDPClient :=
  {|
     ws := ws s; messageId := messageId s; callbacks := callbacks s;
     port := port s; retryCount := retryCount s;
     retryTimer := retryTimer s;
     intentionalDisconnect := intentionalDisconnect s;
     isDisposed := isDisposed s; options := options s;
     _onDisconnect := _onDisconnect s; _onReconnect := _onReconnect s;
     _onReconnectFailed := v; _onLog := _onLog s; attempts := attempts s;
     retryTimers := retryTimers s; nextTimer := nextTimer s;
     callTimers := callTimers s; trace := trace s |}.

Definition set_onLog (v : bool) (s : CDPClient) : CDPClient :=
  {|
     ws := ws s; messageId := messageId s; callbacks := callbacks s;
     port := port s; retryCount := retryCount s;
     retryTimer := retryTimer s;
     intentionalDisconnect := intentionalDisconnect s;
     isDisposed := isDisposed s; options := options s;
     _onDisconnect := _onDisconnect s; _onReconnect := _onReconnect s;
     _onReconnectFailed := _onReconnectFailed s; _onLog := v;
     attempts := attempts s; retryTimers := retryTimers s;
     nextTimer := nextTimer s; callTimers := callTimers s; trace := trace s |}.

Definition set_attempts (v : list attempt) (s : CDPClient) : CDPClient :=
  {|
     ws := ws s; messageId := messageId s; callbacks := callbacks s;
     port := port s; retryCount := retryCount s;
     retryTimer := retryTimer s;
     intentionalDisconnect := intentionalDisconnect s;
     isDisposed := isDisposed s; options := options s;
     _onDisconnect := _onDisconnect s; _onReconnect := _onReconnect s;
     _onReconnectFailed := _onReconnectFailed s; _onLog := _onLog s;
     attempts := v; retryTimers := retryTimers s; nextTimer := nextTimer s;
     callTimers := callTimers s; trace := trace s |}.

Definition set_retryTimers (v : list (nat * number)) (s : CDPClient) : CDPClient :=
  {|
     ws := ws s; messageId := messageId s; callbacks := callbacks s;
     port := port s; retryCount := retryCount s;
     retryTimer := retryTimer s;
     intentionalDisconnect := intentionalDisconnect s;
     isDisposed := isDisposed s; options := options s;
     _onDisconnect := _onDisconnect s; _onReconnect := _onReconnect s;
     _onReconnectFailed := _onReconnectFailed s; _onLog := _onLog s;
     attempts := attempts s; retryTimers := v; nextTimer := nextTimer s;
     callTimers := callTimers s; trace := trace s |}.

Definition set_nextTimer (v : nat) (s : CDPClient) : CDPClient :=
  {|
     ws := ws s; messageId := messageId s; callbacks := callbacks s;
     port := port s; retryCount := retryCount s;
     retryTimer := retryTimer s;
     intentionalDisconnect := intentionalDisconnect s;
     isDisposed := isDisposed s; options := options s;
     _onDisconnect := _onDisconnect s; _onReconnect := _onReconnect s;
     _onReconnectFailed := _onReconnectFailed s; _onLog := _onLog s;
     attempts := attempts s; retryTimers := retryTimers s; nextTimer := v;
     callTimers := callTimers s; trace := trace s |}.

Definition set_callTimers (v : list Z) (s : CDPClient) : CDPClient :=
  {|
     ws := ws s; messageId := messageId s; callbacks := callbacks s;
     port := port s; retryCount := retryCount s;
     retryTimer := retryTimer s;
     intentionalDisconnect := intentionalDisconnect s;
     isDisposed := isDisposed s; options := options s;
     _onDisconnect := _onDisconnect s; _onReconnect := _onReconnect s;
     _onReconnectFailed := _onReconnectFailed s; _onLog := _onLog s;
     attempts := attempts s; retryTimers := retryTimers s;
     nextTimer := nextTimer s; callTimers := v; trace := trace s |}.

Definition set_trace (v : list effect) (s : CDPClient) : CDPClient :=
  {|
     ws := ws s; messageId := messageId s; callbacks := callbacks s;
     port := port s; retryCount := retryCount s;
     retryTimer := retryTimer s;
     intentionalDisconnect := intentionalDisconnect s;
     isDisposed := isDisposed s; options := options s;
     _onDisconnect := _onDisconnect s; _onReconnect := _onReconnect s;
     _onReconnectFailed := _onReconnectFailed s; _onLog := _onLog s;
     attempts := attempts s; retryTimers := retryTimers s;
     nextTimer := nextTimer s; callTimers := callTimers s; trace := v |}.

(** ** The host: effects, timers, sockets *)

Definition emit (e : effect) (s : CDPClient) : CDPClient :=
  set_trace (e :: trace s) s.

(** [if (cb) { cb(); }] for one of the callback slots. *)
Definition notify (registered : bool) (e : effect) (s : CDPClient) : CDPClient :=
  if registered then emit e s else s.

(** [log]: calls [_onLog] when one is registered. *)
Definition log (m : logMessage) (s : CDPClient) : CDPClient :=
  notify (_onLog s) (ELog m) s.

Definition has (id : Z) (m : list Z) : bool := existsb (Z.eqb id) m.

(** [Map.set]: a new key goes last, a present key keeps its place. *)
Definition mapSet (id : Z) (m : list Z) : list Z :=
  if has id m then m else m ++ [id].

Definition mapDelete (id : Z) (m : list Z) : list Z :=
  filter (fun k => negb (Z.eqb id k)) m.

(** [clearTimeout(cb.timer)] for the timer of call [id]. *)
Definition clearCallTimer (id : Z) (s : CDPClient) : CDPClient :=
  set_callTimers (mapDelete id (callTimers s)) s.

(** [clearTimeout(this.retryTimer)]. *)
Definition clearRetryTimer (h : nat) (s : CDPClient) : CDPClient :=
  set_retryTimers (filter (fun t => negb (Nat.eqb h (fst t))) (retryTimers s)) s.

Definition retryTimerArmed (h : nat) (s : CDPClient) : bool :=
  existsb (fun t => Nat.eqb h (fst t)) (retryTimers s).

Definition phaseOf (a : nat) (s : CDPClient) : option phase :=
  option_map a_phase (nth_error (attempts s) a).

Fixpoint updateAt {A : Type} (n : nat) (f : A -> A) (l : list A) : list A :=
  match l, n with
  | [], _ => []
  | x :: r, O => f x :: r
  | x :: r, S k => x :: updateAt k f r
  end.

Definition setPhase (a : nat) (p : phase) (s : CDPClient) : CDPClient :=
  set_attempts
    (updateAt a (fun t => mkAttempt (a_waiter t) (a_settled t) p) (attempts s)) s.

Definition markSettled (a : nat) (s : CDPClient) : CDPClient :=
  set_attempts
    (updateAt a (fun t => mkAttempt (a_waiter t) true (a_phase t)) (attempts s)) s.

(** [sock.readyState]. *)
Definition readyState (sock : nat) (s : CDPClient) : ReadyState :=
  match phaseOf sock s with
  | Some (Sock rs) => rs
  | _ => CLOSED
  end.

(** [ws.close()]: an open or connecting socket starts closing; its 'close'
    event comes later. *)
Definition wsClose (sock : nat) (s : CDPClient) : CDPClient :=
  let s := emit (EWsClose sock) s in
  match readyState sock s with
  | CONNECTING | OPEN => setPhase sock (Sock CLOSING) s
  | _ => s
  end.

(** ** The class *)

(** [get isConnected]. *)
Definition isConnected (s : CDPClient) : bool :=
  match ws s with
  | Some sock => ReadyState_eqb (readyState sock s) OPEN
  | None => false
  end.

Definition onDisconnect (s : CDPClient) : CDPClient := set_onDisconnect true s.
Definition onReconnect (s : CDPClient) : CDPClient := set_onReconnect true s.
Definition onReconnectFailed (s : CDPClient) : CDPClient := set_onReconnectFailed true s.
Definition onLog (s : CDPClient) : CDPClient := set_onLog true s.

(** ** The arithmetic of the delay

    The delay is computed in double precision.  An integer that a double
    holds times a power of two is exact as long as it stays below 2^1024
    in magnitude, and an infinity from there on. *)

Definition doubleLimit : Z := 2 ^ 1024.

(** [Math.pow(2, n)] for an integer [n >= 0]: [Infinity] from 2^1024 on. *)
Definition pow2 (n : Z) : number :=
  if n <? 1024 then Finite (2 ^ n) else PosInfinity.

(** [x * y] for an integer [x]; [0 * Infinity] is [NaN]. *)
Definition times (x : Z) (y : number) : number :=
  match y with
  | Finite p =>
      let z := x * p in
      if Z.abs z <? doubleLimit then Finite z
      else if 0 <? z then PosInfinity else NegInfinity
  | PosInfinity =>
      if x =? 0 then NaN else if 0 <? x then PosInfinity else NegInfinity
  | NegInfinity =>
      if x =? 0 then NaN else if 0 <? x then NegInfinity else PosInfinity
  | NaN => NaN
  end.

(** [Math.min(x, m)] for an integer [m]. *)
Definition mathMin (x : number) (m : Z) : number :=
  match x with
  | Finite z => Finite (Z.min z m)
  | PosInfinity => Finite m
  | NegInfinity => NegInfinity
  | NaN => NaN
  end.

(** [Math.min(initialRetryDelay * Math.pow(2, retryCount), maxRetryDelay)]. *)
Definition reconnectDelay (o : CDPClientOptions) (retryCount : Z) : number :=
  mathMin (times (initialRetryDelay o) (pow2 retryCount)) (maxRetryDelay o).

(** [scheduleReconnect]. *)
Definition scheduleReconnect (s : CDPClient) : CDPClient :=
  if intentionalDisconnect s || isDisposed s then s
  else if maxRetries (options s) <=? retryCount s then
    let s := log (LogGivingUp (maxRetries (options s))) s in
    notify (_onReconnectFailed s) EOnReconnectFailed s
  else
    let delay := reconnectDelay (options s) (retryCount s) in
    let s := set_retryCount (retryCount s + 1) s in
    let s := log (LogReconnecting delay (retryCount s) (maxRetries (options s))) s in
    let h := nextTimer s in
    let s := set_nextTimer (S h) s in
    let s := set_retryTimers (retryTimers s ++ [(h, delay)]) s in
    let s := emit (ESetRetryTimer h delay) s in
    set_retryTimer (Some h) s.

(** The promise of attempt [a] resolves: nothing if it is settled already;
    otherwise the code waiting on it goes on, the caller of [connect] or
    the rest of the retry timer's callback after [await this.doConnect()]. *)
Definition resolveConnect (a : nat) (s : CDPClient) : CDPClient :=
  match nth_error (attempts s) a with
  | Some t =>
      if a_settled t then s
      else
        let s := markSettled a s in
        match a_waiter t with
        | Initial => emit (EConnectResolved a) s
        | Retry =>
            let s := log LogReconnected s in
            notify (_onReconnect s) EOnReconnect s
        end
  | None => s
  end.

(** The promise of attempt [a] is rejected: for the retry timer's callback
    this is its [catch], which calls [scheduleReconnect]. *)
Definition rejectConnect (a : nat) (e : connectError) (s : CDPClient) : CDPClient :=
  match nth_error (attempts s) a with
  | Some t =>
      if a_settled t then s
      else
        let s := markSettled a s in
        match a_waiter t with
        | Initial => emit (EConnectRejected a e) s
        | Retry => scheduleReconnect s
        end
  | None => s
  end.

(** [doConnect], up to the point where the HTTP request is out.  The new
    attempt is the last of the table. *)
Definition doConnect (w : waiter) (s : CDPClient) : nat * CDPClient :=
  let a := List.length (attempts s) in
  if isDisposed s then
    let s := set_attempts (attempts s ++ [mkAttempt w false NoSocket]) s in
    (a, rejectConnect a ClientIsDisposed s)
  else
    let s := set_attempts (attempts s ++ [mkAttempt w false Discovering]) s in
    (a, emit (EHttpGet a (port s)) s).

(** [connect(port)]: the error it throws, or the attempt it started. *)
Definition connect (p : Z) (s : CDPClient) : (connectError + nat) * CDPClient :=
  if isDisposed s then (inl CannotConnectDisposed, s)
  else if (p <=? 0) || (p >? 65535) then (inl (InvalidPort p), s)
  else
    let s := set_port p s in
    let s := set_intentionalDisconnect false s in
    let s := set_retryCount 0 s in
    let '(a, s) := doConnect Initial s in
    (inr a, s).

(** [rejectAllPending(reason)]. *)
Definition rejectAllPending (r : rejectReason) (s : CDPClient) : CDPClient :=
  let s := fold_left
             (fun s id => emit (ECallRejected id r) (clearCallTimer id s))
             (callbacks s) s in
  set_callbacks [] s.

(** [handleMessage(raw)]. *)
Definition handleMessage (raw : RawData) (s : CDPClient) : CDPClient :=
  match raw with
  | RawFalsy => log LogNullMessage s
  | RawOther => log LogUnrecognized s
  | RawText Malformed => log LogParseFailed s
  | RawText (Json (Some id) err v) =>
      if has id (callbacks s) then
        let s := clearCallTimer id s in
        let s := set_callbacks (mapDelete id (callbacks s)) s in
        if err then emit (ECallRejected id CDPErrorReply) s
        else emit (ECallResolved id v) s
      else s
  | RawText (Json None _ _) => s
  end.

(** [send(method, params)]: the error it throws, or the id of the call it
    registered.  [throws] tells whether [ws.send] raises. *)
Definition send (method : string) (throws : bool) (s : CDPClient)
  : (sendError + Z) * CDPClient :=
  if isDisposed s then (inl CannotSendDisposed, s)
  else if String.eqb method ""%string then (inl InvalidMethod, s)
  else
    match ws s with
    | None => (inl NotConnected, s)
    | Some sock =>
        if negb (ReadyState_eqb (readyState sock s) OPEN) then (inl NotConnected, s)
        else
          let id := messageId s in
          let s := set_messageId (id + 1) s in
          let s := emit (ECallCreated id) s in
          let s := set_callTimers (callTimers s ++ [id]) s in
          let s := set_callbacks (mapSet id (callbacks s)) s in
          if throws then
            let s := if has id (callbacks s)
                     then set_callbacks (mapDelete id (callbacks s)) (clearCallTimer id s)
                     else s in
            (inr id, emit (ECallRejected id SendFailed) s)
          else (inr id, emit (EWsSend sock id method) s)
    end.

(** The callback of the timer that [send] arms for call [id]. *)
Definition callTimeoutCallback (id : Z) (s : CDPClient) : CDPClient :=
  if has id (callbacks s) then
    let s := set_callbacks (mapDelete id (callbacks s)) s in
    emit (ECallRejected id CallTimedOut) s
  else s.

(** [disconnect()]. *)
Definition disconnect (s : CDPClient) : CDPClient :=
  if isDisposed s then s
  else
    let s := set_intentionalDisconnect true s in
    let s := match retryTimer s with
             | Some h => set_retryTimer None (clearRetryTimer h s)
             | None => s
             end in
    let s := rejectAllPending DisconnectedIntentionally s in
    match ws s with
    | Some sock => set_ws None (wsClose sock s)
    | None => s
    end.

(** [dispose()]. *)
Definition dispose (s : CDPClient) : CDPClient :=
  if isDisposed s then s
  else
    let s := set_isDisposed true s in
    let s := disconnect s in
    let s := set_onDisconnect false s in
    let s := set_onReconnect false s in
    let s := set_onReconnectFailed false s in
    set_onLog false s.

(** ** Handlers *)

(** [ws.on('open')]. *)
Definition wsOnOpen (sock : nat) (s : CDPClient) : CDPClient :=
  let s := log LogConnected s in
  let s := set_retryCount 0 s in
  resolveConnect sock s.

(** [ws.on('error')]: logs, and nothing else. *)
Definition wsOnError (s : CDPClient) : CDPClient := log LogSocketError s.

(** [ws.on('close')]. *)
Definition wsOnClose (s : CDPClient) : CDPClient :=
  let s := log LogClosed s in
  let s := set_ws None s in
  let s := rejectAllPending ConnectionClosed s in
  let s := notify (_onDisconnect s) EOnDisconnect s in
  if negb (intentionalDisconnect s) && negb (isDisposed s)
  then scheduleReconnect s
  else s.

(** The callback of the retry timer. *)
Definition retryTimerCallback (s : CDPClient) : CDPClient :=
  let s := set_retryTimer None s in
  if intentionalDisconnect s || isDisposed s then s
  else snd (doConnect Retry s).

(** ** Events

    The calls of the API, and what the host can deliver.  An event the host
    cannot deliver in a state (a timer that is not armed, a socket event of
    a socket that is not in a state to raise it) leaves the state alone. *)
Inductive apiCall : Type :=
  | Connect (p : Z)
  | Send (method : string) (throws : bool)
  | Disconnect
  | Dispose
  | OnDisconnect | OnReconnect | OnReconnectFailed | OnLog.

Inductive hostEvent : Type :=
  | DiscoveryFails (a : nat) (e : connectError)
  | SocketCreated (a : nat)
  | WsOpen (sock : nat)
  | WsMessage (sock : nat) (raw : RawData)
  | WsError (sock : nat)
  | WsClose (sock : nat)
  | RetryTimerFires (h : nat)
  | CallTimerFires (id : Z).

Inductive event : Type :=
  | Api (c : apiCall)
  | Host (h : hostEvent).

Definition call (c : apiCall) (s : CDPClient) : CDPClient :=
  match c with
  | Connect p => snd (connect p s)
  | Send m throws => snd (send m throws s)
  | Disconnect => disconnect s
  | Dispose => dispose s
  | OnDisconnect => onDisconnect s
  | OnReconnect => onReconnect s
  | OnReconnectFailed => onReconnectFailed s
  | OnLog => onLog s
  end.

Definition deliver (h : hostEvent) (s : CDPClient) : CDPClient :=
  match h with
  | DiscoveryFails a err =>
      (* every path of doConnect that ends in reject(...) before a socket
         exists *)
      match phaseOf a s with
      | Some Discovering => rejectConnect a err (setPhase a NoSocket s)
      | _ => s
      end
  | SocketCreated a =>
      (* this.ws = new WebSocket(ideTarget.webSocketDebuggerUrl) *)
      match phaseOf a s with
      | Some Discovering => set_ws (Some a) (setPhase a (Sock CONNECTING) s)
      | _ => s
      end
  | WsOpen sock =>
      match phaseOf sock s with
      | Some (Sock CONNECTING) => wsOnOpen sock (setPhase sock (Sock OPEN) s)
      | _ => s
      end
  | WsMessage sock raw =>
      match phaseOf sock s with
      | Some (Sock OPEN) => handleMessage raw s
      | _ => s
      end
  | WsError sock =>
      match phaseOf sock s with
      | Some (Sock CONNECTING) | Some (Sock OPEN) | Some (Sock CLOSING) => wsOnError s
      | _ => s
      end
  | WsClose sock =>
      match phaseOf sock s with
      | Some (Sock CONNECTING) | Some (Sock OPEN) | Some (Sock CLOSING) =>
          wsOnClose (setPhase sock (Sock CLOSED) s)
      | _ => s
      end
  | RetryTimerFires h =>
      if retryTimerArmed h s then retryTimerCallback (clearRetryTimer h s) else s
  | CallTimerFires id =>
      if has id (callTimers s) then callTimeoutCallback id (clearCallTimer id s) else s
  end.

Definition step (e : event) (s : CDPClient) : CDPClient :=
  match e with
  | Api c => call c s
  | Host h => deliver h s
  end.

Definition run (evs : list event) (s : CDPClient) : CDPClient :=
  fold_left (fun s e => step e s) evs s.

(** ** Reading the trace *)

(** The ids that [send] gave out. *)
Fixpoint created (t : list effect) : list Z :=
  match t with
  | [] => []
  | ECallCreated id :: r => id :: created r
  | _ :: r => created r
  end.

Definition settles (id : Z) (e : effect) : bool :=
  match e with
  | ECallResolved i _ | ECallRejected i _ => Z.eqb i id
  | _ => false
  end.

(** How often the promise of call [id] was resolved or rejected. *)
Definition settlements (id : Z) (t : list effect) : nat :=
  List.length (filter (settles id) t).

(** The delays of the retry timers that were armed, oldest first. *)
Fixpoint delaysNewestFirst (t : list effect) : list number :=
  match t with
  | [] => []
  | ESetRetryTimer _ d :: r => d :: delaysNewestFirst r
  | _ :: r => delaysNewestFirst r
  end.

Definition scheduledDelays (t : list effect) : list number :=
  rev (delaysNewestFirst t).

Definition isReconnectFailed (e : effect) : bool :=
  match e with EOnReconnectFailed => true | _ => false end.

(** How often [_onReconnectFailed] was called. *)
Definition reconnectFailedCalls (t : list effect) : nat :=
  List.length (filter isReconnectFailed t).

Definition isConnectSettled (a : nat) (e : effect) : bool :=
  match e with
  | EConnectResolved b | EConnectRejected b _ => Nat.eqb a b
  | _ => false
  end.

Definition isCallRejected (e : effect) : bool :=
  match e with ECallRejected _ _ => true | _ => false end.

Definition isWsClose (e : effect) : bool :=
  match e with EWsClose _ => true | _ => false end.

Definition isCallEffect (e : effect) : bool :=
  match e with
  | ECallCreated _ | ECallResolved _ _ | ECallRejected _ _ => true
  | _ => false
  end.

(** What the bookkeeping of calls is made of: the id counter, the table of
    pending calls, the armed per-call timers, and the part of the trace
    that is about calls. *)
Definition calls (s : CDPClient) : Z * list Z * list Z * list effect :=
  (messageId s, callbacks s, callTimers s, filter isCallEffect (trace s)).

(** The bookkeeping is sound: ids are given out once and lie below the
    counter; the table holds created ids, each once, each with its timer
    armed; and a created id that has left the table was settled once, any
    other id never. *)
Definition callsOk (v : Z * list Z * list Z * list effect) : Prop :=
  let '(mid, cbs, cts, t) := v in
  NoDup (created t) /\
  (forall id, In id (created t) -> id < mid) /\
  NoDup cbs /\
  (forall id, In id cbs -> In id (created t)) /\
  (forall id, settlements id t
              = if has id (created t) && negb (has id cbs) then 1%nat else 0%nat) /\
  (forall id, In id cbs -> In id cts).

(** ** Reconnection scenarios *)

(** No socket of an earlier attempt can raise an event any more, and no
    discovery is under way. *)
Definition inert (t : attempt) : bool :=
  match a_phase t with
  | NoSocket | Sock CLOSED => true
  | _ => false
  end.

(** A connection is established on socket [sock], and nothing else is
    going on: the state a successful [connect] leaves, with any number of
    calls pending. *)
Definition established (sock : nat) (s : CDPClient) : bool :=
  negb (isDisposed s) && negb (intentionalDisconnect s)
  && match ws s with Some k => Nat.eqb k sock | None => false end
  && match phaseOf sock s with Some (Sock OPEN) => true | _ => false end
  && forallb inert (firstn sock (attempts s))
  && forallb inert (skipn (S sock) (attempts s))
  && (retryCount s =? 0)
  && match retryTimer s, retryTimers s with None, [] => true | _, _ => false end
  && forallb (fun id => has id (callbacks s)) (callTimers s).

(** How one reconnection attempt fails: [doConnect] rejects before a socket
    exists, or the socket is created and then raises 'error' and 'close'
    without ever opening. *)
Inductive failure : Type :=
  | DiscoveryFailure (e : connectError)
  | SocketFailure.

(** The armed retry timer fires and the attempt it starts fails. *)
Definition failedReconnect (f : failure) (s : CDPClient) : CDPClient :=
  match retryTimer s with
  | Some h =>
      let a := List.length (attempts s) in
      let s := deliver (RetryTimerFires h) s in
      match f with
      | DiscoveryFailure e => deliver (DiscoveryFails a e) s
      | SocketFailure =>
          deliver (WsClose a) (deliver (WsError a) (deliver (SocketCreated a) s))
      end
  | None => s
  end.

Definition failedReconnects (fs : list failure) (s : CDPClient) : CDPClient :=
  fold_left (fun s f => failedReconnect f s) fs s.

(** The delay the design prescribes for attempt [n]. *)
Definition backoff (o : CDPClientOptions) (n : Z) : Z :=
  Z.min (initialRetryDelay o * 2 ^ n) (maxRetryDelay o).

(** The delays the code computes for the [m] attempts from attempt [k]
    on. *)
Fixpoint reconnectDelays (o : CDPClientOptions) (k : Z) (m : nat) : list number :=
  match m with
  | O => []
  | S m' => reconnectDelay o k :: reconnectDelays o (k + 1) m'
  end.

(** Options for which the arithmetic of the delay is the one of the
    design: the initial delay is not negative, the largest delay is within
    the range of a double, and a zero initial delay is not multiplied by a
    power of two that is out of range. *)
Definition regularDelays (o : CDPClientOptions) : Prop :=
  0 <= initialRetryDelay o /\
  maxRetryDelay o < doubleLimit /\
  (initialRetryDelay o = 0 -> maxRetries o <= 1024).

(** The connection is lost and one retry timer is armed: the state between
    two reconnection attempts. *)
Definition awaitingRetry (s : CDPClient) : bool :=
  negb (isDisposed s) && negb (intentionalDisconnect s)
  && match ws s with None => true | Some _ => false end
  && forallb inert (attempts s)
  && match retryTimer s, retryTimers s with
     | Some h, [(h', _)] => Nat.eqb h h'
     | _, _ => false
     end
  && match callbacks s, callTimers s with [], [] => true | _, _ => false end.

(** Nothing is left that could raise an event: no socket, no discovery
    under way, no timer armed. *)
Definition quiet (s : CDPClient) : bool :=
  forallb inert (attempts s)
  && match retryTimers s with [] => true | _ => false end
  && match callTimers s with [] => true | _ => false end.

(** A client with a connection established by [connect], and one with a
    call pending on it. *)
Definition connectedClient : CDPClient :=
  run [Api OnReconnectFailed; Api (Connect 9222);
       Host (SocketCreated 0); Host (WsOpen 0)]
      (newClient DEFAULT_OPTIONS).

Definition pendingClient : CDPClient :=
  run [Api (Send "Runtime.evaluate" false)] connectedClient.

(** A client whose connection was lost and whose first retry timer is
    armed. *)
Definition reconnectingClient : CDPClient :=
  deliver (WsClose 0) connectedClient.

(** A client that made a call, disconnected and connected again. *)
Definition reconnectedClient : CDPClient :=
  run [Api (Send "Runtime.evaluate" false); Api Disconnect; Host (WsClose 0);
       Api (Connect 9222); Host (SocketCreated 1); Host (WsOpen 1)]
      connectedClient.

(** A first [connect] whose socket is created and then fails to open: the
    socket raises 'error', then 'close'. *)
Definition failedFirstConnect : CDPClient :=
  run [Api (Connect 9222); Host (SocketCreated 0); Host (WsError 0);
       Host (WsClose 0)]
      (newClient DEFAULT_OPTIONS).

(** A history with two calls. *)
Definition twoCalls : list event :=
  [Api (Connect 9222); Host (SocketCreated 0); Host (WsOpen 0);
   Api (Send "Runtime.evaluate" false); Api (Send "Runtime.evaluate" false)].

(** Two connections at once, then none: [connect] is called a second time
    before the first call has resolved, both sockets open, and both close
    when the host goes away. *)
Definition overlappingConnects : list event :=
  [Api OnReconnectFailed; Api (Connect 9222); Api (Connect 9222);
   Host (SocketCreated 0); Host (SocketCreated 1);
   Host (WsOpen 0); Host (WsOpen 1);
   Host (WsClose 1); Host (WsClose 0)].

(** The retry timer [k] fires and the attempt it starts, the attempt
    [k + 2] of the table, fails to reach the endpoint. *)
Definition failedAttempt (k : nat) : list event :=
  [Host (RetryTimerFires k); Host (DiscoveryFails (k + 2) EndpointUnreachable)].

(** The attempts that the retry timer started. *)
Definition retryAttempts (s : CDPClient) : list attempt :=
  filter (fun t => match a_waiter t with Retry => true | Initial => false end)
         (attempts s).

(** An attempt that failed: its promise is settled and it has no socket. *)
Definition failed (t : attempt) : bool :=
  a_settled t && match a_phase t with NoSocket => true | _ => false end.


(** Options with no delay between the attempts and more than 1024 of them,
    and a client with these options whose connection is established. *)
Definition zeroDelayOptions : CDPClientOptions :=
  {| maxRetries := 1030; initialRetryDelay := 0;
     maxRetryDelay := 30000; callTimeout := 5000 |}.

Definition zeroDelayClient : CDPClient :=
  run [Api (Connect 9222); Host (SocketCreated 0); Host (WsOpen 0)]
      (newClient zeroDelayOptions).

(** ** The retry policy, seen from outside *)

Definition isHttpGet (e : effect) : bool :=
  match e with EHttpGet _ _ => true | _ => false end.

(** The discovery requests that were sent. *)
Definition httpGets (t : list effect) : nat :=
  List.length (filter isHttpGet t).

(** An effect that is neither a timer nor a request. *)
Definition plain (e : effect) : bool :=
  match e with ESetRetryTimer _ _ | EHttpGet _ _ => false | _ => true end.

(** What the retry policy is made of: the two flags, the options, the
    attempt counter, the delays of the timers armed so far (newest first)
    and the number of discovery requests sent so far. *)
Definition policy (s : CDPClient)
  : bool * bool * CDPClientOptions * Z * list number * nat :=
  (isDisposed s, intentionalDisconnect s, options s, retryCount s,
   delaysNewestFirst (trace s), httpGets (trace s)).

(** What one event of the host can do to the policy: nothing; reset the
    counter (a socket opens); arm a timer for the next attempt; start the
    attempt of a timer that fired. *)
Inductive hostMove
  : bool * bool * CDPClientOptions * Z * list number * nat ->
    bool * bool * CDPClientOptions * Z * list number * nat -> Prop :=
  | HostNothing v : hostMove v v
  | HostOpened d i o rc ds g : hostMove (d, i, o, rc, ds, g) (d, i, o, 0, ds, g)
  | HostArmed o rc ds g :
      rc < maxRetries o ->
      hostMove (false, false, o, rc, ds, g)
               (false, false, o, rc + 1, reconnectDelay o rc :: ds, g)
  | HostAttempt o rc ds g :
      hostMove (false, false, o, rc, ds, g) (false, false, o, rc, ds, S g).

(** What one call of the API can do to the policy. *)
Inductive apiMove
  : bool * bool * CDPClientOptions * Z * list number * nat ->
    bool * bool * CDPClientOptions * Z * list number * nat -> Prop :=
  | ApiNothing v : apiMove v v
  | ApiConnect i o rc ds g :
      apiMove (false, i, o, rc, ds, g) (false, false, o, 0, ds, S g)
  | ApiDisconnect i o rc ds g :
      apiMove (false, i, o, rc, ds, g) (false, true, o, rc, ds, g)
  | ApiDispose i o rc ds g :
      apiMove (false, i, o, rc, ds, g) (true, i, o, rc, ds, g).

(** A reconnection attempt that succeeds: the armed retry timer fires, the
    socket is created and opens. *)
Definition successfulReconnect (s : CDPClient) : CDPClient :=
  match retryTimer s with
  | Some h =>
      let a := List.length (attempts s) in
      deliver (WsOpen a) (deliver (SocketCreated a) (deliver (RetryTimerFires h) s))
  | None => s
  end.

Definition isReconnect (e : effect) : bool :=
  match e with EOnReconnect => true | _ => false end.

Definition isDisconnect (e : effect) : bool :=
  match e with EOnDisconnect => true | _ => false end.

(** A delay that is not above [m]: it may be [NaN] or [-Infinity]. *)
Definition notAbove (m : Z) (d : number) : Prop :=
  match d with
  | Finite z => z <= m
  | PosInfinity => False
  | NegInfinity | NaN => True
  end.

(** A delay that is an integer between [min(lo, hi)] and [hi]. *)
Definition within (lo hi : Z) (d : number) : Prop :=
  match d with
  | Finite z => Z.min lo hi <= z <= hi
  | _ => False
  end.

(** The bounds the policy keeps, for a client made with options [o]. *)
Definition policyBounds (o : CDPClientOptions)
    (v : bool * bool * CDPClientOptions * Z * list number * nat) : Prop :=
  let '(_, _, o', rc, ds, _) := v in
  o' = o /\
  0 <= rc <= Z.max 0 (maxRetries o) /\
  Forall (notAbove (maxRetryDelay o)) ds /\
  (regularDelays o -> Forall (within (initialRetryDelay o) (maxRetryDelay o)) ds) /\
  Forall (fun d => exists n, 0 <= n < maxRetries o /\ d = reconnectDelay o n) ds.

(** ** What is still under way

    An attempt from which no socket can open any more: it ended without a
    socket, or its socket is closing or closed. *)
Definition windingDown (t : attempt) : bool :=
  match a_phase t with
  | NoSocket | Sock CLOSING | Sock CLOSED => true
  | _ => false
  end.

(** From position [a] of the table on: every attempt has ended, but for
    the socket that [cur] names. *)
Fixpoint onlyCurrentFrom (cur : option nat) (a : nat) (l : list attempt) : bool :=
  match l with
  | [] => true
  | t :: r =>
      (windingDown t
       || match a_phase t, cur with
          | Sock _, Some k => Nat.eqb k a
          | _, _ => false
          end)
      && onlyCurrentFrom cur (S a) r
  end.

(** Nothing is under way but the connection itself: no discovery is out,
    and the only socket that is connecting or open is the one [ws]
    holds. *)
Definition onlyCurrent (s : CDPClient) : bool :=
  onlyCurrentFrom (ws s) 0 (attempts s).

(** How the client is linked to the host: the flag, the socket handle and
    the table of attempts. *)
Definition link (s : CDPClient) : bool * option nat * list attempt :=
  (intentionalDisconnect s, ws s, attempts s).

(** The link is cut: the flag is set, there is no socket handle, and no
    attempt can bring a socket. *)
Definition severed (v : bool * option nat * list attempt) : Prop :=
  let '(i, w, ats) := v in
  i = true /\ w = None /\ forallb windingDown ats = true.

(** A client that calls [disconnect] while the discovery of its first
    [connect] is out, and then gets the answer. *)
Definition lateDiscovery : list event :=
  [Api (Connect 9222); Api Disconnect; Host (SocketCreated 0); Host (WsOpen 0)].

End Cdp.

(** * The action script

    The script that [poll] sends for evaluation in the page.  The DOM is
    taken at the interface the script uses: a parent node is the list that
    [querySelectorAll('*')] returns for it (its descendant elements in
    document order), and an element carries the properties the script
    reads.  The calls into the DOM are taken to return, so the [catch] of
    the script, which turns an exception into 'error: ...', is not entered.

    A text of the page is a JavaScript string, the sequence of its UTF-16
    code units.  [trim] removes the white space and the line terminators of
    ECMAScript.  [toLowerCase] is the case conversion of the platform, whose
    table is the one of the Unicode version it was built with: the script
    is defined over any such function, and [toLowerCaseASCII] is what it
    does on a text of ASCII code units. *)
Module Script.

Record DOMRect : Type := mkRect { width : Q; height : Q }.

(** A JavaScript string: its UTF-16 code units. *)
Definition DOMString : Type := list Z.

#[warnings="-register-all"] Inductive Element : Type :=
  mkElement (tagName : string) (role : option string) (classList : list string)
            (textContent : DOMString) (innerText : option DOMString)
            (rect : DOMRect) (shadowRoot : option (list Element)).

Definition tagName (e : Element) : string :=
  match e with mkElement t _ _ _ _ _ _ => t end.
Definition role (e : Element) : option string :=
  match e with mkElement _ r _ _ _ _ _ => r end.
Definition classList (e : Element) : list string :=
  match e with mkElement _ _ c _ _ _ _ => c end.
Definition textContent (e : Element) : DOMString :=
  match e with mkElement _ _ _ t _ _ _ => t end.
Definition innerText (e : Element) : option DOMString :=
  match e with mkElement _ _ _ _ i _ _ => i end.
Definition getBoundingClientRect (e : Element) : DOMRect :=
  match e with mkElement _ _ _ _ _ r _ => r end.
Definition shadowRoot (e : Element) : option (list Element) :=
  match e with mkElement _ _ _ _ _ _ s => s end.

(** [document.body]: what [querySelectorAll('*')] returns for it, and its
    [innerText]. *)
Record Body : Type := mkBody { all : list Element; bodyInnerText : option DOMString }.

Record Document : Type := mkDocument { body : option Body }.

(** Strings. *)

(** The code units of a literal whose characters are ASCII. *)
Definition units (s : string) : DOMString :=
  map (fun c => Z.of_nat (nat_of_ascii c)) (list_ascii_of_string s).

(** [a === b] on strings. *)
Fixpoint equal (a b : DOMString) : bool :=
  match a, b with
  | [], [] => true
  | x :: a', y :: b' => (x =? y) && equal a' b'
  | _, _ => false
  end.

(** WhiteSpace and LineTerminator of ECMAScript: TAB, LF, VT, FF, CR, SP,
    NBSP, U+1680, U+2000..U+200A, U+2028, U+2029, U+202F, U+205F, U+3000
    and U+FEFF. *)
Definition isSpace (u : Z) : bool :=
  ((9 <=? u) && (u <=? 13))
  || (u =? 32) || (u =? 160) || (u =? 5760)
  || ((8192 <=? u) && (u <=? 8202))
  || (u =? 8232) || (u =? 8233) || (u =? 8239) || (u =? 8287)
  || (u =? 12288) || (u =? 65279).

Fixpoint trimStart (s : DOMString) : DOMString :=
  match s with
  | c :: r => if isSpace c then trimStart r else s
  | [] => []
  end.

Fixpoint trimEnd (s : DOMString) : DOMString :=
  match s with
  | [] => []
  | c :: r =>
      match trimEnd r with
      | [] => if isSpace c then [] else [c]
      | r' => c :: r'
      end
  end.

Definition trim (s : DOMString) : DOMString := trimEnd (trimStart s).

(** [toLowerCase] on a text of ASCII code units: A-Z go to a-z. *)
Definition toLowerCaseASCII (s : DOMString) : DOMString :=
  map (fun u => if (65 <=? u) && (u <=? 90) then u + 32 else u) s.

Fixpoint isPrefix (p s : DOMString) : bool :=
  match p, s with
  | [], _ => true
  | x :: p', y :: s' => (x =? y) && isPrefix p' s'
  | _ :: _, [] => false
  end.

(** [hay.includes(needle)]. *)
Fixpoint includes (hay needle : DOMString) : bool :=
  isPrefix needle hay ||
  match hay with
  | [] => false
  | _ :: r => includes r needle
  end.

(** [s.startsWith(p)], on the value that comes back to [poll]. *)
Definition startsWith (s p : string) : bool := String.prefix p s.

Definition targetTexts : list DOMString :=
  [units "accept"; units "run"; units "retry"; units "apply"].

Definition isButton (e : Element) : bool :=
  String.eqb (tagName e) "BUTTON"
  || match role e with Some r => String.eqb r "button" | None => false end
  || existsb (String.eqb "cursor-pointer") (classList e).

(** [findAllButtons(root)]: for each element that [querySelectorAll]
    returns, the element itself if it is a button, then the buttons of its
    shadow root. *)
Fixpoint buttonsOf (e : Element) : list Element :=
  (if isButton e then [e] else []) ++
  match e with
  | mkElement _ _ _ _ _ _ (Some items) => flat_map buttonsOf items
  | mkElement _ _ _ _ _ _ None => []
  end.

Definition findAllButtons (items : list Element) : list Element :=
  flat_map buttonsOf items.

Definition visible (b : Element) : bool :=
  let r := getBoundingClientRect b in
  (0 <? Qnum (width r)) && (0 <? Qnum (height r)).

(** The inner loop over [blockedCmds]. *)
Definition firstBlocked (pageText : DOMString) (blockedCmds : list DOMString)
  : option DOMString :=
  find (fun blocked => includes pageText blocked) blockedCmds.

(** [document.body.innerText || '']. *)
Definition pageText (d : Document) : DOMString :=
  match body d with
  | Some bd => match bodyInnerText bd with Some t => t | None => [] end
  | None => []
  end.

Section Platform.

(** [String.prototype.toLowerCase] of the platform. *)
Variable toLowerCase : DOMString -> DOMString.

(** [(b.textContent || b.innerText || '').trim().toLowerCase()]. *)
Definition textOf (b : Element) : DOMString :=
  let raw := match textContent b with
             | [] => match innerText b with Some i => i | None => [] end
             | t => t
             end in
  toLowerCase (trim raw).

(** The loop over [buttons]: the value the script returns and the element
    it clicked, if any. *)
Fixpoint scan (blockedCmds : list DOMString) (pageText : DOMString)
              (buttons : list Element) : DOMString * option Element :=
  match buttons with
  | [] => (units "none", None)
  | b :: rest =>
      let text := textOf b in
      if existsb (equal text) targetTexts && visible b then
        match (if equal text (units "run")
               then firstBlocked pageText blockedCmds else None) with
        | Some blocked => (units "blocked: " ++ blocked, None)
        | None => (units "clicked_" ++ text, Some b)
        end
      else scan blockedCmds pageText rest
  end.

(** What the loop does with the first button it acts on. *)
Definition act (blockedCmds : list DOMString) (pageText : DOMString) (b : Element)
  : DOMString * option Element :=
  match (if equal (textOf b) (units "run")
         then firstBlocked pageText blockedCmds else None) with
  | Some blocked => (units "blocked: " ++ blocked, None)
  | None => (units "clicked_" ++ textOf b, Some b)
  end.

(** The script, for the list of blocked commands built into it. *)
Definition actionScript (blockedCmds : list DOMString) (d : Document)
  : DOMString * option Element :=
  match body d with
  | None => (units "none", None)
  | Some bd => scan blockedCmds (pageText d) (findAllButtons (all bd))
  end.

(** The candidates of the claim: the buttons the loop would act on. *)
Definition candidates (d : Document) : list Element :=
  match body d with
  | None => []
  | Some bd =>
      filter (fun b => existsb (equal (textOf b)) targetTexts && visible b)
             (findAllButtons (all bd))
  end.

End Platform.

(** The elements the traversal can reach from a list of elements: the
    elements of the list, and what it reaches from the shadow root of one
    of them. *)
Inductive reaches (items : list Element) : Element -> Prop :=
  | reach_here b : In b items -> reaches items b
  | reach_shadow host inner b :
      In host items -> shadowRoot host = Some inner -> reaches inner b ->
      reaches items b.

(** Two pages with a dangerous command in their text: one shows an
    'Accept' button before the 'Run' button, one the 'Run' button only. *)
Definition acceptButton : Element :=
  mkElement "BUTTON" None [] (units "Accept") None (mkRect (80 # 1) (24 # 1)) None.

Definition runButton : Element :=
  mkElement "DIV" (Some "button"%string) [] (units " Run ") None
            (mkRect (64 # 1) (24 # 1)) None.

Definition acceptThenRunPage : Document :=
  mkDocument
    (Some (mkBody [acceptButton; runButton]
                  (Some (units "Accept Run rm -rf / --no-preserve-root")))).

Definition runPage : Document :=
  mkDocument
    (Some (mkBody [mkElement "DIV" None [] [] None (mkRect 0 0) (Some [runButton])]
                  (Some (units "Run rm -rf / --no-preserve-root")))).

End Script.

(** * The Action Supervisor

    [class AutoAcceptor] of the CDP strategy.  Its [async] methods stop at
    an [await] and go on when the awaited promise of the client settles:
    [startAwaits] and [pollAwaits] name the promises that a suspended
    [start()] or [poll()] waits for, so [length (pollAwaits s)] counts the
    poll ticks that are inside the region guarded by [isPollInProgress]. *)
Module Supervisor.

Inductive StatusBarState : Type := StatusOn | StatusOff | StatusReconnecting.

(** What a suspended [poll] is woken with in its [catch]. *)
Inductive pollError : Type :=
  | SendThrew (e : Cdp.sendError)
  | CallRejected (r : Cdp.rejectReason).

Inductive logLine : Type :=
  | LogCdp (m : Cdp.logMessage)         (* this.cdp.onLog((msg) => this.log(msg)) *)
  | LogDisconnected                     (* 'Disconnected from CDP. Pausing polling...' *)
  | LogReconnectedResuming              (* 'Reconnected to CDP. Resuming polling.' *)
  | LogExhausted                        (* 'All reconnect attempts exhausted. Stopping.' *)
  | LogCannotToggle                     (* 'Cannot toggle: AutoAcceptor has been disposed.' *)
  | LogCannotStart                      (* 'Cannot start: AutoAcceptor has been disposed.' *)
  | LogConnecting                       (* 'Connecting to CDP on port 9222...' *)
  | LogStarted                          (* 'AutoAccept-Antigravity started.' *)
  | LogFailedToConnect (e : Cdp.connectError)   (* `Failed to connect: ${msg}` *)
  | LogStopping                         (* 'Stopping AutoAccept-Antigravity...' *)
  | LogAccepted (val : string)          (* `Accepted action: ${val}` *)
  | LogBlocked (cmd : string)           (* `BLOCKED dangerous command: ${cmd}` *)
  | LogScriptError (val : string)       (* `Script error: ${val}` *)
  | LogPollError (e : pollError).       (* `Poll error: ${msg}` *)

(** The texts of the notifications (each starts 'AutoAccept-Antigravity: '). *)
Inductive notification : Type :=
  | NoteReconnected                     (* 'Reconnected to IDE UI.' *)
  | NoteCouldNotReconnect               (* 'Could not reconnect to IDE UI after multiple attempts. Please restart.' *)
  | NoteConnected                       (* 'Connected to IDE UI.' *)
  | NoteFailedToConnect                 (* 'Failed to connect. Is VS Code launched with --remote-debugging-port=9222?' *)
  | NoteStopped                         (* 'Stopped.' *)
  | NoteBlocked (cmd : string).         (* `Blocked dangerous command ...` *)

(** What the supervisor does to the host UI, newest first in [ui]. *)
Inductive uiEffect : Type :=
  | UiLog (l : logLine)                 (* outputChannel.appendLine *)
  | UiStatus (st : StatusBarState)      (* statusBarItem.text = ...; show() *)
  | UiInformation (n : notification)    (* vscode.window.showInformationMessage *)
  | UiWarning (n : notification)        (* vscode.window.showWarningMessage *)
  | UiError (n : notification)          (* vscode.window.showErrorMessage *)
  | UiStatusBarDisposed
  | UiOutputChannelDisposed.

(** What [config.get('blockedCommands')] does in one tick. *)
Inductive configRead : Type :=
  | ConfigThrows
  | ConfigMissing
  | ConfigValue (l : list string).

Definition defaultBlockedCommands : list string :=
  ["rm -rf /"; "format"; "mkfs"]%string.

(** The fields of the class, then the armed interval timers, the awaited
    promises and the UI effects. *)
Record AutoAcceptor : Type := mkAcceptor {
  cdp : Cdp.CDPClient;
  isRunning : bool;
  isDisposed : bool;
  pollInterval : option nat;
  isPollInProgress : bool;
  intervals : list nat;
  nextInterval : nat;
  startAwaits : list nat;
  pollAwaits : list Z;
  ui : list uiEffect
}.

Definition set_cdp (v : Cdp.CDPClient) (s : AutoAcceptor) : AutoAcceptor :=
  {|
     cdp := v; isRunning := isRunning s; isDisposed := isDisposed s;
     pollInterval := pollInterval s;
     isPollInProgress := isPollInProgress s; intervals := intervals s;
     nextInterval := nextInterval s; startAwaits := startAwaits s;
     pollAwaits := pollAwaits s; ui := ui s |}.

Definition set_isRunning (v : bool) (s : AutoAcceptor) : AutoAcceptor :=
  {|
     cdp := cdp s; isRunning := v; isDisposed := isDisposed s;
     pollInterval := pollInterval s;
     isPollInProgress := isPollInProgress s; intervals := intervals s;
     nextInterval := nextInterval s; startAwaits := startAwaits s;
     pollAwaits := pollAwaits s; ui := ui s |}.

Definition set_isDisposed (v : bool) (s : AutoAcceptor) : AutoAcceptor :=
  {|
     cdp := cdp s; isRunning := isRunning s; isDisposed := v;
     pollInterval := pollInterval s;
     isPollInProgress := isPollInProgress s; intervals := intervals s;
     nextInterval := nextInterval s; startAwaits := startAwaits s;
     pollAwaits := pollAwaits s; ui := ui s |}.

Definition set_pollInterval (v : option nat) (s : AutoAcceptor) : AutoAcceptor :=
  {|
     cdp := cdp s; isRunning := isRunning s; isDisposed := isDisposed s;
     pollInterval := v; isPollInProgress := isPollInProgress s;
     intervals := intervals s; nextInterval := nextInterval s;
     startAwaits := startAwaits s; pollAwaits := pollAwaits s; ui := ui s |}.

Definition set_isPollInProgress (v : bool) (s : AutoAcceptor) : AutoAcceptor :=
  {|
     cdp := cdp s; isRunning := isRunning s; isDisposed := isDisposed s;
     pollInterval := pollInterval s; isPollInProgress := v;
     intervals := intervals s; nextInterval := nextInterval s;
     startAwaits := startAwaits s; pollAwaits := pollAwaits s; ui := ui s |}.

Definition set_intervals (v : list nat) (s : AutoAcceptor) : AutoAcceptor :=
  {|
     cdp := cdp s; isRunning := isRunning s; isDisposed := isDisposed s;
     pollInterval := pollInterval s;
     isPollInProgress := isPollInProgress s; intervals := v;
     nextInterval := nextInterval s; startAwaits := startAwaits s;
     pollAwaits := pollAwaits s; ui := ui s |}.

Definition set_nextInterval (v : nat) (s : AutoAcceptor) : AutoAcceptor :=
  {|
     cdp := cdp s; isRunning := isRunning s; isDisposed := isDisposed s;
     pollInterval := pollInterval s;
     isPollInProgress := isPollInProgress s; intervals := intervals s;
     nextInterval := v; startAwaits := startAwaits s;
     pollAwaits := pollAwaits s; ui := ui s |}.

Definition set_startAwaits (v : list nat) (s : AutoAcceptor) : AutoAcceptor :=
  {|
     cdp := cdp s; isRunning := isRunning s; isDisposed := isDisposed s;
     pollInterval := pollInterval s;
     isPollInProgress := isPollInProgress s; intervals := intervals s;
     nextInterval := nextInterval s; startAwaits := v;
     pollAwaits := pollAwaits s; ui := ui s |}.

Definition set_pollAwaits (v : list Z) (s : AutoAcceptor) : AutoAcceptor :=
  {|
     cdp := cdp s; isRunning := isRunning s; isDisposed := isDisposed s;
     pollInterval := pollInterval s;
     isPollInProgress := isPollInProgress s; intervals := intervals s;
     nextInterval := nextInterval s; startAwaits := startAwaits s;
     pollAwaits := v; ui := ui s |}.

Definition set_ui (v : list uiEffect) (s : AutoAcceptor) : AutoAcceptor :=
  {|
     cdp := cdp s; isRunning := isRunning s; isDisposed := isDisposed s;
     pollInterval := pollInterval s;
     isPollInProgress := isPollInProgress s; intervals := intervals s;
     nextInterval := nextInterval s; startAwaits := startAwaits s;
     pollAwaits := pollAwaits s; ui := v |}.

Definition show (e : uiEffect) (s : AutoAcceptor) : AutoAcceptor :=
  set_ui (e :: ui s) s.

(** [log(message)]. *)
Definition log (l : logLine) (s : AutoAcceptor) : AutoAcceptor :=
  if isDisposed s then s else show (UiLog l) s.

(** [updateStatusBar(state)]. *)
Definition updateStatusBar (st : StatusBarState) (s : AutoAcceptor) : AutoAcceptor :=
  if isDisposed s then s else show (UiStatus st) s.

(** [resumePolling()]. *)
Definition resumePolling (s : AutoAcceptor) : AutoAcceptor :=
  match isDisposed s, pollInterval s with
  | false, None =>
      let h := nextInterval s in
      let s := set_nextInterval (S h) s in
      let s := set_intervals (intervals s ++ [h]) s in
      set_pollInterval (Some h) s
  | _, _ => s
  end.

(** [pausePolling()]. *)
Definition pausePolling (s : AutoAcceptor) : AutoAcceptor :=
  match pollInterval s with
  | Some h =>
      let s := set_intervals (filter (fun k => negb (Nat.eqb h k)) (intervals s)) s in
      set_pollInterval None s
  | None => s
  end.

(** The three lifecycle callbacks that the constructor registers. *)
Definition cdpOnDisconnect (s : AutoAcceptor) : AutoAcceptor :=
  if isDisposed s then s
  else
    let s := log LogDisconnected s in
    let s := pausePolling s in
    updateStatusBar StatusReconnecting s.

Definition cdpOnReconnect (s : AutoAcceptor) : AutoAcceptor :=
  if isDisposed s then s
  else
    let s := log LogReconnectedResuming s in
    let s := show (UiInformation NoteReconnected) s in
    let s := resumePolling s in
    updateStatusBar StatusOn s.

Definition cdpOnReconnectFailed (s : AutoAcceptor) : AutoAcceptor :=
  if isDisposed s then s
  else
    let s := log LogExhausted s in
    let s := show (UiError NoteCouldNotReconnect) s in
    let s := set_isRunning false s in
    updateStatusBar StatusOff s.

(** [start()] after [await this.cdp.connect(9222)]: the rest of the [try],
    and the [catch]. *)
Definition startConnected (s : AutoAcceptor) : AutoAcceptor :=
  let s := set_isRunning true s in
  let s := updateStatusBar StatusOn s in
  let s := resumePolling s in
  let s := show (UiInformation NoteConnected) s in
  log LogStarted s.

Definition startFailed (e : Cdp.connectError) (s : AutoAcceptor) : AutoAcceptor :=
  let s := log (LogFailedToConnect e) s in
  let s := show (UiWarning NoteFailedToConnect) s in
  let s := set_isRunning false s in
  updateStatusBar StatusOff s.

(** [poll()] after [await this.cdp.send(...)]: the rest of the [try] for
    the value [result?.result?.value], the [catch], and the [finally]. *)
Definition pollFinally (s : AutoAcceptor) : AutoAcceptor :=
  set_isPollInProgress false s.

Definition pollResolved (v : option string) (s : AutoAcceptor) : AutoAcceptor :=
  let val := match v with Some x => x | None => ""%string end in
  let s :=
    if Nat.ltb 0 (String.length val) then
      if Script.startsWith val "clicked_" then log (LogAccepted val) s
      else if Script.startsWith val "blocked: " then
        let cmd := String.substring 9 (String.length val - 9) val in
        let s := log (LogBlocked cmd) s in
        show (UiWarning (NoteBlocked cmd)) s
      else if Script.startsWith val "error: " then log (LogScriptError val) s
      else s
    else s in
  pollFinally s.

Definition pollRejected (e : pollError) (s : AutoAcceptor) : AutoAcceptor :=
  pollFinally (log (LogPollError e) s).

(** What the client did reaches the supervisor: the callbacks it calls run
    at once; a settled promise wakes the method that awaits it, once the
    handler that settled it is done.  The three lifecycle callbacks only
    touch the supervisor's own fields and its UI, never the client. *)
Definition remove_nat (a : nat) (l : list nat) : list nat :=
  filter (fun k => negb (Nat.eqb a k)) l.

Definition callback (e : Cdp.effect) (s : AutoAcceptor) : AutoAcceptor :=
  match e with
  | Cdp.ELog m => log (LogCdp m) s
  | Cdp.EOnDisconnect => cdpOnDisconnect s
  | Cdp.EOnReconnect => cdpOnReconnect s
  | Cdp.EOnReconnectFailed => cdpOnReconnectFailed s
  | _ => s
  end.

Definition wake (e : Cdp.effect) (s : AutoAcceptor) : AutoAcceptor :=
  match e with
  | Cdp.EConnectResolved a =>
      if existsb (Nat.eqb a) (startAwaits s)
      then startConnected (set_startAwaits (remove_nat a (startAwaits s)) s)
      else s
  | Cdp.EConnectRejected a err =>
      if existsb (Nat.eqb a) (startAwaits s)
      then startFailed err (set_startAwaits (remove_nat a (startAwaits s)) s)
      else s
  | Cdp.ECallResolved id v =>
      if Cdp.has id (pollAwaits s)
      then pollResolved v (set_pollAwaits (Cdp.mapDelete id (pollAwaits s)) s)
      else s
  | Cdp.ECallRejected id r =>
      if Cdp.has id (pollAwaits s)
      then pollRejected (CallRejected r) (set_pollAwaits (Cdp.mapDelete id (pollAwaits s)) s)
      else s
  | _ => s
  end.

(** The client's effects of one step, oldest first. *)
Definition settle (s : AutoAcceptor) : AutoAcceptor :=
  let effects := rev (Cdp.trace (cdp s)) in
  let s := fold_left (fun s e => callback e s) effects s in
  fold_left (fun s e => wake e s) effects s.

(** Runs a method of the client inside the supervisor. *)
Definition withCdp (f : Cdp.CDPClient -> Cdp.CDPClient) (s : AutoAcceptor) : AutoAcceptor :=
  set_cdp (f (cdp s)) s.

(** Before a turn of the event loop: the client's effects of the turn
    before have been handled. *)
Definition flush (s : AutoAcceptor) : AutoAcceptor :=
  withCdp (Cdp.set_trace []) s.

(** The constructor. *)
Definition newAutoAcceptor : AutoAcceptor :=
  let c := Cdp.newClient Cdp.DEFAULT_OPTIONS in
  let c := Cdp.onLog c in
  let c := Cdp.onDisconnect c in
  let c := Cdp.onReconnect c in
  let c := Cdp.onReconnectFailed c in
  {| cdp := c; isRunning := false; isDisposed := false; pollInterval := None;
     isPollInProgress := false; intervals := []; nextInterval := 0%nat;
     startAwaits := []; pollAwaits := []; ui := [UiStatus StatusOff] |}.

(** [start()], up to its [await]. *)
Definition start (s : AutoAcceptor) : AutoAcceptor :=
  if isDisposed s then log LogCannotStart s
  else if isRunning s then s
  else
    let s := log LogConnecting s in
    let '(r, c) := Cdp.connect 9222 (cdp s) in
    let s := set_cdp c s in
    match r with
    | inl err => startFailed err s
    | inr a => set_startAwaits (startAwaits s ++ [a]) s
    end.

(** [stop()]. *)
Definition stop (s : AutoAcceptor) : AutoAcceptor :=
  if isDisposed s then s
  else
    let s := log LogStopping s in
    let s := pausePolling s in
    let s := withCdp Cdp.disconnect s in
    let s := set_isRunning false s in
    let s := updateStatusBar StatusOff s in
    show (UiInformation NoteStopped) s.

(** [toggle()]. *)
Definition toggle (s : AutoAcceptor) : AutoAcceptor :=
  if isDisposed s then log LogCannotToggle s
  else if isRunning s then stop s
  else start s.

(** [dispose()]. *)
Definition dispose (s : AutoAcceptor) : AutoAcceptor :=
  if isDisposed s then s
  else
    let s := set_isDisposed true s in
    let s := pausePolling s in
    let s := withCdp Cdp.disconnect s in
    let s := show UiStatusBarDisposed s in
    show UiOutputChannelDisposed s.

(** [poll()], up to its [await].  [cfg] is what reading the configuration
    does, [throws] whether [ws.send] raises.  Between the two checks and
    the call of [send] the method only reads the configuration (inside its
    own [try]) and builds the text of the script from it. *)
Definition poll (cfg : configRead) (throws : bool) (s : AutoAcceptor) : AutoAcceptor :=
  if isPollInProgress s || negb (isRunning s) || isDisposed s then s
  else if negb (Cdp.isConnected (cdp s)) then s
  else
    let s := set_isPollInProgress true s in
    let blockedCommands :=
      match cfg with
      | ConfigValue l => l
      | ConfigMissing | ConfigThrows => defaultBlockedCommands
      end in
    let '(r, c) := Cdp.send "Runtime.evaluate" throws (cdp s) in
    let s := set_cdp c s in
    match r with
    | inl err => pollRejected (SendThrew err) s
    | inr id => set_pollAwaits (pollAwaits s ++ [id]) s
    end.

(** ** Events *)
Inductive event : Type :=
  | Start | Stop | Toggle | Dispose
  | Tick (h : nat) (cfg : configRead) (throws : bool)
  | Host (e : Cdp.hostEvent).

(** One turn of the event loop: the method or handler, then the promises
    it settled. *)
Definition step (e : event) (s : AutoAcceptor) : AutoAcceptor :=
  match e with
  | Start => settle (start (flush s))
  | Stop => settle (stop (flush s))
  | Toggle => settle (toggle (flush s))
  | Dispose => settle (dispose (flush s))
  | Tick h cfg throws =>
      if existsb (Nat.eqb h) (intervals s)
      then settle (poll cfg throws (flush s))
      else s
  | Host h => settle (withCdp (Cdp.deliver h) (flush s))
  end.

Definition run (evs : list event) (s : AutoAcceptor) : AutoAcceptor :=
  fold_left (fun s e => step e s) evs s.

(** ** The guard of the poll loop *)

(** What the guard is about: the flag, and the ticks that are suspended at
    their [await]. *)
Definition guard (s : AutoAcceptor) : bool * list Z :=
  (isPollInProgress s, pollAwaits s).

(** The flag is set exactly while one tick is suspended, and there is
    never more than one. *)
Definition guardOk (g : bool * list Z) : bool :=
  match snd g with
  | [] => negb (fst g)
  | [_] => fst g
  | _ :: _ :: _ => false
  end.

(** A supervisor that is started and connected. *)
Definition runningAcceptor : AutoAcceptor :=
  run [Start; Host (Cdp.SocketCreated 0); Host (Cdp.WsOpen 0)] newAutoAcceptor.


(** ** The poll timer and the disposed supervisor *)

(** What the poll timer is about: the disposed flag, the handle the class
    holds, and the interval timers that are armed. *)
Definition timerView (s : AutoAcceptor) : bool * option nat * list nat :=
  (isDisposed s, pollInterval s, intervals s).

(** The armed timers are exactly the one whose handle the class holds, and
    a disposed supervisor holds none. *)
Definition timerOk (v : bool * option nat * list nat) : Prop :=
  let '(d, h, armed) := v in
  armed = match h with Some k => [k] | None => [] end /\
  (d = true -> h = None).

Definition isLogOrStatus (e : uiEffect) : bool :=
  match e with UiLog _ | UiStatus _ => true | _ => false end.

(** What a disposed supervisor keeps as it is: the flag, the poll timer,
    the log and the status bar, and the id counter of the client. *)
Definition disposedView (s : AutoAcceptor)
  : bool * option nat * list nat * list uiEffect * Z :=
  (isDisposed s, pollInterval s, intervals s, filter isLogOrStatus (ui s),
   Cdp.messageId (cdp s)).

(** A history that ends with the connection lost: start, stop, start again,
    then the socket closes. *)
Definition lostConnection : list event :=
  [Start; Host (Cdp.SocketCreated 0); Host (Cdp.WsOpen 0);
   Stop; Toggle; Host (Cdp.SocketCreated 1); Host (Cdp.WsOpen 1);
   Host (Cdp.WsClose 1)].

(** A supervisor that is disposed while a poll tick is in flight. *)
Definition disposedAcceptor : AutoAcceptor :=
  run [Tick 0 ConfigMissing false; Dispose] runningAcceptor.

End Supervisor.

(** * The settings-based AutoAcceptor

    [class AutoAcceptor] of the native strategy (the first class of
    [unnamed/part_000]): it turns the editor's auto-approval settings on,
    remembers the values they had, and writes those back on [stop()] and
    [dispose()].

    The host is the editor's configuration service.  [globalSettings] is
    the user-level store, [None] standing for [undefined] (the setting is
    not set at that level); a [config.update(key, v, Global)] that succeeds
    stores [v] under the full key, and [inspect(key)?.globalValue] reads it.
    What a host call does for a given setting is the [outcome] that the
    [host] names for its full key. *)
Module Settings.

(** A setting's value ([unknown] in the source; [undefined] is [None]). *)
Inductive value : Type :=
  | VBool (b : bool)
  | VJson (text : string).

(** [AUTO_APPROVE_SETTINGS]: section, key, valueWhenOn. *)
Definition AUTO_APPROVE_SETTINGS : list (string * string * value) :=
  [ ("chat.tools"%string, "autoApprove"%string, VBool true);
    ("chat.agent"%string, "autoApprove"%string, VBool true);
    ("chat.tools.terminal"%string, "enableAutoApprove"%string, VBool true) ].

(** [`${section}.${key}`] *)
Definition fullKey (section key : string) : string :=
  (section ++ "." ++ key)%string.

(** What the configuration service does when a setting is handled. *)
Inductive outcome : Type :=
  | Done            (* every call returns, the update is written *)
  | ReadThrows      (* getConfiguration(section) or inspect(key) throws *)
  | UpdateThrows    (* config.update(...) throws *)
  | UpdateRejects.  (* the promise of config.update(...) is rejected *)

Definition host : Type := string -> outcome.

Definition isDone (o : outcome) : bool :=
  match o with Done => true | _ => false end.

Definition isReadThrows (o : outcome) : bool :=
  match o with ReadThrows => true | _ => false end.

Inductive StatusBarState : Type := StatusOn | StatusOff.

Inductive logLine : Type :=
  | LogStopping                                    (* 'Stopping AutoAccept-Antigravity...' *)
  | LogSet (fullKey : string) (v : value)          (* `Set ${fullKey} = ...` *)
  | LogCouldNotSet (fullKey : string)              (* `Warning: could not set ...` *)
  | LogRestored (fullKey : string) (original : option value)
                                                   (* `Restored ${fullKey} = ...` *)
  | LogCouldNotRestore (fullKey : string)          (* `Warning: could not restore ...` *)
  | LogStopError.                                  (* `Stop error: ${msg}` *)

Inductive uiEffect : Type :=
  | UiLog (l : logLine)               (* outputChannel.appendLine *)
  | UiStatus (st : StatusBarState)    (* statusBarItem.text, tooltip, show() *)
  | UiInfoStopped                     (* showInformationMessage('... Stopped ...') *)
  | UiStatusBarDispose                (* statusBarItem.dispose() *)
  | UiChannelDispose.                 (* outputChannel.dispose() *)

(** The fields of the class, the user-level settings of the host, the
    interval timers that are armed, and the effects on the editor's
    interface, newest first. *)
Record AutoAcceptor : Type := {
  isRunning : bool;
  isDisposed : bool;
  pollInterval : option nat;
  isPollInProgress : bool;
  savedSettings : list (string * option value);
  acceptCommands : list string;
  globalSettings : string -> option value;
  intervals : list nat;
  ui : list uiEffect
}.

Definition set_isRunning (v : bool) (s : AutoAcceptor) : AutoAcceptor :=
  {| isRunning := v; isDisposed := isDisposed s; pollInterval := pollInterval s;
     isPollInProgress := isPollInProgress s; savedSettings := savedSettings s;
     acceptCommands := acceptCommands s; globalSettings := globalSettings s;
     intervals := intervals s; ui := ui s |}.

Definition set_isDisposed (v : bool) (s : AutoAcceptor) : AutoAcceptor :=
  {| isRunning := isRunning s; isDisposed := v; pollInterval := pollInterval s;
     isPollInProgress := isPollInProgress s; savedSettings := savedSettings s;
     acceptCommands := acceptCommands s; globalSettings := globalSettings s;
     intervals := intervals s; ui := ui s |}.

Definition set_pollInterval (v : option nat) (s : AutoAcceptor) : AutoAcceptor :=
  {| isRunning := isRunning s; isDisposed := isDisposed s; pollInterval := v;
     isPollInProgress := isPollInProgress s; savedSettings := savedSettings s;
     acceptCommands := acceptCommands s; globalSettings := globalSettings s;
     intervals := intervals s; ui := ui s |}.

Definition set_savedSettings (v : list (string * option value)) (s : AutoAcceptor)
  : AutoAcceptor :=
  {| isRunning := isRunning s; isDisposed := isDisposed s;
     pollInterval := pollInterval s; isPollInProgress := isPollInProgress s;
     savedSettings := v; acceptCommands := acceptCommands s;
     globalSettings := globalSettings s; intervals := intervals s; ui := ui s |}.

Definition set_globalSettings (v : string -> option value) (s : AutoAcceptor)
  : AutoAcceptor :=
  {| isRunning := isRunning s; isDisposed := isDisposed s;
     pollInterval := pollInterval s; isPollInProgress := isPollInProgress s;
     savedSettings := savedSettings s; acceptCommands := acceptCommands s;
     globalSettings := v; intervals := intervals s; ui := ui s |}.

Definition set_intervals (v : list nat) (s : AutoAcceptor) : AutoAcceptor :=
  {| isRunning := isRunning s; isDisposed := isDisposed s;
     pollInterval := pollInterval s; isPollInProgress := isPollInProgress s;
     savedSettings := savedSettings s; acceptCommands := acceptCommands s;
     globalSettings := globalSettings s; intervals := v; ui := ui s |}.

Definition set_ui (v : list uiEffect) (s : AutoAcceptor) : AutoAcceptor :=
  {| isRunning := isRunning s; isDisposed := isDisposed s;
     pollInterval := pollInterval s; isPollInProgress := isPollInProgress s;
     savedSettings := savedSettings s; acceptCommands := acceptCommands s;
     globalSettings := globalSettings s; intervals := intervals s; ui := v |}.

(** [Map.prototype.set]: an existing key keeps its place. *)
Fixpoint mapSet (k : string) (v : option value) (m : list (string * option value))
  : list (string * option value) :=
  match m with
  | [] => [(k, v)]
  | (k', v') :: rest =>
      if String.eqb k k' then (k, v) :: rest else (k', v') :: mapSet k v rest
  end.

(** The entry of a key, if the map has one. *)
Fixpoint mapFind (k : string) (m : list (string * option value))
  : option (option value) :=
  match m with
  | [] => None
  | (k', v') :: rest => if String.eqb k k' then Some v' else mapFind k rest
  end.

(** [Map.prototype.get]: [undefined] for a key that is absent. *)
Definition mapGet (k : string) (m : list (string * option value)) : option value :=
  match mapFind k m with
  | Some v => v
  | None => None
  end.

(** The store after a [config.update] that went through. *)
Definition update (k : string) (v : option value) (g : string -> option value)
  : string -> option value :=
  fun k' => if String.eqb k' k then v else g k'.

(** [private log(message)] *)
Definition log (l : logLine) (s : AutoAcceptor) : AutoAcceptor :=
  if isDisposed s then s else set_ui (UiLog l :: ui s) s.

(** [private updateStatusBar(state)] *)
Definition updateStatusBar (st : StatusBarState) (s : AutoAcceptor) : AutoAcceptor :=
  if isDisposed s then s else set_ui (UiStatus st :: ui s) s.

(** [private pausePolling()] *)
Definition pausePolling (s : AutoAcceptor) : AutoAcceptor :=
  match pollInterval s with
  | Some h =>
      let s := set_intervals (filter (fun h' => negb (Nat.eqb h' h)) (intervals s)) s in
      set_pollInterval None s
  | None => s
  end.

(** One turn of the loop of [applyAutoApproveSettings]. *)
Definition applySetting (h : host) (s : AutoAcceptor) (entry : string * string * value)
  : AutoAcceptor :=
  let '(section, key, valueWhenOn) := entry in
  let k := fullKey section key in
  match h k with
  | ReadThrows => log (LogCouldNotSet k) s
  | o =>
      let s := set_savedSettings (mapSet k (globalSettings s k) (savedSettings s)) s in
      match o with
      | Done =>
          let s := set_globalSettings (update k (Some valueWhenOn) (globalSettings s)) s in
          log (LogSet k valueWhenOn) s
      | _ => log (LogCouldNotSet k) s
      end
  end.

(** [private async applyAutoApproveSettings()], run without another writer
    of the settings between its awaits. *)
Definition applyAutoApproveSettings (h : host) (s : AutoAcceptor) : AutoAcceptor :=
  let s := set_savedSettings [] s in
  fold_left (applySetting h) AUTO_APPROVE_SETTINGS s.

(** One turn of the loop of [restoreSettings].  The promise of the update is
    not awaited: when it is rejected the loop still logs the restore. *)
Definition restoreSetting (h : host) (s : AutoAcceptor) (entry : string * string * value)
  : AutoAcceptor :=
  let '(section, key, _) := entry in
  let k := fullKey section key in
  let original := mapGet k (savedSettings s) in
  match h k with
  | ReadThrows | UpdateThrows => log (LogCouldNotRestore k) s
  | Done =>
      let s := set_globalSettings (update k original (globalSettings s)) s in
      log (LogRestored k original) s
  | UpdateRejects => log (LogRestored k original) s
  end.

(** [private restoreSettings()] *)
Definition restoreSettings (h : host) (s : AutoAcceptor) : AutoAcceptor :=
  let s := fold_left (restoreSetting h) AUTO_APPROVE_SETTINGS s in
  set_savedSettings [] s.

(** [public stop()]; [showThrows] says that [showInformationMessage] throws,
    the one call of the [try] block that nothing inside it catches. *)
Definition stop (h : host) (showThrows : bool) (s : AutoAcceptor) : AutoAcceptor :=
  if isDisposed s then s
  else
    let s := log LogStopping s in
    let s := pausePolling s in
    let s := restoreSettings h s in
    let s := set_isRunning false s in
    let s := updateStatusBar StatusOff s in
    if showThrows then
      let s := log LogStopError s in
      let s := set_isRunning false s in
      updateStatusBar StatusOff s
    else set_ui (UiInfoStopped :: ui s) s.

(** [public dispose()] *)
Definition dispose (h : host) (s : AutoAcceptor) : AutoAcceptor :=
  if isDisposed s then s
  else
    let s := set_isDisposed true s in
    let s := pausePolling s in
    let s := restoreSettings h s in
    let s := set_ui (UiStatusBarDispose :: ui s) s in
    set_ui (UiChannelDispose :: ui s) s.

(** The full key of an entry of the table. *)
Definition keyOf (entry : string * string * value) : string :=
  let '(section, key, _) := entry in fullKey section key.

(** The full keys that the class manages. *)
Definition managedKeys : list string := map keyOf AUTO_APPROVE_SETTINGS.

Definition managed (k : string) : bool :=
  existsb (String.eqb k) managedKeys.

Definition isLog (e : uiEffect) : bool :=
  match e with UiLog _ => true | _ => false end.

Definition isStatus (e : uiEffect) : bool :=
  match e with UiStatus _ => true | _ => false end.

(** The configuration service never fails. *)
Definition reliable : host := fun _ => Done.

(** A user who has set one of the managed settings and another one. *)
Definition userSettings : string -> option value :=
  fun k =>
    if String.eqb k "chat.agent.autoApprove" then Some (VBool false)
    else if String.eqb k "editor.fontSize" then Some (VJson "14")
    else None.

(** An acceptor that is running on a timer, before any setting is saved. *)
Definition activeAcceptor : AutoAcceptor :=
  {| isRunning := true; isDisposed := false; pollInterval := Some 0%nat;
     isPollInProgress := false; savedSettings := [];
     acceptCommands := []; globalSettings := userSettings;
     intervals := [0%nat]; ui := [] |}.

End Settings.

(** * Properties of the Session Client *)
Module CdpProofs.
Import Cdp.

Lemma set_same (s : CDPClient) :
  set_trace (trace s) (set_callTimers (callTimers s) s) = s.
Proof. destruct s; reflexivity. Qed.

(** The loop of [rejectAllPending] in closed form. *)
Lemma reject_loop (r : rejectReason) (l : list Z) : forall s,
  fold_left (fun s id => emit (ECallRejected id r) (clearCallTimer id s)) l s
  = set_trace (rev (map (fun id => ECallRejected id r) l) ++ trace s)
      (set_callTimers (fold_left (fun ct id => mapDelete id ct) l (callTimers s)) s).
Proof.
  induction l as [|a l IH]; intros s; simpl.
  - apply eq_sym, set_same.
  - rewrite IH. destruct s; unfold emit, clearCallTimer, set_trace, set_callTimers; simpl.
    rewrite <- app_assoc. reflexivity.
Qed.

Lemma rejectAllPending_eq (r : rejectReason) (s : CDPClient) :
  rejectAllPending r s
  = set_callbacks []
      (set_trace (rev (map (fun id => ECallRejected id r) (callbacks s)) ++ trace s)
         (set_callTimers
            (fold_left (fun ct id => mapDelete id ct) (callbacks s) (callTimers s)) s)).
Proof. unfold rejectAllPending. rewrite reject_loop. reflexivity. Qed.

(** After [disconnect] there is nothing left for a second one to do. *)
Lemma disconnect_done (s : CDPClient) :
  isDisposed s = false ->
  let s1 := disconnect s in
  isDisposed s1 = false /\ intentionalDisconnect s1 = true /\
  retryTimer s1 = None /\ callbacks s1 = [] /\ ws s1 = None.
Proof.
  intros Hd. unfold disconnect. rewrite Hd.
  rewrite rejectAllPending_eq.
  destruct s as [w mid cbs p rc rt idc dsp o c1 c2 c3 c4 ats rts nt cts tr].
  simpl in *. subst dsp.
  destruct rt as [h|]; destruct w as [sock|]; simpl; unfold wsClose; simpl;
    try (destruct (readyState _ _)); simpl; repeat split; reflexivity.
Qed.

Lemma disconnect_noop (s : CDPClient) :
  intentionalDisconnect s = true -> retryTimer s = None ->
  callbacks s = [] -> ws s = None ->
  disconnect s = s.
Proof.
  intros Hi Hr Hc Hw. unfold disconnect.
  destruct (isDisposed s) eqn:Hd; [reflexivity|].
  rewrite rejectAllPending_eq.
  destruct s as [w mid cbs p rc rt idc dsp o c1 c2 c3 c4 ats rts nt cts tr].
  simpl in *. subst. reflexivity.
Qed.

(** C9.  [disconnect()] is idempotent: for every state of the client, a
    second call right after a first one returns (the function is total)
    and leaves the whole state as the first call left it -- the
    intentional-disconnect flag, the retry timer, the table of pending
    calls, the socket handle, the armed timers -- and has no effect on the
    outside: the trace of effects is part of the state. *)
Theorem disconnect_idempotent (s : CDPClient) :
  disconnect (disconnect s) = disconnect s.
Proof.
  destruct (isDisposed s) eqn:Hd.
  - unfold disconnect. rewrite Hd. rewrite Hd. reflexivity.
  - destruct (disconnect_done s Hd) as (_ & Hi & Hr & Hc & Hw).
    apply disconnect_noop; assumption.
Qed.

(** ** Reconnection *)

Ltac destruct_client s :=
  destruct s as [w mid cbs p rc rt idc dsp o c1 c2 c3 c4 ats rts nt cts tr].

Lemma nth_error_snoc {A : Type} (l : list A) (x : A) :
  nth_error (l ++ [x]) (List.length l) = Some x.
Proof. induction l; simpl; auto. Qed.

Lemma updateAt_snoc {A : Type} (f : A -> A) (l : list A) (x : A) :
  updateAt (List.length l) f (l ++ [x]) = l ++ [f x].
Proof. induction l; simpl; [reflexivity | now rewrite IHl]. Qed.

Lemma forallb_snoc {A : Type} (f : A -> bool) (l : list A) (x : A) :
  forallb f (l ++ [x]) = forallb f l && f x.
Proof. rewrite forallb_app. simpl. now rewrite andb_true_r. Qed.

Lemma awaitingRetry_inv (s : CDPClient) :
  awaitingRetry s = true ->
  isDisposed s = false /\ intentionalDisconnect s = false /\ ws s = None /\
  forallb inert (attempts s) = true /\
  (exists h d, retryTimer s = Some h /\ retryTimers s = [(h, d)]) /\
  callbacks s = [] /\ callTimers s = [].
Proof.
  unfold awaitingRetry. intros H.
  apply andb_true_iff in H; destruct H as [H Hcb].
  apply andb_true_iff in H; destruct H as [H Hrt].
  apply andb_true_iff in H; destruct H as [H Hin].
  apply andb_true_iff in H; destruct H as [H Hws].
  apply andb_true_iff in H; destruct H as [Hd Hi].
  destruct (isDisposed s); [discriminate|].
  destruct (intentionalDisconnect s); [discriminate|].
  destruct (ws s); [discriminate|].
  destruct (callbacks s); [|discriminate].
  destruct (callTimers s); [|discriminate].
  destruct (retryTimer s) as [h|]; [|discriminate].
  destruct (retryTimers s) as [|[h' d] [|? ?]]; try discriminate.
  apply Nat.eqb_eq in Hrt. subst h'.
  repeat split; auto. now exists h, d.
Qed.

Lemma notify_eq (b : bool) (e : effect) (s : CDPClient) :
  notify b e s = set_trace (if b then e :: trace s else trace s) s.
Proof. destruct b; [reflexivity | destruct s; reflexivity]. Qed.

Lemma log_eq (m : logMessage) (s : CDPClient) :
  log m s = set_trace (if _onLog s then ELog m :: trace s else trace s) s.
Proof. apply notify_eq. Qed.

(** What [scheduleReconnect] leaves behind while attempts remain. *)
Lemma scheduleReconnect_arms (s : CDPClient) :
  isDisposed s = false -> intentionalDisconnect s = false ->
  retryCount s < maxRetries (options s) ->
  scheduleReconnect s
  = set_retryTimer (Some (nextTimer s))
      (emit (ESetRetryTimer (nextTimer s) (reconnectDelay (options s) (retryCount s)))
        (set_retryTimers
           (retryTimers s ++ [(nextTimer s, reconnectDelay (options s) (retryCount s))])
           (set_nextTimer (S (nextTimer s))
              (log (LogReconnecting (reconnectDelay (options s) (retryCount s))
                                    (retryCount s + 1) (maxRetries (options s)))
                 (set_retryCount (retryCount s + 1) s))))).
Proof.
  intros Hd Hi Hlt. unfold scheduleReconnect. rewrite Hd, Hi. simpl.
  destruct (Z.leb_spec (maxRetries (options s)) (retryCount s)); [lia|].
  rewrite !log_eq. destruct_client s; reflexivity.
Qed.

(** What [scheduleReconnect] does once the attempts are used up. *)
Lemma scheduleReconnect_gives_up (s : CDPClient) :
  isDisposed s = false -> intentionalDisconnect s = false ->
  maxRetries (options s) <= retryCount s ->
  scheduleReconnect s
  = notify (_onReconnectFailed s) EOnReconnectFailed
      (log (LogGivingUp (maxRetries (options s))) s).
Proof.
  intros Hd Hi Hle. unfold scheduleReconnect. rewrite Hd, Hi. simpl.
  destruct (Z.leb_spec (maxRetries (options s)) (retryCount s)); [|lia].
  rewrite !log_eq, !notify_eq. destruct_client s; reflexivity.
Qed.

Arguments scheduleReconnect : simpl never.
Arguments reconnectDelay : simpl never.

(** The steps of a reconnection attempt, each on a state of which only the
    fields that matter are known. *)
Lemma retryTimer_fires (h : nat) (d : number) (s : CDPClient) :
  retryTimers s = [(h, d)] ->
  isDisposed s = false -> intentionalDisconnect s = false ->
  deliver (RetryTimerFires h) s
  = emit (EHttpGet (List.length (attempts s)) (port s))
      (set_attempts (attempts s ++ [mkAttempt Retry false Discovering])
         (set_retryTimer None (set_retryTimers [] s))).
Proof.
  intros Hr Hd Hi. destruct_client s; simpl in *; subst.
  unfold retryTimerArmed, clearRetryTimer, retryTimerCallback, doConnect; simpl.
  rewrite Nat.eqb_refl; reflexivity.
Qed.

Lemma discovery_fails_retry (a : nat) (e : connectError) (s : CDPClient) (l : list attempt) :
  attempts s = l ++ [mkAttempt Retry false Discovering] -> a = List.length l ->
  deliver (DiscoveryFails a e) s
  = scheduleReconnect (set_attempts (l ++ [mkAttempt Retry true NoSocket]) s).
Proof.
  intros Ha ->. destruct_client s; simpl in *; subst.
  unfold phaseOf; simpl. rewrite nth_error_snoc; simpl.
  unfold rejectConnect, setPhase, markSettled; simpl.
  rewrite updateAt_snoc, nth_error_snoc; simpl.
  rewrite updateAt_snoc. reflexivity.
Qed.

Lemma socket_fails_retry (a : nat) (s : CDPClient) (l : list attempt) :
  attempts s = l ++ [mkAttempt Retry false Discovering] -> a = List.length l ->
  isDisposed s = false -> intentionalDisconnect s = false ->
  deliver (WsClose a) (deliver (WsError a) (deliver (SocketCreated a) s))
  = scheduleReconnect
      (notify (_onDisconnect s) EOnDisconnect
         (rejectAllPending ConnectionClosed
            (set_ws None
               (log LogClosed
                  (log LogSocketError
                     (set_attempts (l ++ [mkAttempt Retry false (Sock CLOSED)]) s)))))).
Proof.
  intros Ha -> Hd Hi. rewrite !log_eq, rejectAllPending_eq, notify_eq.
  destruct_client s; simpl in *; subst.
  unfold phaseOf; simpl. rewrite nth_error_snoc; simpl.
  unfold setPhase; simpl. rewrite updateAt_snoc; simpl.
  unfold phaseOf, wsOnError; rewrite log_eq; simpl. rewrite nth_error_snoc; simpl.
  unfold phaseOf; simpl. rewrite nth_error_snoc; simpl.
  unfold wsOnClose. rewrite log_eq, rejectAllPending_eq, notify_eq; simpl.
  rewrite updateAt_snoc. reflexivity.
Qed.

(** One failed attempt, put together. *)
Lemma failedReconnect_eq (f : failure) (s : CDPClient) :
  awaitingRetry s = true ->
  failedReconnect f s
  = scheduleReconnect
      match f with
      | DiscoveryFailure _ =>
          set_attempts (attempts s ++ [mkAttempt Retry true NoSocket])
            (emit (EHttpGet (List.length (attempts s)) (port s))
               (set_retryTimer None (set_retryTimers [] s)))
      | SocketFailure =>
          set_callbacks []
            (notify (_onDisconnect s) EOnDisconnect
               (set_ws None
                  (log LogClosed
                     (log LogSocketError
                        (set_attempts (attempts s ++ [mkAttempt Retry false (Sock CLOSED)])
                           (emit (EHttpGet (List.length (attempts s)) (port s))
                              (set_retryTimer None (set_retryTimers [] s))))))))
      end.
Proof.
  intros Ha.
  destruct (awaitingRetry_inv s Ha) as (Hd & Hi & Hw & Hin & (h & d & Hrt & Hrts) & Hcb & Hct).
  unfold failedReconnect. rewrite Hrt. cbv zeta.
  rewrite (retryTimer_fires h d s Hrts Hd Hi).
  destruct f as [e|].
  - rewrite (discovery_fails_retry _ e _ (attempts s)) by reflexivity.
    apply (f_equal scheduleReconnect). destruct_client s; reflexivity.
  - rewrite (socket_fails_retry _ _ (attempts s)) by (simpl; auto).
    apply (f_equal scheduleReconnect). rewrite rejectAllPending_eq, !log_eq, !notify_eq.
    destruct_client s; simpl in *; subst. reflexivity.
Qed.

Lemma failedReconnect_next (f : failure) (s : CDPClient) :
  awaitingRetry s = true ->
  retryCount s < maxRetries (options s) ->
  let s' := failedReconnect f s in
  awaitingRetry s' = true /\
  retryCount s' = retryCount s + 1 /\
  options s' = options s /\
  _onReconnectFailed s' = _onReconnectFailed s /\
  delaysNewestFirst (trace s')
    = reconnectDelay (options s) (retryCount s) :: delaysNewestFirst (trace s) /\
  reconnectFailedCalls (trace s') = reconnectFailedCalls (trace s).
Proof.
  intros Ha Hlt. cbv zeta. rewrite (failedReconnect_eq f s Ha).
  destruct (awaitingRetry_inv s Ha) as (Hd & Hi & Hw & Hin & (h & d & Hrt & Hrts) & Hcb & Hct).
  rewrite scheduleReconnect_arms
    by (destruct f; rewrite ?log_eq, ?notify_eq; simpl; auto).
  rewrite !log_eq, !notify_eq.
  unfold awaitingRetry, reconnectFailedCalls; destruct f; simpl;
    rewrite ?Hd, ?Hi, ?Hcb, ?Hct, ?Hw, ?forallb_snoc, ?Hin, ?Nat.eqb_refl; simpl;
    destruct (_onLog s), (_onDisconnect s); simpl;
    repeat split; reflexivity.
Qed.

Lemma failedReconnect_last (f : failure) (s : CDPClient) :
  awaitingRetry s = true ->
  maxRetries (options s) <= retryCount s ->
  let s' := failedReconnect f s in
  quiet s' = true /\ ws s' = None /\ retryTimer s' = None /\
  isDisposed s' = false /\
  retryCount s' = retryCount s /\
  options s' = options s /\
  delaysNewestFirst (trace s') = delaysNewestFirst (trace s) /\
  reconnectFailedCalls (trace s')
    = ((if _onReconnectFailed s then 1 else 0) + reconnectFailedCalls (trace s))%nat.
Proof.
  intros Ha Hlt. cbv zeta. rewrite (failedReconnect_eq f s Ha).
  destruct (awaitingRetry_inv s Ha) as (Hd & Hi & Hw & Hin & (h & d & Hrt & Hrts) & Hcb & Hct).
  rewrite scheduleReconnect_gives_up
    by (destruct f; rewrite ?log_eq, ?notify_eq; simpl; auto).
  rewrite !log_eq, !notify_eq.
  unfold quiet, reconnectFailedCalls; destruct f; simpl;
    rewrite ?Hd, ?Hct, ?Hw, ?forallb_snoc, ?Hin; simpl;
    destruct (_onLog s), (_onDisconnect s), (_onReconnectFailed s); simpl;
    repeat split; reflexivity.
Qed.

(** ** The closure of an established connection *)

Lemma has_In (id : Z) (l : list Z) : has id l = true <-> In id l.
Proof.
  unfold has. rewrite existsb_exists. split.
  - intros (x & Hx & He). apply Z.eqb_eq in He. now subst.
  - intros H. exists id. split; [assumption | apply Z.eqb_refl].
Qed.

Lemma mapDelete_In (id x : Z) (l : list Z) :
  In x (mapDelete id l) <-> In x l /\ x <> id.
Proof.
  unfold mapDelete. rewrite filter_In. rewrite negb_true_iff, Z.eqb_neq.
  intuition congruence.
Qed.

(** [rejectAllPending] clears every timer that belongs to a pending call. *)
Lemma timers_cleared (cbs : list Z) : forall cts : list Z,
  (forall x, In x cts -> In x cbs) ->
  fold_left (fun ct id => mapDelete id ct) cbs cts = [].
Proof.
  induction cbs as [|a l IH]; intros cts H; simpl.
  - destruct cts as [|x r]; [reflexivity|]. elim (H x). now left.
  - apply IH. intros x Hx. apply mapDelete_In in Hx. destruct Hx as [Hx Hne].
    destruct (H x Hx); [congruence | assumption].
Qed.

Lemma inert_updateAt (n : nat) (f : attempt -> attempt) : forall l : list attempt,
  forallb inert (firstn n l) = true ->
  forallb inert (skipn (S n) l) = true ->
  (forall x, nth_error l n = Some x -> inert (f x) = true) ->
  forallb inert (updateAt n f l) = true.
Proof.
  induction n as [|n IH]; intros [|x l] H1 H2 H3; simpl in *; try reflexivity.
  - rewrite H2, (H3 x eq_refl). reflexivity.
  - apply andb_true_iff in H1. destruct H1 as [Hx H1].
    rewrite Hx. simpl. apply IH; assumption.
Qed.

Lemma established_inv (sock : nat) (s : CDPClient) :
  established sock s = true ->
  isDisposed s = false /\ intentionalDisconnect s = false /\
  ws s = Some sock /\ phaseOf sock s = Some (Sock OPEN) /\
  forallb inert (firstn sock (attempts s)) = true /\
  forallb inert (skipn (S sock) (attempts s)) = true /\
  retryCount s = 0 /\ retryTimer s = None /\ retryTimers s = [] /\
  (forall x, In x (callTimers s) -> In x (callbacks s)).
Proof.
  unfold established. intros H.
  apply andb_true_iff in H; destruct H as [H Hct].
  apply andb_true_iff in H; destruct H as [H Hrts].
  apply andb_true_iff in H; destruct H as [H Hrc].
  apply andb_true_iff in H; destruct H as [H Hsk].
  apply andb_true_iff in H; destruct H as [H Hfi].
  apply andb_true_iff in H; destruct H as [H Hph].
  apply andb_true_iff in H; destruct H as [H Hws].
  apply andb_true_iff in H; destruct H as [Hd Hi].
  destruct (isDisposed s); [discriminate|].
  destruct (intentionalDisconnect s); [discriminate|].
  destruct (ws s) as [k|]; [|discriminate].
  apply Nat.eqb_eq in Hws. subst k.
  destruct (phaseOf sock s) as [[| [] |]|]; try discriminate.
  destruct (retryTimer s); [discriminate|].
  destruct (retryTimers s); [|discriminate].
  apply Z.eqb_eq in Hrc.
  repeat split; auto.
  intros x Hx. rewrite forallb_forall in Hct. apply has_In. auto.
Qed.

(** The 'close' event of the established socket. *)
Lemma closure_eq (sock : nat) (s : CDPClient) :
  established sock s = true ->
  deliver (WsClose sock) s
  = scheduleReconnect
      (set_callbacks []
         (set_callTimers []
            (notify (_onDisconnect s) EOnDisconnect
               (set_trace (rev (map (fun id => ECallRejected id ConnectionClosed)
                                    (callbacks s)) ++
                           trace (log LogClosed s))
               (set_ws None
                  (set_attempts
                     (updateAt sock
                        (fun t => mkAttempt (a_waiter t) (a_settled t) (Sock CLOSED))
                        (attempts s)) s)))))).
Proof.
  intros He.
  destruct (established_inv sock s He) as (Hd & Hi & Hw & Hph & Hfi & Hsk & Hrc & Hrt & Hrts & Hct).
  unfold deliver. rewrite Hph. unfold wsOnClose.
  rewrite rejectAllPending_eq, !notify_eq, !log_eq. simpl.
  rewrite Hd, Hi. simpl. rewrite (timers_cleared _ _ Hct).
  apply (f_equal scheduleReconnect).
  destruct_client s; reflexivity.
Qed.

Lemma delays_rejected (r : rejectReason) (l : list Z) (t : list effect) :
  delaysNewestFirst (rev (map (fun id => ECallRejected id r) l) ++ t)
  = delaysNewestFirst t.
Proof.
  rewrite <- map_rev. induction (rev l) as [|a k IH]; simpl; auto.
Qed.

Lemma failed_rejected (r : rejectReason) (l : list Z) (t : list effect) :
  reconnectFailedCalls (rev (map (fun id => ECallRejected id r) l) ++ t)
  = reconnectFailedCalls t.
Proof.
  unfold reconnectFailedCalls.
  rewrite <- map_rev. induction (rev l) as [|a k IH]; simpl; auto.
Qed.

Lemma failed_cons (e : effect) (t : list effect) :
  reconnectFailedCalls (e :: t)
  = ((if isReconnectFailed e then 1 else 0) + reconnectFailedCalls t)%nat.
Proof. unfold reconnectFailedCalls. simpl. destruct (isReconnectFailed e); reflexivity. Qed.

Lemma closure_next (sock : nat) (s : CDPClient) :
  established sock s = true ->
  0 < maxRetries (options s) ->
  let s' := deliver (WsClose sock) s in
  awaitingRetry s' = true /\
  retryCount s' = 1 /\
  options s' = options s /\
  _onReconnectFailed s' = _onReconnectFailed s /\
  delaysNewestFirst (trace s')
    = reconnectDelay (options s) 0 :: delaysNewestFirst (trace s) /\
  reconnectFailedCalls (trace s') = reconnectFailedCalls (trace s).
Proof.
  intros He Hlt. cbv zeta. rewrite (closure_eq sock s He).
  destruct (established_inv sock s He) as (Hd & Hi & Hw & Hph & Hfi & Hsk & Hrc & Hrt & Hrts & Hct).
  rewrite scheduleReconnect_arms
    by (rewrite ?log_eq, ?notify_eq; simpl; auto; lia).
  rewrite !log_eq, !notify_eq.
  unfold awaitingRetry; simpl.
  rewrite Hd, Hi, Hrts, Hrc; simpl.
  rewrite Nat.eqb_refl, inert_updateAt; simpl; auto.
  - destruct (_onLog s), (_onDisconnect s); simpl;
      rewrite ?failed_cons, ?delays_rejected, ?failed_rejected, ?failed_cons;
      simpl; repeat split; reflexivity.
Qed.

Lemma closure_last (sock : nat) (s : CDPClient) :
  established sock s = true ->
  maxRetries (options s) <= 0 ->
  let s' := deliver (WsClose sock) s in
  quiet s' = true /\ ws s' = None /\ retryTimer s' = None /\
  isDisposed s' = false /\
  retryCount s' = 0 /\
  options s' = options s /\
  delaysNewestFirst (trace s') = delaysNewestFirst (trace s) /\
  reconnectFailedCalls (trace s')
    = ((if _onReconnectFailed s then 1 else 0) + reconnectFailedCalls (trace s))%nat.
Proof.
  intros He Hle. cbv zeta. rewrite (closure_eq sock s He).
  destruct (established_inv sock s He) as (Hd & Hi & Hw & Hph & Hfi & Hsk & Hrc & Hrt & Hrts & Hct).
  rewrite scheduleReconnect_gives_up
    by (rewrite ?log_eq, ?notify_eq; simpl; auto; lia).
  rewrite !log_eq, !notify_eq.
  unfold quiet; simpl.
  rewrite Hd, Hrts, Hrc, Hrt; simpl.
  rewrite inert_updateAt; simpl; auto.
  destruct (_onLog s), (_onDisconnect s), (_onReconnectFailed s); simpl;
    rewrite ?failed_cons, ?delays_rejected, ?failed_rejected, ?failed_cons;
    simpl; repeat split; reflexivity.
Qed.

(** From the first armed timer to exhaustion: the attempts that are left
    all fail. *)
Lemma retry_chain (fs : list failure) : forall s : CDPClient,
  awaitingRetry s = true ->
  1 <= retryCount s <= maxRetries (options s) ->
  List.length fs = Z.to_nat (maxRetries (options s) - retryCount s + 1) ->
  let s' := failedReconnects fs s in
  quiet s' = true /\ ws s' = None /\ retryTimer s' = None /\
  isDisposed s' = false /\
  retryCount s' = maxRetries (options s) /\
  options s' = options s /\
  delaysNewestFirst (trace s')
    = rev (reconnectDelays (options s) (retryCount s) (pred (List.length fs)))
      ++ delaysNewestFirst (trace s) /\
  reconnectFailedCalls (trace s')
    = ((if _onReconnectFailed s then 1 else 0) + reconnectFailedCalls (trace s))%nat.
Proof.
  induction fs as [|f r IH]; intros s Ha Hk Hlen; cbv zeta.
  - simpl in Hlen. lia.
  - unfold failedReconnects. cbn [fold_left]. fold (failedReconnects r (failedReconnect f s)).
    destruct (Z.eq_dec (retryCount s) (maxRetries (options s))) as [Heq|Hne].
    + assert (r = []) as ->.
      { simpl in Hlen. rewrite Heq in Hlen.
        replace (maxRetries (options s) - maxRetries (options s) + 1) with 1 in Hlen by lia.
        destruct r; [reflexivity | simpl in Hlen; discriminate]. }
      unfold failedReconnects; cbn [fold_left].
      destruct (failedReconnect_last f s Ha) as (H1 & H2 & H3 & H4 & H5 & H6 & H7 & H8); [lia|].
      rewrite H5. repeat split; auto.
    + destruct (failedReconnect_next f s Ha) as (H1 & H2 & H3 & H4 & H5 & H6); [lia|].
      assert (Hlen' : List.length r
                = Z.to_nat (maxRetries (options (failedReconnect f s))
                            - retryCount (failedReconnect f s) + 1)).
      { rewrite H2, H3. simpl in Hlen. lia. }
      destruct (IH (failedReconnect f s) H1) as (I1 & I2 & I3 & I4 & I5 & I6 & I7 & I8);
        [rewrite H2, H3; lia | exact Hlen' |].
      rewrite I7, I8, H2, H3, H4, H5, H6, I5, I6, H3.
      repeat split; auto.
      destruct r as [|f' r']; [simpl in Hlen'; rewrite H2, H3 in Hlen'; lia|].
      simpl. rewrite <- app_assoc. reflexivity.
Qed.


(** In a quiet state the host has nothing to deliver. *)
Lemma quiet_phase (a : nat) (s : CDPClient) :
  quiet s = true ->
  phaseOf a s = None \/ phaseOf a s = Some NoSocket \/ phaseOf a s = Some (Sock CLOSED).
Proof.
  unfold quiet, phaseOf. intros H.
  apply andb_true_iff in H; destruct H as [H _].
  apply andb_true_iff in H; destruct H as [H _].
  destruct (nth_error (attempts s) a) as [t|] eqn:Hn; [|now left].
  rewrite forallb_forall in H. specialize (H t (nth_error_In _ _ Hn)).
  unfold inert in H. simpl. destruct (a_phase t) as [| [] |]; try discriminate; auto.
Qed.

Lemma quiet_deliver (h : hostEvent) (s : CDPClient) :
  quiet s = true -> deliver h s = s.
Proof.
  intros Hq.
  assert (Hq' := Hq). unfold quiet in Hq'.
  apply andb_true_iff in Hq'; destruct Hq' as [Hq' Hct].
  apply andb_true_iff in Hq'; destruct Hq' as [_ Hrt].
  destruct h as [a e|a|a|a raw|a|a|k|id]; unfold deliver;
    try (destruct (quiet_phase a s Hq) as [-> | [-> | ->]]; reflexivity).
  - unfold retryTimerArmed. destruct (retryTimers s); [reflexivity | discriminate].
  - destruct (callTimers s); [reflexivity | discriminate].
Qed.

Lemma quiet_forever (hs : list hostEvent) (s : CDPClient) :
  quiet s = true -> fold_left (fun s h => deliver h s) hs s = s.
Proof.
  intros Hq. induction hs as [|h r IH]; simpl; [reflexivity|].
  now rewrite (quiet_deliver h s Hq).
Qed.

Lemma reconnectDelays_length (o : CDPClientOptions) (m : nat) : forall k,
  List.length (reconnectDelays o k m) = m.
Proof. induction m; intros k; simpl; auto. Qed.

(** Under the bounds on the options the delay that the code computes is
    the one of the design. *)
Lemma reconnectDelay_backoff (o : CDPClientOptions) (n : Z) :
  0 <= n ->
  0 <= initialRetryDelay o ->
  maxRetryDelay o < doubleLimit ->
  (initialRetryDelay o = 0 -> n < 1024) ->
  reconnectDelay o n = Finite (backoff o n).
Proof.
  intros Hn Hi Hm Hz. unfold reconnectDelay, backoff, pow2, times, mathMin.
  assert (Hp : 0 < 2 ^ n) by (apply Z.pow_pos_nonneg; lia).
  destruct (Z.ltb_spec n 1024) as [Hlt|Hge].
  - cbv zeta.
    destruct (Z.ltb_spec (Z.abs (initialRetryDelay o * 2 ^ n)) doubleLimit) as [Hs|Hb];
      [reflexivity|].
    assert (Hz' : 0 <= initialRetryDelay o * 2 ^ n) by nia.
    rewrite Z.abs_eq in Hb by exact Hz'.
    destruct (Z.ltb_spec 0 (initialRetryDelay o * 2 ^ n)) as [_|Hle].
    + f_equal. symmetry. apply Z.min_r. lia.
    + exfalso. unfold doubleLimit in Hb.
      assert (0 < 2 ^ 1024) by (apply Z.pow_pos_nonneg; lia). lia.
  - assert (Hne : initialRetryDelay o <> 0) by (intros E; specialize (Hz E); lia).
    destruct (Z.eqb_spec (initialRetryDelay o) 0) as [E|_]; [contradiction|].
    destruct (Z.ltb_spec 0 (initialRetryDelay o)) as [Hpos|Hneg]; [|lia].
    f_equal. symmetry. apply Z.min_r.
    assert (Hmono : 2 ^ 1024 <= 2 ^ n) by (apply Z.pow_le_mono_r; lia).
    unfold doubleLimit in Hm. nia.
Qed.

Lemma reconnectDelays_formula (o : CDPClientOptions) (m : nat) : forall a : nat,
  regularDelays o ->
  (Z.of_nat a + Z.of_nat m <= Z.max 0 (maxRetries o)) ->
  reconnectDelays o (Z.of_nat a) m
  = map (fun n => Finite (Z.min (initialRetryDelay o * 2 ^ Z.of_nat n) (maxRetryDelay o)))
        (seq a m).
Proof.
  induction m as [|m IH]; intros a Hr Hb; simpl; [reflexivity|].
  destruct Hr as (Hi & Hm & Hz).
  f_equal.
  - apply reconnectDelay_backoff; try assumption; lia.
  - replace (Z.of_nat a + 1) with (Z.of_nat (S a)) by lia.
    apply IH; [repeat split; assumption | lia].
Qed.

(** The edge of the bounds: with a zero initial delay the attempt 1024
    multiplies zero by [Infinity]. *)
Lemma reconnectDelay_out_of_range :
  reconnectDelay (mkOptions 1030 0 30000 5000) 1024 = NaN /\
  reconnectDelay (mkOptions 1030 0 30000 5000) 1023 = Finite 0 /\
  reconnectDelay (mkOptions 1030 1000 30000 5000) 1024 = Finite 30000.
Proof. vm_compute. repeat split. Qed.

(** An established connection closes and every reconnection attempt
    fails. *)
Lemma exhaustion (sock : nat) (s : CDPClient) (fs : list failure) :
  established sock s = true ->
  List.length fs = Z.to_nat (maxRetries (options s)) ->
  let s' := failedReconnects fs (deliver (WsClose sock) s) in
  quiet s' = true /\ ws s' = None /\ retryTimer s' = None /\
  isDisposed s' = false /\
  maxRetries (options s') <= retryCount s' /\
  options s' = options s /\
  delaysNewestFirst (trace s')
    = rev (reconnectDelays (options s) 0 (List.length fs)) ++ delaysNewestFirst (trace s) /\
  reconnectFailedCalls (trace s')
    = ((if _onReconnectFailed s then 1 else 0) + reconnectFailedCalls (trace s))%nat.
Proof.
  intros He Hlen. cbv zeta.
  destruct (Z_le_gt_dec (maxRetries (options s)) 0) as [Hle|Hgt].
  - assert (fs = []) as ->.
    { destruct fs; [reflexivity|]. simpl in Hlen. lia. }
    unfold failedReconnects; cbn [fold_left].
    destruct (closure_last sock s He Hle) as (H1 & H2 & H3 & H4 & H5 & H6 & H7 & H8).
    rewrite H5, H6. repeat split; auto.
  - destruct (closure_next sock s He) as (H1 & H2 & H3 & H4 & H5 & H6); [lia|].
    destruct (retry_chain fs (deliver (WsClose sock) s) H1)
      as (I1 & I2 & I3 & I4 & I5 & I6 & I7 & I8);
      [rewrite H2, H3; lia | rewrite H2, H3, Hlen; f_equal; lia |].
    rewrite I5, I6, I7, I8, H2, H3, H4, H5, H6.
    repeat split; auto; try lia.
    destruct fs as [|f r]; [simpl in Hlen; lia|].
    simpl. rewrite <- app_assoc. reflexivity.
Qed.

(** [connect] on a client that is not disposed, with a valid port. *)
Lemma connect_starts (p : Z) (s : CDPClient) :
  isDisposed s = false -> 0 < p <= 65535 ->
  connect p s
  = (inr (List.length (attempts s)),
     emit (EHttpGet (List.length (attempts s)) p)
       (set_attempts (attempts s ++ [mkAttempt Initial false Discovering])
          (set_retryCount 0 (set_intentionalDisconnect false (set_port p s))))).
Proof.
  intros Hd Hp. unfold connect. rewrite Hd.
  destruct (Z.leb_spec p 0); [lia|]. destruct (Z.gtb_spec p 65535); [lia|].
  simpl. unfold doConnect. simpl. rewrite Hd. reflexivity.
Qed.




(** ** The bookkeeping of calls *)

Lemma created_filter (t : list effect) : created (filter isCallEffect t) = created t.
Proof. induction t as [|e t IH]; simpl; [reflexivity|]. destruct e; simpl; congruence. Qed.

Lemma settlements_filter (id : Z) (t : list effect) :
  settlements id (filter isCallEffect t) = settlements id t.
Proof.
  unfold settlements. induction t as [|e t IH]; simpl; [reflexivity|].
  destruct e; simpl; try assumption; destruct (Z.eqb _ _); simpl; congruence.
Qed.

(** Field updates and effects that leave the bookkeeping alone. *)
Lemma calls_set_ws v s : calls (set_ws v s) = calls s.
Proof. reflexivity. Qed.
Lemma calls_set_port v s : calls (set_port v s) = calls s.
Proof. reflexivity. Qed.
Lemma calls_set_retryCount v s : calls (set_retryCount v s) = calls s.
Proof. reflexivity. Qed.
Lemma calls_set_retryTimer v s : calls (set_retryTimer v s) = calls s.
Proof. reflexivity. Qed.
Lemma calls_set_intentionalDisconnect v s : calls (set_intentionalDisconnect v s) = calls s.
Proof. reflexivity. Qed.
Lemma calls_set_isDisposed v s : calls (set_isDisposed v s) = calls s.
Proof. reflexivity. Qed.
Lemma calls_set_onDisconnect v s : calls (set_onDisconnect v s) = calls s.
Proof. reflexivity. Qed.
Lemma calls_set_onReconnect v s : calls (set_onReconnect v s) = calls s.
Proof. reflexivity. Qed.
Lemma calls_set_onReconnectFailed v s : calls (set_onReconnectFailed v s) = calls s.
Proof. reflexivity. Qed.
Lemma calls_set_onLog v s : calls (set_onLog v s) = calls s.
Proof. reflexivity. Qed.
Lemma calls_set_attempts v s : calls (set_attempts v s) = calls s.
Proof. reflexivity. Qed.
Lemma calls_set_retryTimers v s : calls (set_retryTimers v s) = calls s.
Proof. reflexivity. Qed.
Lemma calls_set_nextTimer v s : calls (set_nextTimer v s) = calls s.
Proof. reflexivity. Qed.

Lemma calls_emit e s : isCallEffect e = false -> calls (emit e s) = calls s.
Proof. intros He. unfold calls, emit. simpl. now rewrite He. Qed.

Lemma calls_notify b e s : isCallEffect e = false -> calls (notify b e s) = calls s.
Proof. intros He. destruct b; [now apply calls_emit | reflexivity]. Qed.

Lemma calls_log m s : calls (log m s) = calls s.
Proof. now apply calls_notify. Qed.

Lemma calls_setPhase a p s : calls (setPhase a p s) = calls s.
Proof. reflexivity. Qed.
Lemma calls_markSettled a s : calls (markSettled a s) = calls s.
Proof. reflexivity. Qed.
Lemma calls_clearRetryTimer h s : calls (clearRetryTimer h s) = calls s.
Proof. reflexivity. Qed.

Create Rewrite HintDb calls_frame.
#[local] Hint Rewrite calls_set_ws calls_set_port calls_set_retryCount calls_set_retryTimer
  calls_set_intentionalDisconnect calls_set_isDisposed calls_set_onDisconnect
  calls_set_onReconnect calls_set_onReconnectFailed calls_set_onLog calls_set_attempts
  calls_set_retryTimers calls_set_nextTimer calls_log calls_setPhase calls_markSettled
  calls_clearRetryTimer : calls_frame.
#[local] Hint Rewrite calls_emit calls_notify using reflexivity : calls_frame.

Ltac frame :=
  repeat match goal with
         | |- context [if ?b then _ else _] => destruct b
         | |- context [match ?x with _ => _ end] => destruct x
         end;
  simpl; autorewrite with calls_frame; try reflexivity.

Lemma calls_scheduleReconnect s : calls (scheduleReconnect s) = calls s.
Proof. unfold scheduleReconnect. frame. Qed.

Lemma calls_resolveConnect a s : calls (resolveConnect a s) = calls s.
Proof. unfold resolveConnect. frame. Qed.

Lemma calls_rejectConnect a e s : calls (rejectConnect a e s) = calls s.
Proof.
  unfold rejectConnect.
  destruct (nth_error (attempts s) a) as [t|]; [|reflexivity].
  destruct (a_settled t); [reflexivity|].
  destruct (a_waiter t); [now rewrite calls_emit | now rewrite calls_scheduleReconnect].
Qed.

Lemma calls_doConnect w s : calls (snd (doConnect w s)) = calls s.
Proof.
  unfold doConnect. destruct (isDisposed s); simpl.
  - now rewrite calls_rejectConnect.
  - now rewrite calls_emit.
Qed.

Lemma calls_connect p s : calls (snd (connect p s)) = calls s.
Proof.
  unfold connect. destruct (isDisposed s); [reflexivity|].
  destruct ((p <=? 0) || (p >? 65535)); [reflexivity|].
  match goal with |- context [doConnect ?w ?t] =>
    generalize (calls_doConnect w t); destruct (doConnect w t) as [a s1] end.
  simpl. intros ->. reflexivity.
Qed.

Lemma calls_wsClose sock s : calls (wsClose sock s) = calls s.
Proof.
  unfold wsClose.
  destruct (readyState sock (emit (EWsClose sock) s));
    autorewrite with calls_frame; reflexivity.
Qed.

Lemma has_false (id : Z) (l : list Z) : has id l = false <-> ~ In id l.
Proof. rewrite <- has_In. destruct (has id l); intuition congruence. Qed.

Lemma has_dec (id : Z) (l : list Z) : {In id l} + {~ In id l}.
Proof.
  destruct (has id l) eqn:H; [left; now apply has_In | right; now apply has_false].
Qed.

Lemma settlements_cons (id : Z) (e : effect) (t : list effect) :
  settlements id (e :: t)
  = ((if settles id e then 1 else 0) + settlements id t)%nat.
Proof. unfold settlements. simpl. destruct (settles id e); reflexivity. Qed.

Lemma created_rejected (r : rejectReason) (l : list Z) (t : list effect) :
  created (rev (map (fun id => ECallRejected id r) l) ++ t) = created t.
Proof. rewrite <- map_rev. induction (rev l); simpl; auto. Qed.

Lemma filter_rejected (r : rejectReason) (l : list Z) (t : list effect) :
  filter isCallEffect (rev (map (fun id => ECallRejected id r) l) ++ t)
  = rev (map (fun id => ECallRejected id r) l) ++ filter isCallEffect t.
Proof. rewrite <- map_rev. induction (rev l); simpl; [reflexivity | now f_equal]. Qed.

Lemma settlements_rejected (r : rejectReason) (id : Z) (l : list Z) (t : list effect) :
  NoDup l ->
  settlements id (rev (map (fun k => ECallRejected k r) l) ++ t)
  = ((if has id l then 1 else 0) + settlements id t)%nat.
Proof.
  intros Hnd. unfold settlements.
  rewrite filter_app, length_app, <- map_rev. f_equal.
  assert (Hrev : NoDup (rev l)) by (apply NoDup_rev; assumption).
  assert (Hhas : has id l = has id (rev l)).
  { destruct (has_dec id l) as [Hin|Hin].
    - rewrite (proj2 (has_In id l) Hin). symmetry. apply has_In. now apply in_rev in Hin.
    - rewrite (proj2 (has_false id l) Hin). symmetry. apply has_false.
      intros H. apply Hin. now apply in_rev. }
  rewrite Hhas. clear Hhas Hnd.
  induction (rev l) as [|a k IH]; [reflexivity|].
  inversion Hrev as [|? ? Hna Hk]; subst.
  specialize (IH Hk).
  cbn [map filter settles].
  change (has id (a :: k)) with ((id =? a) || has id k).
  rewrite (Z.eqb_sym id a).
  destruct (Z.eqb_spec a id) as [->|Hne]; cbn [orb].
  - cbn [List.length]. rewrite IH, (proj2 (has_false id k) Hna). reflexivity.
  - exact IH.
Qed.

Lemma has_cons (id a : Z) (l : list Z) : has id (a :: l) = (id =? a) || has id l.
Proof. reflexivity. Qed.

Lemma has_snoc (id a : Z) (l : list Z) : has id (l ++ [a]) = has id l || (id =? a).
Proof. unfold has. rewrite existsb_app. simpl. now rewrite orb_false_r. Qed.

(** [send] registers a call. *)
Lemma callsOk_register (mid : Z) (cbs cts : list Z) (t : list effect) :
  callsOk (mid, cbs, cts, t) ->
  callsOk (mid + 1, mapSet mid cbs, cts ++ [mid], ECallCreated mid :: t).
Proof.
  intros (Hnd & Hlt & Hcb & Hsub & Hset & Htm).
  assert (Hfresh : ~ In mid (created t)) by (intros H; apply Hlt in H; lia).
  assert (Hnew : ~ In mid cbs) by (intros H; apply Hfresh, Hsub, H).
  unfold mapSet. rewrite (proj2 (has_false mid cbs) Hnew).
  unfold callsOk. cbn [created].
  repeat split.
  - constructor; assumption.
  - intros id [<-|H]; [lia | apply Hlt in H; lia].
  - apply NoDup_app_remove_l with (l := []). simpl.
    apply NoDup_rev in Hcb. rewrite <- (rev_involutive (cbs ++ [mid])).
    apply NoDup_rev. rewrite rev_app_distr. simpl. constructor; [|assumption].
    intros H. apply Hnew. now apply in_rev.
  - intros id H. apply in_app_or in H. destruct H as [H|[<-|[]]]; [right; auto | now left].
  - intros id. rewrite settlements_cons. cbn [settles].
    rewrite Hset, has_cons, has_snoc.
    destruct (Z.eqb_spec id mid) as [->|Hne]; simpl.
    + rewrite (proj2 (has_false mid (created t)) Hfresh). simpl.
      rewrite orb_true_r. reflexivity.
    + rewrite orb_false_r. reflexivity.
  - intros id H. apply in_app_or in H. apply in_or_app.
    destruct H as [H|H]; [left; auto | now right].
Qed.

(** A registered call is resolved or rejected and leaves the table. *)
Lemma callsOk_settle (id mid : Z) (cbs cts cts' : list Z) (e : effect) (t : list effect) :
  callsOk (mid, cbs, cts, t) ->
  In id cbs ->
  (forall k, settles k e = Z.eqb id k) ->
  created (e :: t) = created t ->
  (forall x, In x (mapDelete id cbs) -> In x cts') ->
  callsOk (mid, mapDelete id cbs, cts', e :: t).
Proof.
  intros (Hnd & Hlt & Hcb & Hsub & Hset & Htm) Hin He Hcr Hcts.
  unfold callsOk. rewrite Hcr.
  repeat split; auto.
  - unfold mapDelete. now apply NoDup_filter.
  - intros k H. apply mapDelete_In in H. apply Hsub, H.
  - intros k. rewrite settlements_cons, He, Hset.
    destruct (Z.eqb_spec id k) as [<-|Hne].
    + rewrite (proj2 (has_In id cbs) Hin).
      rewrite (proj2 (has_In id (created t)) (Hsub id Hin)).
      assert (Hgone : has id (mapDelete id cbs) = false).
      { apply has_false. intros H. apply mapDelete_In in H. now destruct H. }
      rewrite Hgone. reflexivity.
    + assert (Hsame : has k (mapDelete id cbs) = has k cbs).
      { destruct (has_dec k cbs) as [H|H].
        - rewrite (proj2 (has_In k cbs) H). apply has_In, mapDelete_In. split; congruence.
        - rewrite (proj2 (has_false k cbs) H). apply has_false.
          intros H'. apply mapDelete_In in H'. now destruct H'. }
      rewrite Hsame. reflexivity.
Qed.

(** A timer of a call that is not pending goes away. *)
Lemma callsOk_timer_gone (id mid : Z) (cbs cts : list Z) (t : list effect) :
  callsOk (mid, cbs, cts, t) ->
  ~ In id cbs ->
  callsOk (mid, cbs, mapDelete id cts, t).
Proof.
  intros (Hnd & Hlt & Hcb & Hsub & Hset & Htm) Hin.
  repeat split; auto.
  intros k H. apply mapDelete_In. split; [auto | congruence].
Qed.

(** [rejectAllPending] empties the table. *)
Lemma callsOk_rejectAll (r : rejectReason) (mid : Z) (cbs cts cts' : list Z) (t : list effect) :
  callsOk (mid, cbs, cts, t) ->
  callsOk (mid, [], cts', rev (map (fun id => ECallRejected id r) cbs) ++ t).
Proof.
  intros (Hnd & Hlt & Hcb & Hsub & Hset & Htm).
  unfold callsOk. rewrite created_rejected.
  repeat split; auto.
  - constructor.
  - intros id [].
  - intros id. rewrite (settlements_rejected r id cbs t Hcb), Hset.
    destruct (has_dec id cbs) as [H|H].
    + rewrite (proj2 (has_In id cbs) H).
      rewrite (proj2 (has_In id (created t)) (Hsub id H)). reflexivity.
    + rewrite (proj2 (has_false id cbs) H). simpl.
      rewrite andb_true_r. reflexivity.
  - intros id [].
Qed.

Arguments callsOk : simpl never.

Lemma calls_rejectAllPending (r : rejectReason) (s : CDPClient) :
  calls (rejectAllPending r s)
  = (messageId s, [],
     fold_left (fun ct id => mapDelete id ct) (callbacks s) (callTimers s),
     rev (map (fun id => ECallRejected id r) (callbacks s))
     ++ filter isCallEffect (trace s)).
Proof.
  rewrite rejectAllPending_eq. unfold calls. simpl. now rewrite filter_rejected.
Qed.

Lemma ok_rejectAllPending (r : rejectReason) (s s' : CDPClient) :
  calls s' = calls s ->
  callsOk (calls s) -> callsOk (calls (rejectAllPending r s')).
Proof.
  intros Heq Hok. rewrite calls_rejectAllPending.
  unfold calls in Heq. inversion Heq as [[H1 H2 H3 H4]].
  rewrite H1, H2, H3, H4. now apply callsOk_rejectAll with (cts := callTimers s).
Qed.

Lemma ok_send (m : string) (throws : bool) (s : CDPClient) :
  callsOk (calls s) -> callsOk (calls (snd (send m throws s))).
Proof.
  intros Hok. unfold send.
  destruct (isDisposed s); [exact Hok|].
  destruct (String.eqb m ""); [exact Hok|].
  destruct (ws s) as [sock|]; [|exact Hok].
  destruct (negb _); [exact Hok|].
  assert (Hreg := callsOk_register _ _ _ _ Hok).
  destruct throws; cbn [snd].
  - assert (Hin : In (messageId s) (mapSet (messageId s) (callbacks s))).
    { unfold mapSet. destruct (has (messageId s) (callbacks s)) eqn:H.
      - now apply has_In.
      - apply in_or_app. right. now left. }
    cbn [callbacks set_callbacks set_callTimers emit set_trace set_messageId].
    rewrite (proj2 (has_In _ _) Hin).
    unfold calls. simpl.
    refine (callsOk_settle _ _ _ _ _ _ _ Hreg Hin _ _ _).
    + intros k. reflexivity.
    + reflexivity.
    + intros x Hx. apply mapDelete_In in Hx. destruct Hx as [Hx Hne].
      apply mapDelete_In. split; [|assumption].
      destruct Hreg as (_ & _ & _ & _ & _ & Htm). apply Htm, Hx.
  - exact Hreg.
Qed.

Lemma ok_handleMessage (raw : RawData) (s : CDPClient) :
  callsOk (calls s) -> callsOk (calls (handleMessage raw s)).
Proof.
  intros Hok. unfold handleMessage.
  destruct raw as [|[|[id|] err v]|]; try (rewrite calls_log; exact Hok); try exact Hok.
  destruct (has id (callbacks s)) eqn:Hin; [|exact Hok].
  apply has_In in Hin.
  assert (Htm : forall x, In x (mapDelete id (callbacks s)) ->
                          In x (mapDelete id (callTimers s))).
  { intros x Hx. apply mapDelete_In in Hx. destruct Hx as [Hx Hne].
    apply mapDelete_In. split; [|assumption].
    destruct Hok as (_ & _ & _ & _ & _ & H). apply H, Hx. }
  destruct err; unfold calls; simpl;
    (refine (callsOk_settle _ _ _ _ _ _ _ Hok Hin _ _ Htm);
     [intros k; reflexivity | reflexivity]).
Qed.

Lemma ok_callTimer (id : Z) (s : CDPClient) :
  callsOk (calls s) ->
  callsOk (calls (callTimeoutCallback id (clearCallTimer id s))).
Proof.
  intros Hok. unfold callTimeoutCallback.
  cbn [callbacks clearCallTimer set_callTimers].
  destruct (has id (callbacks s)) eqn:Hin.
  - apply has_In in Hin. unfold calls; simpl.
    refine (callsOk_settle _ _ _ _ _ _ _ Hok Hin _ _ _).
    + intros k. reflexivity.
    + reflexivity.
    + intros x Hx. apply mapDelete_In in Hx. destruct Hx as [Hx Hne].
      apply mapDelete_In. split; [|assumption].
      destruct Hok as (_ & _ & _ & _ & _ & H). apply H, Hx.
  - apply has_false in Hin. unfold calls; simpl.
    now apply callsOk_timer_gone.
Qed.

Lemma ok_wsOnClose (s : CDPClient) :
  callsOk (calls s) -> callsOk (calls (wsOnClose s)).
Proof.
  intros Hok. unfold wsOnClose.
  match goal with |- context [rejectAllPending ?r ?t] =>
    assert (H : callsOk (calls (rejectAllPending r t)))
      by (apply (ok_rejectAllPending r s); [now autorewrite with calls_frame | exact Hok]);
    set (s3 := rejectAllPending r t) in *
  end.
  cbv zeta.
  destruct (negb _ && negb _);
    rewrite ?calls_scheduleReconnect, calls_notify by reflexivity; exact H.
Qed.

Lemma ok_disconnect (s : CDPClient) :
  callsOk (calls s) -> callsOk (calls (disconnect s)).
Proof.
  intros Hok. unfold disconnect.
  destruct (isDisposed s); [exact Hok|].
  match goal with |- context [rejectAllPending ?r ?t] =>
    assert (H : callsOk (calls (rejectAllPending r t)))
      by (apply (ok_rejectAllPending r s);
          [match goal with |- context [match ?x with _ => _ end] => destruct x end;
           now autorewrite with calls_frame | exact Hok]);
    set (s3 := rejectAllPending r t) in *
  end.
  cbv zeta. destruct (ws s3); [|exact H].
  now rewrite calls_set_ws, calls_wsClose.
Qed.

Lemma ok_dispose (s : CDPClient) :
  callsOk (calls s) -> callsOk (calls (dispose s)).
Proof.
  intros Hok. unfold dispose.
  destruct (isDisposed s); [exact Hok|].
  cbv zeta. autorewrite with calls_frame.
  now apply ok_disconnect.
Qed.

Lemma ok_step (e : event) (s : CDPClient) :
  callsOk (calls s) -> callsOk (calls (step e s)).
Proof.
  intros Hok. destruct e as [c|h].
  - destruct c; simpl.
    + now rewrite calls_connect.
    + now apply ok_send.
    + now apply ok_disconnect.
    + now apply ok_dispose.
    + exact Hok.
    + exact Hok.
    + exact Hok.
    + exact Hok.
  - destruct h as [a err|a|a|a raw|a|a|k|id]; simpl.
    + destruct (phaseOf a s) as [[| |]|]; try exact Hok.
      now rewrite calls_rejectConnect.
    + destruct (phaseOf a s) as [[| |]|]; exact Hok.
    + destruct (phaseOf a s) as [[| [] |]|]; try exact Hok.
      unfold wsOnOpen. cbv zeta. rewrite calls_resolveConnect.
      autorewrite with calls_frame. exact Hok.
    + destruct (phaseOf a s) as [[| [] |]|]; try exact Hok.
      now apply ok_handleMessage.
    + destruct (phaseOf a s) as [[| [] |]|]; try exact Hok;
        unfold wsOnError; now rewrite calls_log.
    + destruct (phaseOf a s) as [[| [] |]|]; try exact Hok;
        now apply ok_wsOnClose.
    + destruct (retryTimerArmed k s); [|exact Hok].
      unfold retryTimerCallback. cbv zeta.
      match goal with |- context [if ?b then _ else _] => destruct b end.
      * exact Hok.
      * now rewrite calls_doConnect.
    + destruct (has id (callTimers s)); [|exact Hok].
      now apply ok_callTimer.
Qed.

Lemma ok_newClient (o : CDPClientOptions) : callsOk (calls (newClient o)).
Proof.
  unfold calls, callsOk. simpl. repeat split; try constructor; intros id []; auto.
Qed.

Lemma ok_run (evs : list event) : forall s : CDPClient,
  callsOk (calls s) -> callsOk (calls (run evs s)).
Proof.
  induction evs as [|e r IH]; intros s Hok; simpl; [exact Hok|].
  apply IH, ok_step, Hok.
Qed.

Lemma send_registers (m : string) (throws : bool) (s s' : CDPClient) (id : Z) :
  send m throws s = (inr id, s') ->
  id = messageId s /\ created (trace s') = id :: created (trace s).
Proof.
  unfold send.
  destruct (isDisposed s); [discriminate|].
  destruct (String.eqb m ""); [discriminate|].
  destruct (ws s) as [sock|]; [|discriminate].
  destruct (negb _); [discriminate|].
  destruct throws; intros H; inversion H; subst; clear H; split; try reflexivity.
  cbn [callbacks set_callbacks set_callTimers emit set_trace set_messageId].
  destruct (has _ _); reflexivity.
Qed.

(** C3.  In every state that a client reaches from [new CDPClient], by
    whatever calls of its API and events of the host: the ids that [send]
    has given out are pairwise distinct, and the id of a further [send] is
    none of them; every call that was registered is either still in the
    table -- then its promise was settled zero times, its timeout timer is
    armed, and the firing of that timer settles it -- or it has left the
    table and its promise was settled exactly once (by the matching
    response, the timeout, the failure of [ws.send] or a bulk rejection),
    never twice. *)
Theorem calls_settle_exactly_once (o : CDPClientOptions) (evs : list event) :
  let s := run evs (newClient o) in
  NoDup (created (trace s)) /\
  (forall m throws id s',
      send m throws s = (inr id, s') ->
      ~ In id (created (trace s)) /\ created (trace s') = id :: created (trace s)) /\
  (forall id, In id (created (trace s)) ->
      (In id (callbacks s) /\ settlements id (trace s) = 0%nat /\
       In id (callTimers s) /\
       settlements id (trace (deliver (CallTimerFires id) s)) = 1%nat)
      \/ (~ In id (callbacks s) /\ settlements id (trace s) = 1%nat)).
Proof.
  cbv zeta. set (s := run evs (newClient o)).
  assert (Hok : callsOk (calls s)) by (apply ok_run, ok_newClient).
  clearbody s.
  unfold calls, callsOk in Hok. rewrite created_filter in Hok.
  destruct Hok as (Hnd & Hlt & Hcb & Hsub & Hset & Htm).
  split; [exact Hnd|]. split.
  - intros m throws id s' Hs.
    destruct (send_registers m throws s s' id Hs) as [-> Hc].
    split; [|exact Hc]. intros H. apply Hlt in H. lia.
  - intros id Hid. specialize (Hset id). rewrite settlements_filter in Hset.
    rewrite (proj2 (has_In id _) Hid) in Hset.
    destruct (has_dec id (callbacks s)) as [Hin|Hout].
    + left. rewrite (proj2 (has_In id _) Hin) in Hset.
      split; [exact Hin|]. split; [exact Hset|]. split; [apply Htm, Hin|].
      unfold deliver. rewrite (proj2 (has_In id _) (Htm id Hin)).
      unfold callTimeoutCallback.
      cbn [callbacks clearCallTimer set_callTimers].
      rewrite (proj2 (has_In id _) Hin).
      cbn [trace emit set_trace set_callbacks set_callTimers].
      change (trace (clearCallTimer id s)) with (trace s).
      rewrite settlements_cons, Hset. simpl. now rewrite Z.eqb_refl.
    + right. rewrite (proj2 (has_false id _) Hout) in Hset.
      split; [exact Hout | exact Hset].
Qed.

Lemma calls_settle_exactly_once_witness :
  let s := run twoCalls (newClient DEFAULT_OPTIONS) in
  let s' := snd (send "Runtime.evaluate" true s) in
  ~ In 3 (created (trace s)) /\ created (trace s') = 3 :: created (trace s).
Proof.
  cbv zeta.
  apply (proj1 (proj2 (calls_settle_exactly_once DEFAULT_OPTIONS twoCalls))
           "Runtime.evaluate"%string true 3).
  vm_compute. reflexivity.
Defined.

(** ** The id counter *)

Lemma messageId_of_calls (s s' : CDPClient) :
  calls s' = calls s -> messageId s' = messageId s.
Proof. unfold calls. intros H. now inversion H. Qed.

Lemma messageId_rejectAllPending (r : rejectReason) (s : CDPClient) :
  messageId (rejectAllPending r s) = messageId s.
Proof. rewrite rejectAllPending_eq. reflexivity. Qed.

Lemma messageId_handleMessage (raw : RawData) (s : CDPClient) :
  messageId (handleMessage raw s) = messageId s.
Proof.
  unfold handleMessage.
  destruct raw as [|[|[id|] err v]|];
    try (apply messageId_of_calls, calls_log); try reflexivity.
  destruct (has id (callbacks s)); [destruct err|]; reflexivity.
Qed.

Lemma messageId_wsOnClose (s : CDPClient) : messageId (wsOnClose s) = messageId s.
Proof.
  unfold wsOnClose. cbv zeta.
  match goal with |- context [rejectAllPending ?r ?t] =>
    assert (H : messageId (rejectAllPending r t) = messageId s)
      by (rewrite messageId_rejectAllPending; apply messageId_of_calls;
          now autorewrite with calls_frame);
    set (s3 := rejectAllPending r t) in *
  end.
  rewrite <- H.
  match goal with |- context [if ?b then _ else _] => destruct b end;
    apply messageId_of_calls; rewrite ?calls_scheduleReconnect;
    apply calls_notify; reflexivity.
Qed.

Lemma messageId_disconnect (s : CDPClient) : messageId (disconnect s) = messageId s.
Proof.
  unfold disconnect. destruct (isDisposed s); [reflexivity|]. cbv zeta.
  match goal with |- context [rejectAllPending ?r ?t] =>
    assert (H : messageId (rejectAllPending r t) = messageId s)
      by (rewrite messageId_rejectAllPending;
          match goal with |- context [match ?x with _ => _ end] => destruct x end;
          reflexivity);
    set (s3 := rejectAllPending r t) in *
  end.
  destruct (ws s3); [|exact H].
  rewrite <- H. apply messageId_of_calls.
  now rewrite calls_set_ws, calls_wsClose.
Qed.

Lemma messageId_dispose (s : CDPClient) : messageId (dispose s) = messageId s.
Proof.
  unfold dispose. destruct (isDisposed s); [reflexivity|]. cbv zeta.
  cbn [messageId set_onLog set_onReconnectFailed set_onReconnect set_onDisconnect].
  now rewrite messageId_disconnect.
Qed.

(** No handler touches the id counter. *)
Lemma messageId_deliver (h : hostEvent) (s : CDPClient) :
  messageId (deliver h s) = messageId s.
Proof.
  destruct h as [a err|a|a|a raw|a|a|k|id]; simpl.
  - destruct (phaseOf a s) as [[| |]|]; try reflexivity.
    now rewrite (messageId_of_calls _ _ (calls_rejectConnect _ _ _)).
  - destruct (phaseOf a s) as [[| |]|]; reflexivity.
  - destruct (phaseOf a s) as [[| [] |]|]; try reflexivity.
    unfold wsOnOpen. cbv zeta.
    rewrite (messageId_of_calls _ _ (calls_resolveConnect _ _)).
    apply messageId_of_calls. now autorewrite with calls_frame.
  - destruct (phaseOf a s) as [[| [] |]|]; try reflexivity.
    apply messageId_handleMessage.
  - destruct (phaseOf a s) as [[| [] |]|]; try reflexivity;
      unfold wsOnError; apply messageId_of_calls, calls_log.
  - destruct (phaseOf a s) as [[| [] |]|]; try reflexivity;
      now rewrite messageId_wsOnClose.
  - destruct (retryTimerArmed k s); [|reflexivity].
    unfold retryTimerCallback. cbv zeta.
    match goal with |- context [if ?b then _ else _] => destruct b end.
    + reflexivity.
    + now rewrite (messageId_of_calls _ _ (calls_doConnect _ _)).
  - destruct (has id (callTimers s)); [|reflexivity].
    unfold callTimeoutCallback.
    match goal with |- context [if ?b then _ else _] => destruct b end; reflexivity.
Qed.

Lemma messageId_delivers (hs : list hostEvent) : forall s : CDPClient,
  messageId (fold_left (fun s h => deliver h s) hs s) = messageId s.
Proof.
  induction hs as [|h r IH]; intros s; simpl; [reflexivity|].
  now rewrite IH, messageId_deliver.
Qed.

Lemma messageId_send (m : string) (throws : bool) (s : CDPClient) :
  messageId s <= messageId (snd (send m throws s)).
Proof.
  unfold send.
  destruct (isDisposed s); [simpl; lia|].
  destruct (String.eqb m ""); [simpl; lia|].
  destruct (ws s) as [sock|]; [|simpl; lia].
  destruct (negb _); [simpl; lia|].
  destruct throws; cbn [snd].
  - cbn [callbacks set_callbacks set_callTimers emit set_trace set_messageId].
    destruct (has _ _); simpl; lia.
  - simpl; lia.
Qed.

Lemma messageId_step (e : event) (s : CDPClient) :
  messageId s <= messageId (step e s).
Proof.
  destruct e as [c|h]; simpl.
  - destruct c; simpl; try lia.
    + rewrite (messageId_of_calls _ _ (calls_connect _ _)). lia.
    + apply messageId_send.
    + rewrite messageId_disconnect. lia.
    + rewrite messageId_dispose. lia.
  - rewrite messageId_deliver. lia.
Qed.

Lemma messageId_run (evs : list event) : forall s : CDPClient,
  messageId s <= messageId (run evs s).
Proof.
  induction evs as [|e r IH]; intros s; [simpl; lia|].
  change (run (e :: r) s) with (run r (step e s)).
  specialize (IH (step e s)). pose proof (messageId_step e s). lia.
Qed.

(** C4, as the claim puts it, fails: a client that has made one call,
    disconnected and connected again gives its next call the id 2, not
    the initial id 1. *)
Lemma connect_does_not_reset_ids :
  fst (send "Runtime.evaluate" false reconnectedClient) = inr 2 /\
  messageId (newClient DEFAULT_OPTIONS) = 1 /\
  fst (send "Runtime.evaluate" false reconnectedClient)
  <> inr (messageId (newClient DEFAULT_OPTIONS)).
Proof. vm_compute. repeat split. discriminate. Qed.

(** C4, amended.  The id counter is never reset: no call of the API and
    no event of the host makes it smaller, [connect] leaves it as it is,
    and the first [send] after a [connect] -- whatever the host delivers
    in between -- gets the value the counter had before the [connect],
    which is the initial id only if no call was made before. *)
Theorem ids_continue_across_connect :
  (forall (evs : list event) (s : CDPClient), messageId s <= messageId (run evs s)) /\
  (forall (s : CDPClient) (p : Z), messageId (snd (connect p s)) = messageId s) /\
  (forall (s : CDPClient) (p : Z) (hs : list hostEvent)
          (m : string) (throws : bool) (id : Z) (s' : CDPClient),
      send m throws (fold_left (fun s h => deliver h s) hs (snd (connect p s)))
      = (inr id, s') ->
      id = messageId s /\ messageId s' = messageId s + 1).
Proof.
  split; [exact messageId_run|]. split.
  - intros s p. apply messageId_of_calls, calls_connect.
  - intros s p hs m throws id s' Hs.
    assert (Hm : messageId (fold_left (fun s h => deliver h s) hs (snd (connect p s)))
                 = messageId s).
    { rewrite messageId_delivers. apply messageId_of_calls, calls_connect. }
    revert Hs Hm. generalize (fold_left (fun s h => deliver h s) hs (snd (connect p s))).
    intros t Hs Hm.
    destruct (send_registers m throws t s' id Hs) as [-> _].
    split; [exact Hm|]. rewrite <- Hm.
    revert Hs. unfold send.
    destruct (isDisposed t); [discriminate|].
    destruct (String.eqb m ""); [discriminate|].
    destruct (ws t) as [sock|]; [|discriminate].
    destruct (negb _); [discriminate|].
    destruct throws; intros H; inversion H; subst; clear H; [|reflexivity].
    cbn [callbacks set_callbacks set_callTimers emit set_trace set_messageId].
    destruct (has _ _); reflexivity.
Qed.

Lemma ids_continue_across_connect_witness :
  let s := run [Api (Send "Runtime.evaluate" false); Api Disconnect; Host (WsClose 0)]
               connectedClient in
  let t := fold_left (fun s h => deliver h s) [SocketCreated 1; WsOpen 1]
                     (snd (connect 9222 s)) in
  2 = messageId s /\
  messageId (snd (send "Runtime.evaluate" false t)) = messageId s + 1.
Proof.
  cbv zeta.
  apply (proj2 (proj2 ids_continue_across_connect) _ 9222 [SocketCreated 1; WsOpen 1]
           "Runtime.evaluate"%string false 2).
  vm_compute. reflexivity.
Defined.

(** ** Disposal and the first connection *)

(** What [dispose] does to a client that is not disposed yet: it sets the
    flag and drops the four callbacks.  The call of [disconnect] in it
    returns at once, because the flag is set before the call. *)
Lemma dispose_only_sets_flags (s : CDPClient) :
  isDisposed s = false ->
  dispose s
  = set_onLog false
      (set_onReconnectFailed false
         (set_onReconnect false (set_onDisconnect false (set_isDisposed true s)))).
Proof. intros Hd. unfold dispose, disconnect. rewrite Hd. reflexivity. Qed.

(** A first [connect] whose discovery fails: the promise is rejected with
    that error, and no retry timer is armed. *)
Lemma first_connect_discovery_failure (p : Z) (e : connectError) (s : CDPClient) :
  isDisposed s = false -> 0 < p <= 65535 ->
  let a := List.length (attempts s) in
  let s' := deliver (DiscoveryFails a e) (snd (connect p s)) in
  trace s' = EConnectRejected a e :: EHttpGet a p :: trace s /\
  retryTimers s' = retryTimers s /\ retryCount s' = 0.
Proof.
  intros Hd Hp. cbv zeta. rewrite (connect_starts p s Hd Hp). cbn [snd].
  unfold deliver, phaseOf. cbn [attempts emit set_trace set_attempts].
  rewrite nth_error_snoc. cbn [option_map a_phase].
  unfold rejectConnect, setPhase, markSettled.
  cbn [attempts emit set_trace set_attempts].
  rewrite updateAt_snoc, nth_error_snoc. cbn [a_settled a_waiter].
  repeat split; reflexivity.
Qed.

(** C1 (the code departs from it).  [dispose()] on a client with an open
    socket and a pending call: the call stays in the table, unsettled,
    with its timer armed; the socket stays open and [close()] is never
    called on it.  On a client that waits for its retry timer, the timer
    stays armed. *)
Theorem dispose_skips_disconnect :
  let s := dispose pendingClient in
  isDisposed s = true /\
  callbacks s = [1] /\ callTimers s = [1] /\
  settlements 1 (trace s) = 0%nat /\
  filter isCallRejected (trace s) = [] /\
  isConnected s = true /\
  filter isWsClose (trace s) = [] /\
  retryTimers (dispose reconnectingClient) = [(0%nat, Finite 1000)] /\
  retryTimer (dispose reconnectingClient) = Some 0%nat /\
  callbacks (disconnect pendingClient) = [] /\
  isConnected (disconnect pendingClient) = false /\
  retryTimers (disconnect reconnectingClient) = [].
Proof. vm_compute. repeat split. Qed.

(** C7 (the code departs from it).  A first [connect] whose socket is
    created but fails to open: the 'error' handler only logs, so the
    promise that [connect] returned is neither rejected nor resolved, and
    the 'close' handler arms a retry timer (delay 1000) although no
    connection was ever established.  A first [connect] whose discovery
    fails is rejected with that error and arms no timer. *)
Theorem first_connect_socket_failure_retries :
  filter (isConnectSettled 0) (trace failedFirstConnect) = [] /\
  option_map a_settled (nth_error (attempts failedFirstConnect) 0) = Some false /\
  retryTimers failedFirstConnect = [(0%nat, Finite 1000)] /\
  retryCount failedFirstConnect = 1 /\
  scheduledDelays (trace failedFirstConnect) = [Finite 1000] /\
  let s := run [Api (Connect 9222); Host (DiscoveryFails 0 EndpointUnreachable)]
               (newClient DEFAULT_OPTIONS) in
  filter (isConnectSettled 0) (trace s) = [EConnectRejected 0 EndpointUnreachable] /\
  retryTimers s = [].
Proof. vm_compute. repeat split. Qed.


(** ** The retry policy over every history *)

Lemma delays_cons_other (e : effect) (t : list effect) :
  (forall h d, e <> ESetRetryTimer h d) ->
  delaysNewestFirst (e :: t) = delaysNewestFirst t.
Proof. intros He. destruct e; try reflexivity. now elim (He h delay). Qed.

Lemma httpGets_rejected (r : rejectReason) (l : list Z) (t : list effect) :
  httpGets (rev (map (fun id => ECallRejected id r) l) ++ t) = httpGets t.
Proof.
  unfold httpGets. rewrite <- map_rev. induction (rev l) as [|a k IH]; simpl; auto.
Qed.

Lemma policy_set_ws v s : policy (set_ws v s) = policy s.
Proof. reflexivity. Qed.
Lemma policy_set_messageId v s : policy (set_messageId v s) = policy s.
Proof. reflexivity. Qed.
Lemma policy_set_callbacks v s : policy (set_callbacks v s) = policy s.
Proof. reflexivity. Qed.
Lemma policy_set_port v s : policy (set_port v s) = policy s.
Proof. reflexivity. Qed.
Lemma policy_set_retryTimer v s : policy (set_retryTimer v s) = policy s.
Proof. reflexivity. Qed.
Lemma policy_set_onDisconnect v s : policy (set_onDisconnect v s) = policy s.
Proof. reflexivity. Qed.
Lemma policy_set_onReconnect v s : policy (set_onReconnect v s) = policy s.
Proof. reflexivity. Qed.
Lemma policy_set_onReconnectFailed v s : policy (set_onReconnectFailed v s) = policy s.
Proof. reflexivity. Qed.
Lemma policy_set_onLog v s : policy (set_onLog v s) = policy s.
Proof. reflexivity. Qed.
Lemma policy_set_attempts v s : policy (set_attempts v s) = policy s.
Proof. reflexivity. Qed.
Lemma policy_set_retryTimers v s : policy (set_retryTimers v s) = policy s.
Proof. reflexivity. Qed.
Lemma policy_set_nextTimer v s : policy (set_nextTimer v s) = policy s.
Proof. reflexivity. Qed.
Lemma policy_set_callTimers v s : policy (set_callTimers v s) = policy s.
Proof. reflexivity. Qed.
Lemma policy_setPhase a p s : policy (setPhase a p s) = policy s.
Proof. reflexivity. Qed.
Lemma policy_markSettled a s : policy (markSettled a s) = policy s.
Proof. reflexivity. Qed.
Lemma policy_clearRetryTimer h s : policy (clearRetryTimer h s) = policy s.
Proof. reflexivity. Qed.
Lemma policy_clearCallTimer id s : policy (clearCallTimer id s) = policy s.
Proof. reflexivity. Qed.

Lemma policy_emit e s : plain e = true -> policy (emit e s) = policy s.
Proof. intros He. unfold policy, emit, httpGets. destruct e; try discriminate; reflexivity. Qed.

Lemma policy_notify b e s : plain e = true -> policy (notify b e s) = policy s.
Proof. intros He. destruct b; [now apply policy_emit | reflexivity]. Qed.

Lemma policy_log m s : policy (log m s) = policy s.
Proof. now apply policy_notify. Qed.

Lemma policy_rejectAllPending r s : policy (rejectAllPending r s) = policy s.
Proof.
  rewrite rejectAllPending_eq. unfold policy. simpl.
  now rewrite delays_rejected, httpGets_rejected.
Qed.

Create Rewrite HintDb policy_frame.
#[local] Hint Rewrite policy_set_ws policy_set_messageId policy_set_callbacks
  policy_set_port policy_set_retryTimer policy_set_onDisconnect policy_set_onReconnect
  policy_set_onReconnectFailed policy_set_onLog policy_set_attempts
  policy_set_retryTimers policy_set_nextTimer policy_set_callTimers policy_setPhase
  policy_markSettled policy_clearRetryTimer policy_clearCallTimer policy_log
  policy_rejectAllPending : policy_frame.
#[local] Hint Rewrite policy_emit policy_notify using reflexivity : policy_frame.

Lemma policy_split (s : CDPClient) :
  policy s = (isDisposed s, intentionalDisconnect s, options s, retryCount s,
              delaysNewestFirst (trace s), httpGets (trace s)).
Proof. reflexivity. Qed.

Lemma hostMove_scheduleReconnect (s : CDPClient) :
  hostMove (policy s) (policy (scheduleReconnect s)).
Proof.
  destruct (isDisposed s) eqn:Hd.
  { unfold scheduleReconnect. rewrite Hd, orb_true_r. constructor. }
  destruct (intentionalDisconnect s) eqn:Hi.
  { unfold scheduleReconnect. rewrite Hi. constructor. }
  destruct (Z_lt_le_dec (retryCount s) (maxRetries (options s))) as [Hlt|Hge].
  - rewrite (scheduleReconnect_arms s Hd Hi Hlt), log_eq.
    unfold policy, httpGets. simpl. rewrite Hd, Hi.
    destruct (_onLog s); simpl; now constructor.
  - rewrite (scheduleReconnect_gives_up s Hd Hi Hge).
    autorewrite with policy_frame. constructor.
Qed.

Lemma hostMove_rejectConnect (a : nat) (e : connectError) (s : CDPClient) :
  hostMove (policy s) (policy (rejectConnect a e s)).
Proof.
  unfold rejectConnect.
  destruct (nth_error (attempts s) a) as [t|]; [|constructor].
  destruct (a_settled t); [constructor|].
  destruct (a_waiter t).
  - autorewrite with policy_frame. constructor.
  - rewrite <- (policy_markSettled a s) at 1. apply hostMove_scheduleReconnect.
Qed.

Lemma policy_resolveConnect (a : nat) (s : CDPClient) :
  policy (resolveConnect a s) = policy s.
Proof.
  unfold resolveConnect.
  destruct (nth_error (attempts s) a) as [t|]; [|reflexivity].
  destruct (a_settled t); [reflexivity|].
  destruct (a_waiter t); now autorewrite with policy_frame.
Qed.

Lemma policy_handleMessage (raw : RawData) (s : CDPClient) :
  policy (handleMessage raw s) = policy s.
Proof.
  unfold handleMessage.
  destruct raw as [|[|[id|] err v]|]; try apply policy_log; try reflexivity.
  destruct (has id (callbacks s)); [|reflexivity].
  destruct err; now autorewrite with policy_frame.
Qed.

Lemma hostMove_wsOnClose (s : CDPClient) :
  hostMove (policy s) (policy (wsOnClose s)).
Proof.
  unfold wsOnClose. cbv zeta.
  match goal with |- context [notify ?b ?e ?t] =>
    assert (H : policy (notify b e t) = policy s)
      by (now autorewrite with policy_frame);
    set (s4 := notify b e t) in *
  end.
  destruct (negb _ && negb _).
  - rewrite <- H. apply hostMove_scheduleReconnect.
  - rewrite H. constructor.
Qed.

Lemma hostMove_doConnect_retry (s : CDPClient) :
  isDisposed s = false -> intentionalDisconnect s = false ->
  hostMove (policy s) (policy (snd (doConnect Retry s))).
Proof.
  intros Hd Hi. unfold doConnect. rewrite Hd. cbn [snd].
  unfold policy, httpGets. simpl. rewrite Hd, Hi. constructor.
Qed.

(** Every event of the host is one move of the policy. *)
Lemma hostMove_deliver (h : hostEvent) (s : CDPClient) :
  hostMove (policy s) (policy (deliver h s)).
Proof.
  destruct h as [a err|a|a|a raw|a|a|k|id]; simpl.
  - destruct (phaseOf a s) as [[| |]|]; try constructor.
    rewrite <- (policy_setPhase a NoSocket s) at 1. apply hostMove_rejectConnect.
  - destruct (phaseOf a s) as [[| |]|]; constructor.
  - destruct (phaseOf a s) as [[| [] |]|]; try constructor.
    unfold wsOnOpen. cbv zeta. rewrite policy_resolveConnect.
    rewrite (policy_split s), (policy_split (set_retryCount _ _)).
    cbn [isDisposed intentionalDisconnect options retryCount trace set_retryCount].
    assert (Hl : policy (log LogConnected (setPhase a (Sock OPEN) s)) = policy s)
      by now autorewrite with policy_frame.
    unfold policy in Hl. inversion Hl as [[H1 H2 H3 H4 H5 H6]].
    rewrite H1, H2, H3, H5, H6. constructor.
  - destruct (phaseOf a s) as [[| [] |]|]; try constructor.
    rewrite policy_handleMessage. constructor.
  - destruct (phaseOf a s) as [[| [] |]|]; try constructor;
      unfold wsOnError; rewrite policy_log; constructor.
  - destruct (phaseOf a s) as [[| [] |]|]; try constructor;
      match goal with |- hostMove _ (policy (wsOnClose ?t)) =>
        rewrite <- (policy_setPhase a (Sock CLOSED) s) at 1 end;
      apply hostMove_wsOnClose.
  - destruct (retryTimerArmed k s); [|constructor].
    unfold retryTimerCallback. cbv zeta.
    cbn [intentionalDisconnect isDisposed set_retryTimer clearRetryTimer set_retryTimers].
    destruct (intentionalDisconnect s) eqn:Hi; [constructor|].
    destruct (isDisposed s) eqn:Hd; [constructor|]. cbn [orb].
    match goal with |- hostMove _ (policy (snd (doConnect Retry ?t))) =>
      change (policy s) with (policy t) end.
    apply hostMove_doConnect_retry; assumption.
  - destruct (has id (callTimers s)); [|constructor].
    unfold callTimeoutCallback.
    match goal with |- context [if ?b then _ else _] => destruct b end;
      autorewrite with policy_frame; constructor.
Qed.

Lemma policy_wsClose sock s : policy (wsClose sock s) = policy s.
Proof.
  unfold wsClose.
  destruct (readyState sock (emit (EWsClose sock) s));
    autorewrite with policy_frame; reflexivity.
Qed.

Lemma policy_send (m : string) (throws : bool) (s : CDPClient) :
  policy (snd (send m throws s)) = policy s.
Proof.
  unfold send.
  destruct (isDisposed s); [reflexivity|].
  destruct (String.eqb m ""); [reflexivity|].
  destruct (ws s) as [sock|]; [|reflexivity].
  destruct (negb _); [reflexivity|].
  destruct throws; cbn [snd].
  - cbn [callbacks set_callbacks set_callTimers emit set_trace set_messageId].
    destruct (has _ _); reflexivity.
  - reflexivity.
Qed.

Lemma apiMove_disconnect (s : CDPClient) :
  apiMove (policy s) (policy (disconnect s)).
Proof.
  unfold disconnect. destruct (isDisposed s) eqn:Hd; [constructor|]. cbv zeta.
  match goal with |- context [rejectAllPending ?r ?t] =>
    assert (H : policy (rejectAllPending r t)
                = (false, true, options s, retryCount s,
                   delaysNewestFirst (trace s), httpGets (trace s)))
      by (rewrite policy_rejectAllPending;
          cbn [retryTimer set_intentionalDisconnect];
          destruct (retryTimer s); autorewrite with policy_frame;
          unfold policy; simpl; rewrite Hd; reflexivity);
    set (s3 := rejectAllPending r t) in *
  end.
  assert (H' : policy (match ws s3 with
                       | Some sock => set_ws None (wsClose sock s3)
                       | None => s3
                       end) = policy s3)
    by (destruct (ws s3); [now rewrite policy_set_ws, policy_wsClose | reflexivity]).
  rewrite H', H. unfold policy. rewrite Hd. constructor.
Qed.

(** Every call of the API is one move of the policy. *)
Lemma apiMove_call (c : apiCall) (s : CDPClient) :
  apiMove (policy s) (policy (call c s)).
Proof.
  destruct c; simpl; try constructor.
  - unfold connect. destruct (isDisposed s) eqn:Hd; [constructor|].
    destruct ((p <=? 0) || (p >? 65535)); [constructor|].
    unfold doConnect. cbn [isDisposed set_retryCount set_intentionalDisconnect set_port].
    rewrite Hd. cbn [snd].
    unfold policy, httpGets. simpl. rewrite Hd. constructor.
  - rewrite policy_send. constructor.
  - apply apiMove_disconnect.
  - unfold dispose. destruct (isDisposed s) eqn:Hd; [constructor|]. cbv zeta.
    autorewrite with policy_frame.
    unfold disconnect. cbn [isDisposed set_isDisposed].
    unfold policy. simpl. rewrite Hd. constructor.
Qed.

(** No delay is above the largest one, whatever the options are. *)
Lemma reconnectDelay_notAbove (o : CDPClientOptions) (n : Z) :
  notAbove (maxRetryDelay o) (reconnectDelay o n).
Proof.
  unfold reconnectDelay, mathMin.
  destruct (times (initialRetryDelay o) (pow2 n)); simpl; auto; try lia.
Qed.

Lemma reconnectDelay_within (o : CDPClientOptions) (n : Z) :
  regularDelays o -> 0 <= n < maxRetries o ->
  within (initialRetryDelay o) (maxRetryDelay o) (reconnectDelay o n).
Proof.
  intros (Hi & Hm & Hz) Hn.
  rewrite reconnectDelay_backoff by (try assumption; lia).
  unfold within, backoff.
  assert (1 <= 2 ^ n) by (apply (Z.pow_le_mono_r 2 0 n); lia).
  split; [|apply Z.le_min_r].
  apply Z.min_glb; [|apply Z.le_min_r].
  etransitivity; [apply Z.le_min_l|]. nia.
Qed.

(** What holds of the policy at all times. *)
Lemma bounds_hostMove (o : CDPClientOptions) v v' :
  hostMove v v' -> policyBounds o v -> policyBounds o v'.
Proof.
  intros Hm. destruct Hm as [v|d i o' rc ds g|o' rc ds g Hlt|o' rc ds g]; [auto|..];
    unfold policyBounds; intros (Ho & Hrc & Hup & Hlo & Hf); subst o'.
  - split; [reflexivity|]. split; [lia|]. repeat split; assumption.
  - split; [reflexivity|]. split; [lia|]. split; [|split].
    + constructor; [|assumption]. apply reconnectDelay_notAbove.
    + intros Hr. constructor; [|auto]. apply reconnectDelay_within; [exact Hr | lia].
    + constructor; [|assumption]. exists rc. split; [lia | reflexivity].
  - split; [reflexivity|]. split; [lia|]. repeat split; assumption.
Qed.

Lemma bounds_apiMove (o : CDPClientOptions) v v' :
  apiMove v v' -> policyBounds o v -> policyBounds o v'.
Proof.
  intros Hm. destruct Hm as [v|i o' rc ds g|i o' rc ds g|i o' rc ds g]; [auto|..];
    unfold policyBounds; intros (Ho & Hrc & Hup & Hlo & Hf); subst o';
    (split; [reflexivity|]; split; [lia|]; repeat split; assumption).
Qed.

Lemma bounds_run (o : CDPClientOptions) (evs : list event) : forall s : CDPClient,
  policyBounds o (policy s) -> policyBounds o (policy (run evs s)).
Proof.
  induction evs as [|e r IH]; intros s Hb; [exact Hb|].
  change (run (e :: r) s) with (run r (step e s)). apply IH.
  destruct e as [c|h]; simpl.
  - exact (bounds_apiMove o _ _ (apiMove_call c s) Hb).
  - exact (bounds_hostMove o _ _ (hostMove_deliver h s) Hb).
Qed.

(** X1.  In every state that a client reaches from [new CDPClient(options)],
    by whatever calls of its API and events of the host: the options are
    the ones it was built with, the retry counter lies between 0 and
    max(0, maxRetries), and no retry timer was ever armed with a delay
    above maxRetryDelay (for any integer options; the delay may then be
    -Infinity or not a number).  For options with an initial delay that is
    not negative, a largest delay in the range of a double and at most 1024
    attempts when the initial delay is zero, every delay is an integer
    between min(initialRetryDelay, maxRetryDelay) and maxRetryDelay. *)
Theorem retry_policy_bounds (o : CDPClientOptions) (evs : list event) :
  let s := run evs (newClient o) in
  options s = o /\
  0 <= retryCount s <= Z.max 0 (maxRetries o) /\
  Forall (notAbove (maxRetryDelay o)) (scheduledDelays (trace s)) /\
  (regularDelays o ->
   Forall (within (initialRetryDelay o) (maxRetryDelay o)) (scheduledDelays (trace s))).
Proof.
  cbv zeta.
  assert (Hb : policyBounds o (policy (run evs (newClient o)))).
  { apply bounds_run. unfold policyBounds, policy. simpl.
    repeat split; auto; try lia; constructor. }
  unfold policyBounds, policy in Hb. destruct Hb as (Ho & Hrc & Hup & Hlo & _).
  unfold scheduledDelays. repeat split; auto; try lia.
  - apply Forall_rev, Hup.
  - intros Hi. apply Forall_rev, Hlo, Hi.
Qed.

(** ** The delays of the retry timers *)

(** C5, as the claim puts it, fails for an attempt number from 1024 on when
    the initial delay is zero: the connection of a client with such options
    closes, 1025 reconnection attempts fail one after the other, and the
    timer of attempt 1024 is armed with a delay that is not a number, where
    the formula gives min(0 * 2^1024, 30000) = 0.  The timer of attempt
    1023 still has the delay 0. *)
Lemma zero_delay_is_not_a_number_from_attempt_1024 :
  let s := failedReconnects (repeat (DiscoveryFailure EndpointUnreachable) 1025)
             (deliver (WsClose 0) zeroDelayClient) in
  established 0 zeroDelayClient = true /\
  nth_error (scheduledDelays (trace s)) 1023 = Some (Finite 0) /\
  nth_error (scheduledDelays (trace s)) 1024 = Some NaN /\
  backoff zeroDelayOptions 1024 = 0.
Proof. vm_compute. repeat split. Qed.


(** C5, amended.  For options that are integers with an initial delay
    that is not negative, a largest delay in the range of a double, and at
    most 1024 attempts when the initial delay is zero: every retry timer
    that a client ever arms, in whatever history of calls and events, has
    the delay min(initialRetryDelay * 2^n, maxRetryDelay), n being the
    value of the attempt counter when the timer is armed, below maxRetries.
    After an established connection closes, the timers that the client
    arms one after the other -- attempt 0 on the closure, attempt n on the
    failure of attempt n-1, until the attempts are used up -- have these
    delays for n = 0, 1, 2, ... in this order, whichever way the attempts
    fail.  With the default options (1000, 30000) the attempts 0..5 are
    scheduled with delays 1000, 2000, 4000, 8000, 16000, 30000. *)
Theorem reconnect_delays_are_capped_exponential :
  (forall (o : CDPClientOptions) (evs : list event),
     regularDelays o ->
     Forall (fun d => exists n : nat,
                 Z.of_nat n < maxRetries o /\
                 d = Finite (Z.min (initialRetryDelay o * 2 ^ Z.of_nat n)
                                   (maxRetryDelay o)))
            (scheduledDelays (trace (run evs (newClient o)))))
  /\
  (forall (sock : nat) (s : CDPClient) (fs : list failure),
     established sock s = true ->
     List.length fs = Z.to_nat (maxRetries (options s)) ->
     regularDelays (options s) ->
     scheduledDelays (trace (failedReconnects fs (deliver (WsClose sock) s)))
     = scheduledDelays (trace s)
       ++ map (fun n => Finite (Z.min (initialRetryDelay (options s) * 2 ^ Z.of_nat n)
                                      (maxRetryDelay (options s))))
              (seq 0 (Z.to_nat (maxRetries (options s)))))
  /\
  scheduledDelays
    (trace (failedReconnects
              [SocketFailure; DiscoveryFailure EndpointUnreachable;
               DiscoveryFailure DiscoveryTimedOut; SocketFailure;
               DiscoveryFailure NoTargets]
              (deliver (WsClose 0) connectedClient)))
  = [Finite 1000; Finite 2000; Finite 4000; Finite 8000; Finite 16000; Finite 30000].
Proof.
  split; [|split].
  - intros o evs Hr.
    assert (Hb : policyBounds o (policy (run evs (newClient o)))).
    { apply bounds_run. unfold policyBounds, policy. simpl.
      repeat split; auto; try lia; constructor. }
    unfold policyBounds, policy in Hb. destruct Hb as (_ & _ & _ & _ & Hf).
    unfold scheduledDelays. apply Forall_rev.
    eapply Forall_impl; [|exact Hf]. cbv beta.
    intros d (n & Hn & ->). exists (Z.to_nat n).
    rewrite Z2Nat.id by lia. split; [lia|].
    destruct Hr as (Hi & Hm & Hz).
    apply reconnectDelay_backoff; try assumption; lia.
  - intros sock s fs He Hlen Hr.
    destruct (exhaustion sock s fs He Hlen) as (_ & _ & _ & _ & _ & _ & Hd & _).
    unfold scheduledDelays. rewrite Hd, rev_app_distr, rev_involutive.
    f_equal. rewrite Hlen.
    apply (reconnectDelays_formula (options s) _ 0 Hr). lia.
  - vm_compute. reflexivity.
Qed.

Lemma reconnect_delays_witness :
  scheduledDelays
    (trace (failedReconnects (repeat SocketFailure 10)
              (deliver (WsClose 0) connectedClient)))
  = scheduledDelays (trace connectedClient)
    ++ map (fun n => Finite (Z.min (1000 * 2 ^ Z.of_nat n) 30000)) (seq 0 10).
Proof.
  apply (proj1 (proj2 reconnect_delays_are_capped_exponential) 0%nat connectedClient
           (repeat SocketFailure 10)); [reflexivity | reflexivity |].
  unfold regularDelays, doubleLimit. cbn.
  split; [lia|]. split; [reflexivity | intros H; discriminate].
Defined.
Lemma retry_policy_bounds_witness :
  Forall (within 1000 30000)
         (scheduledDelays
            (trace (run (twoCalls ++ [Host (WsClose 0); Host (RetryTimerFires 0);
                                      Host (DiscoveryFails 1 NoTargets)])
                        (newClient DEFAULT_OPTIONS)))).
Proof.
  apply (proj2 (proj2 (proj2 (retry_policy_bounds DEFAULT_OPTIONS _)))).
  unfold regularDelays, doubleLimit. cbn.
  split; [lia|]. split; [reflexivity | intros H; discriminate].
Defined.

Lemma hostMove_disposed d i o rc ds g v' :
  hostMove (d, i, o, rc, ds, g) v' -> d = true ->
  exists i' rc', v' = (true, i', o, rc', ds, g).
Proof.
  intros Hm Hd. inversion Hm; subst; try discriminate; eauto.
Qed.

Lemma apiMove_disposed d i o rc ds g v' :
  apiMove (d, i, o, rc, ds, g) v' -> d = true ->
  exists i' rc', v' = (true, i', o, rc', ds, g).
Proof.
  intros Hm Hd. inversion Hm; subst; try discriminate; eauto.
Qed.

Lemma hostMove_intentional d i o rc ds g v' :
  hostMove (d, i, o, rc, ds, g) v' -> i = true ->
  exists rc', v' = (d, true, o, rc', ds, g).
Proof.
  intros Hm Hi. inversion Hm; subst; try discriminate; eauto.
Qed.

Lemma disposed_step (e : event) (s : CDPClient) :
  isDisposed s = true ->
  isDisposed (step e s) = true /\
  delaysNewestFirst (trace (step e s)) = delaysNewestFirst (trace s) /\
  httpGets (trace (step e s)) = httpGets (trace s) /\
  messageId (step e s) = messageId s.
Proof.
  intros Hd.
  assert (Hp : exists i' rc',
             policy (step e s)
             = (true, i', options s, rc', delaysNewestFirst (trace s), httpGets (trace s))).
  { destruct e as [c|h]; simpl.
    - apply (apiMove_disposed _ _ _ _ _ _ _ (apiMove_call c s) Hd).
    - apply (hostMove_disposed _ _ _ _ _ _ _ (hostMove_deliver h s) Hd). }
  destruct Hp as (i' & rc' & Hp). unfold policy in Hp. inversion Hp as [[H1 H2 H3 H4 H5 H6]].
  repeat split; auto.
  destruct e as [c|h]; simpl.
  - destruct c; simpl; try reflexivity.
    + apply messageId_of_calls, calls_connect.
    + unfold send. rewrite Hd. reflexivity.
    + apply messageId_disconnect.
    + apply messageId_dispose.
  - apply messageId_deliver.
Qed.

(** X2.  Disposal is final.  Once [isDisposed] is set, whatever is called and
    whatever the host delivers afterwards, the client stays disposed, arms
    no retry timer, starts no discovery request and gives out no id;
    [connect] and [send] fail with their "has been disposed" errors and
    leave the state as it is. *)
Theorem disposed_is_terminal (evs : list event) (s : CDPClient) :
  isDisposed s = true ->
  let s' := run evs s in
  isDisposed s' = true /\
  scheduledDelays (trace s') = scheduledDelays (trace s) /\
  httpGets (trace s') = httpGets (trace s) /\
  messageId s' = messageId s /\
  (forall p, connect p s' = (inl CannotConnectDisposed, s')) /\
  (forall m throws, send m throws s' = (inl CannotSendDisposed, s')).
Proof.
  intros Hd. cbv zeta.
  assert (H : isDisposed (run evs s) = true /\
              delaysNewestFirst (trace (run evs s)) = delaysNewestFirst (trace s) /\
              httpGets (trace (run evs s)) = httpGets (trace s) /\
              messageId (run evs s) = messageId s).
  { revert s Hd. induction evs as [|e r IH]; intros s Hd; [auto|].
    change (run (e :: r) s) with (run r (step e s)).
    destruct (disposed_step e s Hd) as (H1 & H2 & H3 & H4).
    destruct (IH (step e s) H1) as (I1 & I2 & I3 & I4).
    rewrite I2, I3, I4. repeat split; congruence. }
  destruct H as (H1 & H2 & H3 & H4).
  unfold scheduledDelays. rewrite H2.
  repeat split; auto.
  - intros p. unfold connect. now rewrite H1.
  - intros m throws. unfold send. now rewrite H1.
Qed.

Lemma disposed_is_terminal_witness :
  let s' := run [Api (Connect 9222); Host (WsClose 0); Host (CallTimerFires 1);
                 Api (Send "Runtime.evaluate" false)] (dispose pendingClient) in
  isDisposed s' = true /\ httpGets (trace s') = 1%nat /\ messageId s' = 2.
Proof.
  destruct (disposed_is_terminal
              [Api (Connect 9222); Host (WsClose 0); Host (CallTimerFires 1);
               Api (Send "Runtime.evaluate" false)] (dispose pendingClient) eq_refl)
    as (H1 & _ & H3 & H4 & _).
  split; [exact H1|]. split; [rewrite H3 | rewrite H4]; reflexivity.
Defined.

(** ** After [disconnect] *)

Lemma onlyCurrentFrom_none (l : list attempt) : forall a,
  onlyCurrentFrom None a l = true -> forallb windingDown l = true.
Proof.
  induction l as [|t r IH]; intros a H; simpl in *; [reflexivity|].
  apply andb_true_iff in H. destruct H as [Ht Hr].
  rewrite (IH _ Hr), andb_true_r.
  destruct (windingDown t); [reflexivity|]. simpl in Ht.
  destruct (a_phase t); discriminate.
Qed.

Lemma onlyCurrentFrom_past (k : nat) (l : list attempt) : forall a,
  (k < a)%nat ->
  onlyCurrentFrom (Some k) a l = true -> forallb windingDown l = true.
Proof.
  induction l as [|t r IH]; intros a Hlt H; simpl in *; [reflexivity|].
  apply andb_true_iff in H. destruct H as [Ht Hr].
  rewrite (IH (S a)) by (auto; lia). rewrite andb_true_r.
  destruct (windingDown t); [reflexivity|]. simpl in Ht.
  assert (E : Nat.eqb k a = false) by (apply Nat.eqb_neq; lia).
  rewrite E in Ht. destruct (a_phase t); discriminate.
Qed.

(** The socket that [ws] holds starts closing. *)
Lemma onlyCurrentFrom_closing (k : nat) (l : list attempt) : forall a,
  (a <= k)%nat ->
  onlyCurrentFrom (Some k) a l = true ->
  forallb windingDown
    (updateAt (k - a) (fun t => mkAttempt (a_waiter t) (a_settled t) (Sock CLOSING)) l)
  = true.
Proof.
  induction l as [|t r IH]; intros a Hle H; simpl in *.
  - destruct (k - a)%nat; reflexivity.
  - apply andb_true_iff in H. destruct H as [Ht Hr].
    destruct (k - a)%nat as [|n] eqn:E; simpl.
    + apply (onlyCurrentFrom_past k r (S a)); [lia | exact Hr].
    + assert (En : Nat.eqb k a = false) by (apply Nat.eqb_neq; lia).
      rewrite En in Ht.
      assert (Hw : windingDown t = true).
      { destruct (windingDown t); [reflexivity|]. simpl in Ht.
        destruct (a_phase t); discriminate. }
      rewrite Hw. simpl.
      replace n with (k - S a)%nat by lia. apply IH; [lia | exact Hr].
Qed.

(** The socket that [ws] holds is closing or closed already. *)
Lemma onlyCurrentFrom_closed (k : nat) (l : list attempt) : forall a,
  (a <= k)%nat ->
  onlyCurrentFrom (Some k) a l = true ->
  (forall t, nth_error l (k - a) = Some t ->
             a_phase t <> Sock CONNECTING /\ a_phase t <> Sock OPEN) ->
  forallb windingDown l = true.
Proof.
  induction l as [|t r IH]; intros a Hle H Hp; simpl in *; [reflexivity|].
  apply andb_true_iff in H. destruct H as [Ht Hr].
  destruct (k - a)%nat as [|n] eqn:E.
  - rewrite (onlyCurrentFrom_past k r (S a)) by (auto; lia).
    rewrite andb_true_r. destruct (Hp t eq_refl) as [H1 H2].
    unfold windingDown in *. destruct (a_phase t) as [|[]|]; try reflexivity;
      try discriminate; congruence.
  - assert (En : Nat.eqb k a = false) by (apply Nat.eqb_neq; lia).
    rewrite En in Ht.
    assert (Hw : windingDown t = true).
    { destruct (windingDown t); [reflexivity|]. simpl in Ht.
      destruct (a_phase t); discriminate. }
    rewrite Hw. simpl. apply (IH (S a)); [lia | exact Hr |].
    intros t' Hn. apply Hp. simpl.
    replace (k - S a)%nat with n in Hn by lia. exact Hn.
Qed.

Lemma attempts_disconnect (s : CDPClient) :
  isDisposed s = false ->
  attempts (disconnect s)
  = match ws s with
    | Some sock =>
        match readyState sock s with
        | CONNECTING | OPEN =>
            updateAt sock (fun t => mkAttempt (a_waiter t) (a_settled t) (Sock CLOSING))
                     (attempts s)
        | _ => attempts s
        end
    | None => attempts s
    end.
Proof.
  intros Hd. unfold disconnect. rewrite Hd. rewrite rejectAllPending_eq.
  destruct_client s. simpl in *. subst dsp.
  destruct rt as [h|]; destruct w as [sock|]; simpl; try reflexivity;
    unfold wsClose, readyState, phaseOf, setPhase; simpl;
    destruct (nth_error ats sock) as [t|]; simpl; try reflexivity;
    destruct (a_phase t) as [|[]|]; reflexivity.
Qed.

Lemma severed_disconnect (s : CDPClient) :
  isDisposed s = false -> onlyCurrent s = true -> severed (link (disconnect s)).
Proof.
  intros Hd Ho.
  destruct (disconnect_done s Hd) as (_ & Hi & _ & _ & Hw).
  unfold severed, link. rewrite Hi, Hw, (attempts_disconnect s Hd).
  split; [reflexivity|]. split; [reflexivity|].
  unfold onlyCurrent in Ho.
  destruct (ws s) as [sock|]; [|exact (onlyCurrentFrom_none _ 0%nat Ho)].
  assert (Hc := onlyCurrentFrom_closing sock (attempts s) 0%nat (Nat.le_0_l _) Ho).
  rewrite Nat.sub_0_r in Hc.
  assert (Hr : forall rs, readyState sock s = rs -> rs <> CONNECTING -> rs <> OPEN ->
                          forallb windingDown (attempts s) = true).
  { intros rs Hrs H1 H2.
    apply (onlyCurrentFrom_closed sock (attempts s) 0%nat (Nat.le_0_l _) Ho).
    rewrite Nat.sub_0_r. intros t Hn.
    unfold readyState, phaseOf in Hrs. rewrite Hn in Hrs. simpl in Hrs.
    destruct (a_phase t) as [|r|]; split; try discriminate;
      intros E; injection E as ->; congruence. }
  destruct (readyState sock s) eqn:Hrs; try exact Hc;
    apply (Hr _ eq_refl); discriminate.
Qed.

Lemma windingDown_phase (a : nat) (s : CDPClient) :
  forallb windingDown (attempts s) = true ->
  phaseOf a s = None \/ phaseOf a s = Some NoSocket
  \/ phaseOf a s = Some (Sock CLOSING) \/ phaseOf a s = Some (Sock CLOSED).
Proof.
  unfold phaseOf. intros H.
  destruct (nth_error (attempts s) a) as [t|] eqn:Hn; [|now left].
  rewrite forallb_forall in H. specialize (H t (nth_error_In _ _ Hn)).
  unfold windingDown in H. simpl.
  destruct (a_phase t) as [| [] |]; try discriminate; auto.
Qed.

Lemma windingDown_updateAt (f : attempt -> attempt) (l : list attempt) : forall n,
  (forall t, windingDown (f t) = true) ->
  forallb windingDown l = true -> forallb windingDown (updateAt n f l) = true.
Proof.
  induction l as [|t r IH]; intros n Hf H; simpl in *; [destruct n; reflexivity|].
  apply andb_true_iff in H. destruct H as [Ht Hr].
  destruct n as [|n]; simpl.
  - now rewrite Hf, Hr.
  - rewrite Ht. simpl. now apply IH.
Qed.

Lemma link_log m s : link (log m s) = link s.
Proof. rewrite log_eq. reflexivity. Qed.

Lemma link_notify b e s : link (notify b e s) = link s.
Proof. rewrite notify_eq. reflexivity. Qed.

(** Once the link is cut, no event of the host restores it. *)
Lemma severed_deliver (h : hostEvent) (s : CDPClient) :
  severed (link s) -> severed (link (deliver h s)).
Proof.
  intros Hs. assert (Hs' := Hs). unfold severed, link in Hs'.
  destruct Hs' as (Hi & Hw & Ha).
  destruct h as [a err|a|a|a raw|a|a|k|id]; unfold deliver;
    try (destruct (windingDown_phase a s Ha) as [-> | [-> | [-> | ->]]]; try exact Hs).
  - unfold wsOnError. now rewrite link_log.
  - unfold wsOnClose. cbv zeta.
    rewrite rejectAllPending_eq, !log_eq, !notify_eq.
    cbn [intentionalDisconnect isDisposed set_trace set_callbacks set_callTimers set_ws
         setPhase set_attempts _onDisconnect _onLog trace callbacks callTimers].
    rewrite Hi. cbn [negb andb].
    unfold severed, link.
    cbn [intentionalDisconnect ws attempts set_trace set_callbacks set_callTimers set_ws
         setPhase set_attempts].
    split; [exact Hi|]. split; [reflexivity|].
    apply windingDown_updateAt; [reflexivity | exact Ha].
  - destruct (retryTimerArmed k s); [|exact Hs].
    unfold retryTimerCallback. cbv zeta.
    cbn [intentionalDisconnect isDisposed set_retryTimer clearRetryTimer set_retryTimers].
    rewrite Hi. cbn [orb]. exact Hs.
  - destruct (has id (callTimers s)); [|exact Hs].
    unfold callTimeoutCallback.
    cbn [callbacks clearCallTimer set_callTimers].
    destruct (has id (callbacks s)); [|exact Hs].
    exact Hs.
Qed.

Lemma severed_delivers (hs : list hostEvent) : forall s : CDPClient,
  severed (link s) -> severed (link (fold_left (fun s h => deliver h s) hs s)).
Proof.
  induction hs as [|h r IH]; intros s Hs; [exact Hs|].
  cbn [fold_left]. apply IH, severed_deliver, Hs.
Qed.

(** [disconnect] does not call off a discovery that is out: its answer
    still opens a socket, and the client is connected with the flag set. *)
Lemma disconnect_leaves_discovery_running :
  let s := run lateDiscovery (newClient DEFAULT_OPTIONS) in
  intentionalDisconnect s = true /\ isConnected s = true /\
  onlyCurrent (run [Api (Connect 9222)] (newClient DEFAULT_OPTIONS)) = false.
Proof. vm_compute. repeat split. Qed.



(** ** A reconnection attempt that succeeds *)

Lemma socket_opens_retry (a : nat) (s : CDPClient) (l : list attempt) :
  attempts s = l ++ [mkAttempt Retry false Discovering] -> a = List.length l ->
  deliver (WsOpen a) (deliver (SocketCreated a) s)
  = notify (_onReconnect s) EOnReconnect
      (log LogReconnected
         (set_attempts (l ++ [mkAttempt Retry true (Sock OPEN)])
            (set_retryCount 0
               (log LogConnected (set_ws (Some a) s))))).
Proof.
  intros Ha ->. rewrite !log_eq, notify_eq.
  destruct_client s; simpl in *; subst.
  unfold phaseOf; simpl. rewrite nth_error_snoc; simpl.
  unfold setPhase; simpl. rewrite updateAt_snoc; simpl.
  unfold phaseOf; simpl. rewrite nth_error_snoc; simpl.
  rewrite updateAt_snoc.
  unfold wsOnOpen, resolveConnect. rewrite log_eq; simpl.
  rewrite nth_error_snoc; simpl.
  unfold markSettled; simpl. rewrite updateAt_snoc; simpl.
  rewrite log_eq, notify_eq. reflexivity.
Qed.

Lemma firstn_snoc {A : Type} (l : list A) (x : A) :
  firstn (List.length l) (l ++ [x]) = l.
Proof. induction l; simpl; [reflexivity | now f_equal]. Qed.

Lemma skipn_snoc {A : Type} (l : list A) (x : A) :
  skipn (S (List.length l)) (l ++ [x]) = [].
Proof. induction l; simpl; [reflexivity | assumption]. Qed.

(** X4.  When a client waits for a retry timer and the attempt that the timer
    starts succeeds (the timer fires, the socket is created and opens), the
    session is established on the new socket, [isConnected] holds, the
    retry counter is back at 0, the onReconnect callback is called exactly
    once if one is registered, no further timer is armed and
    onReconnectFailed is not called. *)
Theorem successful_reconnect_restores_session (s : CDPClient) :
  awaitingRetry s = true ->
  let s' := successfulReconnect s in
  established (List.length (attempts s)) s' = true /\
  isConnected s' = true /\
  retryCount s' = 0 /\
  List.length (filter isReconnect (trace s'))
  = ((if _onReconnect s then 1 else 0) + List.length (filter isReconnect (trace s)))%nat /\
  scheduledDelays (trace s') = scheduledDelays (trace s) /\
  reconnectFailedCalls (trace s') = reconnectFailedCalls (trace s).
Proof.
  intros Ha. cbv zeta.
  destruct (awaitingRetry_inv s Ha) as (Hd & Hi & Hw & Hin & (h & d & Hrt & Hrts) & Hcb & Hct).
  unfold successfulReconnect. rewrite Hrt. cbv zeta.
  rewrite (retryTimer_fires h d s Hrts Hd Hi).
  rewrite (socket_opens_retry _ _ (attempts s)) by reflexivity.
  rewrite !log_eq, !notify_eq.
  unfold established, isConnected, readyState, phaseOf, scheduledDelays,
    reconnectFailedCalls.
  cbn [ws messageId callbacks port retryCount retryTimer intentionalDisconnect
       isDisposed options _onDisconnect _onReconnect _onReconnectFailed _onLog
       attempts retryTimers nextTimer callTimers trace
       set_ws set_retryCount set_retryTimer set_attempts set_retryTimers set_trace emit].
  rewrite Hd, Hi, Hct, Nat.eqb_refl, nth_error_snoc, firstn_snoc, skipn_snoc, Hin. simpl.
  destruct (_onLog s), (_onReconnect s); simpl; repeat split; reflexivity.
Qed.

Lemma successful_reconnect_restores_session_witness :
  let s' := successfulReconnect
              (failedReconnects [SocketFailure; DiscoveryFailure NoTargets]
                                reconnectingClient) in
  isConnected s' = true /\ retryCount s' = 0.
Proof.
  destruct (successful_reconnect_restores_session
              (failedReconnects [SocketFailure; DiscoveryFailure NoTargets]
                                reconnectingClient) eq_refl)
    as (_ & H2 & H3 & _).
  split; assumption.
Defined.

(** ** What a closure and a disconnect do to the pending calls *)

Lemma scheduleReconnect_frame (P : effect -> bool) (s : CDPClient) :
  (forall m, P (ELog m) = false) ->
  (forall h d, P (ESetRetryTimer h d) = false) ->
  P EOnReconnectFailed = false ->
  ws (scheduleReconnect s) = ws s /\
  callbacks (scheduleReconnect s) = callbacks s /\
  callTimers (scheduleReconnect s) = callTimers s /\
  attempts (scheduleReconnect s) = attempts s /\
  filter P (trace (scheduleReconnect s)) = filter P (trace s).
Proof.
  intros Hl Ht Hf.
  destruct (isDisposed s) eqn:Hd.
  { unfold scheduleReconnect. rewrite Hd, orb_true_r. auto. }
  destruct (intentionalDisconnect s) eqn:Hi.
  { unfold scheduleReconnect. rewrite Hi. auto. }
  destruct (Z_lt_le_dec (retryCount s) (maxRetries (options s))) as [Hlt|Hge].
  - rewrite (scheduleReconnect_arms s Hd Hi Hlt), log_eq. simpl.
    rewrite Ht. destruct (_onLog s); simpl; rewrite ?Hl; auto.
  - rewrite (scheduleReconnect_gives_up s Hd Hi Hge), log_eq, notify_eq. simpl.
    destruct (_onLog s), (_onReconnectFailed s); simpl; rewrite ?Hl, ?Hf; auto.
Qed.

Lemma filter_rejected_all (r : rejectReason) (l : list Z) (t : list effect) :
  filter isCallRejected (rev (map (fun id => ECallRejected id r) l) ++ t)
  = rev (map (fun id => ECallRejected id r) l) ++ filter isCallRejected t.
Proof. rewrite <- map_rev. induction (rev l); simpl; [reflexivity | now f_equal]. Qed.

Lemma filter_rejected_none (P : effect -> bool) (r : rejectReason) (l : list Z)
      (t : list effect) :
  (forall id, P (ECallRejected id r) = false) ->
  filter P (rev (map (fun id => ECallRejected id r) l) ++ t) = filter P t.
Proof.
  intros HP. rewrite <- map_rev.
  induction (rev l); simpl; [reflexivity | now rewrite HP].
Qed.

(** X5.  When the socket of an established session closes, every call that is
    pending is rejected with 'WebSocket connection closed', in the order of
    the table, the table and the timers of the calls are emptied, the socket
    handle is dropped, and the onDisconnect callback is called exactly once
    if one is registered. *)
Theorem closure_rejects_pending_calls (sock : nat) (s : CDPClient) :
  established sock s = true ->
  let s' := deliver (WsClose sock) s in
  callbacks s' = [] /\ callTimers s' = [] /\
  ws s' = None /\ isConnected s' = false /\
  filter isCallRejected (trace s')
  = rev (map (fun id => ECallRejected id ConnectionClosed) (callbacks s))
    ++ filter isCallRejected (trace s) /\
  List.length (filter isDisconnect (trace s'))
  = ((if _onDisconnect s then 1 else 0)
     + List.length (filter isDisconnect (trace s)))%nat.
Proof.
  intros He. cbv zeta. rewrite (closure_eq sock s He).
  match goal with |- context [scheduleReconnect ?t] => set (t0 := t) end.
  destruct (scheduleReconnect_frame isCallRejected t0) as (H1 & H2 & H3 & _ & H5);
    try reflexivity.
  destruct (scheduleReconnect_frame isDisconnect t0) as (_ & _ & _ & _ & H6);
    try reflexivity.
  unfold isConnected. rewrite H1, H2, H3, H5, H6. subst t0.
  rewrite !notify_eq, !log_eq. simpl.
  destruct (_onDisconnect s), (_onLog s); simpl;
    rewrite ?filter_rejected_all, ?(filter_rejected_none isDisconnect) by reflexivity;
    simpl; repeat split; reflexivity.
Qed.

Lemma closure_rejects_pending_calls_witness :
  filter isCallRejected (trace (deliver (WsClose 0) pendingClient))
  = [ECallRejected 1 ConnectionClosed].
Proof.
  destruct (closure_rejects_pending_calls 0%nat pendingClient eq_refl)
    as (_ & _ & _ & _ & H & _).
  rewrite H. reflexivity.
Defined.

Lemma timers_subset (l : list Z) : forall (c : list Z) (x : Z),
  In x (fold_left (fun ct k => mapDelete k ct) l c) -> In x c.
Proof.
  induction l as [|a l IH]; intros c x H; simpl in H; [exact H|].
  apply IH in H. apply mapDelete_In in H. tauto.
Qed.

Lemma timers_deleted (l : list Z) : forall (cts : list Z) (id : Z),
  In id l -> ~ In id (fold_left (fun ct k => mapDelete k ct) l cts).
Proof.
  induction l as [|a l IH]; intros cts id Hl Hin; simpl in *; [contradiction|].
  destruct Hl as [Ha|Hl].
  - subst a. apply timers_subset in Hin. apply mapDelete_In in Hin. tauto.
  - exact (IH _ _ Hl Hin).
Qed.

(** X6.  [disconnect()] on a client that is not disposed does exactly this:
    it rejects every pending call with 'Client disconnected intentionally'
    (in the order of the table, their timers cleared), then closes the
    socket if there is one; afterwards the table is empty, the socket handle
    and the retry timer are null, the retry timer that was armed is
    cleared, the flag is set, and the id counter and the retry counter are
    as before. *)
Theorem disconnect_cleans_up (s : CDPClient) :
  isDisposed s = false ->
  let s' := disconnect s in
  trace s'
  = match ws s with Some sock => [EWsClose sock] | None => [] end
    ++ rev (map (fun id => ECallRejected id DisconnectedIntentionally) (callbacks s))
    ++ trace s /\
  callbacks s' = [] /\ ws s' = None /\ retryTimer s' = None /\
  intentionalDisconnect s' = true /\
  (forall h, retryTimer s = Some h -> retryTimerArmed h s' = false) /\
  (forall id, In id (callbacks s) -> ~ In id (callTimers s')) /\
  messageId s' = messageId s /\ retryCount s' = retryCount s.
Proof.
  intros Hd. cbv zeta.
  destruct (disconnect_done s Hd) as (_ & Hi & Hrt & Hcb & Hw).
  assert (Hshape :
    trace (disconnect s)
    = match ws s with Some sock => [EWsClose sock] | None => [] end
      ++ rev (map (fun id => ECallRejected id DisconnectedIntentionally) (callbacks s))
      ++ trace s /\
    callTimers (disconnect s)
    = fold_left (fun ct k => mapDelete k ct) (callbacks s) (callTimers s) /\
    retryTimers (disconnect s)
    = match retryTimer s with
      | Some h => filter (fun t => negb (Nat.eqb h (fst t))) (retryTimers s)
      | None => retryTimers s
      end /\
    retryCount (disconnect s) = retryCount s).
  { unfold disconnect. rewrite Hd. rewrite rejectAllPending_eq.
    destruct_client s. simpl in *. subst dsp.
    destruct rt as [h|]; destruct w as [sock|]; simpl; unfold wsClose; simpl;
      try (destruct (readyState _ _)); simpl; repeat split; reflexivity. }
  destruct Hshape as (Ht & Hct & Hrts & Hrc).
  repeat split; auto.
  - intros h Hh. unfold retryTimerArmed. rewrite Hrts, Hh. clear.
    induction (retryTimers s) as [|[k d] r IH]; simpl; [reflexivity|].
    destruct (Nat.eqb_spec h k); simpl; [exact IH|].
    destruct (Nat.eqb_spec h k); [contradiction | exact IH].
  - intros id Hin. rewrite Hct. now apply timers_deleted.
  - apply messageId_disconnect.
Qed.

Lemma disconnect_cleans_up_witness :
  trace (disconnect pendingClient)
  = [EWsClose 0; ECallRejected 1 DisconnectedIntentionally] ++ trace pendingClient.
Proof.
  destruct (disconnect_cleans_up pendingClient eq_refl) as (H & _).
  rewrite H. reflexivity.
Defined.

(** ** A call and its answer *)

Lemma mapDelete_fresh (id : Z) (l : list Z) : ~ In id l -> mapDelete id l = l.
Proof.
  intros H. unfold mapDelete. induction l as [|a l IH]; simpl; [reflexivity|].
  destruct (Z.eqb_spec id a) as [->|Hne]; simpl.
  - elim H. now left.
  - f_equal. apply IH. intros Hin. apply H. now right.
Qed.

Lemma mapDelete_mapSet (id : Z) (l : list Z) :
  ~ In id l -> mapDelete id (mapSet id l) = l.
Proof.
  intros H. unfold mapSet. rewrite (proj2 (has_false id l) H).
  unfold mapDelete. rewrite filter_app. simpl. rewrite Z.eqb_refl. simpl.
  rewrite app_nil_r. now apply mapDelete_fresh.
Qed.

(** What a [send] that goes through leaves behind. *)
Lemma send_ok_shape (m : string) (s s1 : CDPClient) (id : Z) :
  send m false s = (inr id, s1) ->
  exists sock,
    ws s = Some sock /\ phaseOf sock s = Some (Sock OPEN) /\
    id = messageId s /\
    s1 = emit (EWsSend sock id m)
           (set_callbacks (mapSet id (callbacks s))
              (set_callTimers (callTimers s ++ [id])
                 (emit (ECallCreated id) (set_messageId (id + 1) s)))).
Proof.
  unfold send.
  destruct (isDisposed s); [discriminate|].
  destruct (String.eqb m ""); [discriminate|].
  destruct (ws s) as [sock|] eqn:Hw; [|discriminate].
  unfold readyState.
  destruct (phaseOf sock s) as [[| [] |]|] eqn:Hp; simpl; try discriminate.
  intros H. inversion H; subst. exists sock. repeat split; auto.
Qed.

(** X7.  In every state that a client reaches from [new CDPClient(options)]:
    when [send] succeeds with id [id] and the reply frame with that id
    arrives, the effects are, in order, the creation of the call, the frame
    sent on the socket, and one settlement (a rejection for an error reply,
    else the resolution with the result); the table is as before the call,
    the timer of the call is cleared, the counter has moved by one, the
    session is still connected, and a second copy of the reply changes
    nothing. *)
Theorem send_then_reply_round_trip
        (o : CDPClientOptions) (evs : list event)
        (m : string) (err : bool) (v : option string) (id : Z) (s1 : CDPClient) :
  let s := run evs (newClient o) in
  send m false s = (inr id, s1) ->
  exists sock,
    ws s = Some sock /\
    let s2 := deliver (WsMessage sock (RawText (Json (Some id) err v))) s1 in
    trace s2
    = (if err then ECallRejected id CDPErrorReply else ECallResolved id v)
      :: EWsSend sock id m :: ECallCreated id :: trace s /\
    callbacks s2 = callbacks s /\
    ~ In id (callTimers s2) /\
    messageId s2 = messageId s + 1 /\
    isConnected s2 = true /\
    deliver (WsMessage sock (RawText (Json (Some id) err v))) s2 = s2.
Proof.
  cbv zeta. intros Hs.
  assert (Hok : callsOk (calls (run evs (newClient o)))) by (apply ok_run, ok_newClient).
  revert Hs Hok. generalize (run evs (newClient o)). intros s Hs Hok.
  destruct (send_ok_shape m s s1 id Hs) as (sock & Hw & Hp & Hid & ->).
  exists sock. split; [exact Hw|].
  unfold calls, callsOk in Hok. rewrite created_filter in Hok.
  destruct Hok as (_ & Hlt & _ & Hsub & _ & _).
  assert (Hfresh : ~ In id (callbacks s)).
  { intros H. apply Hsub, Hlt in H. lia. }
  assert (Hin : has id (mapSet id (callbacks s)) = true).
  { apply has_In. unfold mapSet. rewrite (proj2 (has_false _ _) Hfresh).
    apply in_or_app. right. now left. }
  assert (Hgone : has id (mapDelete id (mapSet id (callbacks s))) = false).
  { apply has_false. intros H. apply mapDelete_In in H. tauto. }
  set (s1 := emit (EWsSend sock id m) _) in *.
  assert (Hp1 : phaseOf sock s1 = Some (Sock OPEN)) by exact Hp.
  assert (Hd2 : deliver (WsMessage sock (RawText (Json (Some id) err v))) s1
                = emit (if err then ECallRejected id CDPErrorReply else ECallResolved id v)
                    (set_callbacks (mapDelete id (callbacks s1)) (clearCallTimer id s1))).
  { unfold deliver. rewrite Hp1. unfold handleMessage.
    change (callbacks s1) with (mapSet id (callbacks s)). rewrite Hin.
    destruct err; reflexivity. }
  cbv zeta. rewrite Hd2.
  split; [reflexivity|].
  split; [cbn [callbacks emit set_trace set_callbacks];
          change (callbacks s1) with (mapSet id (callbacks s));
          now rewrite mapDelete_mapSet|].
  split; [cbn [callTimers emit set_trace set_callbacks clearCallTimer set_callTimers];
          intros H; apply mapDelete_In in H; tauto|].
  split; [change (id + 1 = messageId s + 1); now rewrite <- Hid|].
  split.
  - unfold isConnected, readyState.
    cbn [ws emit set_trace set_callbacks clearCallTimer set_callTimers set_messageId].
    change (ws s1) with (ws s). rewrite Hw.
    match goal with |- context [phaseOf sock ?t] =>
      change (phaseOf sock t) with (phaseOf sock s) end.
    rewrite Hp. reflexivity.
  - unfold deliver.
    match goal with |- context [phaseOf sock ?t] =>
      change (phaseOf sock t) with (phaseOf sock s) end.
    rewrite Hp. unfold handleMessage.
    cbn [callbacks emit set_trace set_callbacks clearCallTimer set_callTimers
         set_messageId].
    change (callbacks s1) with (mapSet id (callbacks s)).
    rewrite Hgone. reflexivity.
Qed.

Lemma send_then_reply_round_trip_witness :
  let s := run twoCalls (newClient DEFAULT_OPTIONS) in
  let s1 := snd (send "Runtime.evaluate" false s) in
  exists sock,
    ws s = Some sock /\
    callbacks (deliver (WsMessage sock (RawText (Json (Some 3) false None))) s1)
    = callbacks s.
Proof.
  cbv zeta.
  destruct (send_then_reply_round_trip DEFAULT_OPTIONS twoCalls
              "Runtime.evaluate"%string false None 3
              (snd (send "Runtime.evaluate" false (run twoCalls (newClient DEFAULT_OPTIONS)))))
    as (sock & Hw & _ & Hc & _).
  - vm_compute. reflexivity.
  - exists sock. split; assumption.
Defined.

(** X8.  In every state that a client reaches from [new CDPClient(options)]:
    when [send] succeeds with id [id] and the timer of the call fires
    before a reply, the call is rejected with the timeout error, the table
    is as before the call, the session is still connected, and neither a
    late reply with that id nor a second firing of the timer changes
    anything. *)
Theorem unanswered_call_times_out
        (o : CDPClientOptions) (evs : list event)
        (m : string) (id : Z) (s1 : CDPClient) :
  let s := run evs (newClient o) in
  send m false s = (inr id, s1) ->
  exists sock,
    ws s = Some sock /\
    let s2 := deliver (CallTimerFires id) s1 in
    trace s2
    = ECallRejected id CallTimedOut
      :: EWsSend sock id m :: ECallCreated id :: trace s /\
    callbacks s2 = callbacks s /\
    ~ In id (callTimers s2) /\
    isConnected s2 = true /\
    (forall err v,
        deliver (WsMessage sock (RawText (Json (Some id) err v))) s2 = s2) /\
    deliver (CallTimerFires id) s2 = s2.
Proof.
  cbv zeta. intros Hs.
  assert (Hok : callsOk (calls (run evs (newClient o)))) by (apply ok_run, ok_newClient).
  revert Hs Hok. generalize (run evs (newClient o)). intros s Hs Hok.
  destruct (send_ok_shape m s s1 id Hs) as (sock & Hw & Hp & Hid & ->).
  exists sock. split; [exact Hw|].
  unfold calls, callsOk in Hok. rewrite created_filter in Hok.
  destruct Hok as (_ & Hlt & _ & Hsub & _ & _).
  assert (Hfresh : ~ In id (callbacks s)).
  { intros H. apply Hsub, Hlt in H. lia. }
  assert (Hin : has id (mapSet id (callbacks s)) = true).
  { apply has_In. unfold mapSet. rewrite (proj2 (has_false _ _) Hfresh).
    apply in_or_app. right. now left. }
  assert (Hgone : has id (mapDelete id (mapSet id (callbacks s))) = false).
  { apply has_false. intros H. apply mapDelete_In in H. tauto. }
  assert (Htm : has id (callTimers s ++ [id]) = true).
  { apply has_In, in_or_app. right. now left. }
  assert (Htg : has id (mapDelete id (callTimers s ++ [id])) = false).
  { apply has_false. intros H. apply mapDelete_In in H. tauto. }
  set (s1 := emit (EWsSend sock id m) _) in *.
  assert (Hd2 : deliver (CallTimerFires id) s1
                = emit (ECallRejected id CallTimedOut)
                    (set_callbacks (mapDelete id (callbacks s1)) (clearCallTimer id s1))).
  { unfold deliver. change (callTimers s1) with (callTimers s ++ [id]). rewrite Htm.
    unfold callTimeoutCallback.
    change (callbacks (clearCallTimer id s1)) with (mapSet id (callbacks s)).
    rewrite Hin. reflexivity. }
  cbv zeta. rewrite Hd2.
  split; [reflexivity|].
  split; [cbn [callbacks emit set_trace set_callbacks];
          change (callbacks s1) with (mapSet id (callbacks s));
          now rewrite mapDelete_mapSet|].
  split; [cbn [callTimers emit set_trace set_callbacks clearCallTimer set_callTimers];
          intros H; apply mapDelete_In in H; tauto|].
  split; [|split].
  - unfold isConnected, readyState.
    cbn [ws emit set_trace set_callbacks clearCallTimer set_callTimers set_messageId].
    change (ws s1) with (ws s). rewrite Hw.
    match goal with |- context [phaseOf sock ?t] =>
      change (phaseOf sock t) with (phaseOf sock s) end.
    rewrite Hp. reflexivity.
  - intros err v. unfold deliver.
    match goal with |- context [phaseOf sock ?t] =>
      change (phaseOf sock t) with (phaseOf sock s) end.
    rewrite Hp. unfold handleMessage.
    cbn [callbacks emit set_trace set_callbacks clearCallTimer set_callTimers set_messageId].
    change (callbacks s1) with (mapSet id (callbacks s)).
    rewrite Hgone. reflexivity.
  - unfold deliver.
    cbn [callTimers emit set_trace set_callbacks clearCallTimer set_callTimers set_messageId].
    change (callTimers s1) with (callTimers s ++ [id]).
    rewrite Htg. reflexivity.
Qed.

Lemma unanswered_call_times_out_witness :
  let s := run twoCalls (newClient DEFAULT_OPTIONS) in
  let s1 := snd (send "Runtime.evaluate" false s) in
  exists sock,
    ws s = Some sock /\ callbacks (deliver (CallTimerFires 3) s1) = callbacks s.
Proof.
  cbv zeta.
  destruct (unanswered_call_times_out DEFAULT_OPTIONS twoCalls
              "Runtime.evaluate"%string 3
              (snd (send "Runtime.evaluate" false (run twoCalls (newClient DEFAULT_OPTIONS)))))
    as (sock & Hw & _ & Hc & _).
  - vm_compute. reflexivity.
  - exists sock. split; assumption.
Defined.

End CdpProofs.
(** * Properties of the action script *)
Module ScriptProofs.
Import Script.

Lemma equal_eq (a b : DOMString) : equal a b = true <-> a = b.
Proof.
  revert b. induction a as [|x a IH]; intros [|y b]; simpl; split; intros H;
    try reflexivity; try discriminate.
  - apply andb_true_iff in H. destruct H as [Hx Ha].
    apply Z.eqb_eq in Hx. apply IH in Ha. now subst.
  - injection H as -> ->. rewrite Z.eqb_refl. simpl. now apply IH.
Qed.

Lemma includes_empty (s : DOMString) : includes s [] = true.
Proof. destruct s; reflexivity. Qed.

Section Platform.

Variable toLowerCase : DOMString -> DOMString.

(** The loop stops at the first visible button with a target text. *)
Lemma scan_first_candidate
      (blockedCmds : list DOMString) (pt : DOMString) (bs : list Element) :
  scan toLowerCase blockedCmds pt bs
  = match filter (fun b => existsb (equal (textOf toLowerCase b)) targetTexts
                           && visible b) bs with
    | [] => (units "none", None)
    | b :: _ => act toLowerCase blockedCmds pt b
    end.
Proof.
  induction bs as [|b r IH]; [reflexivity|].
  cbn [scan filter].
  destruct (existsb (equal (textOf toLowerCase b)) targetTexts && visible b);
    [reflexivity | exact IH].
Qed.

(** What the script can return. *)
Lemma actionScript_shape (blockedCmds : list DOMString) (d : Document) :
  actionScript toLowerCase blockedCmds d = (units "none", None)
  /\ candidates toLowerCase d = []
  \/ (exists b rest,
         candidates toLowerCase d = b :: rest /\
         actionScript toLowerCase blockedCmds d
         = (units "clicked_" ++ textOf toLowerCase b, Some b) /\
         (textOf toLowerCase b = units "run" ->
          firstBlocked (pageText d) blockedCmds = None))
  \/ (exists b rest c,
         candidates toLowerCase d = b :: rest /\
         textOf toLowerCase b = units "run" /\
         firstBlocked (pageText d) blockedCmds = Some c /\
         actionScript toLowerCase blockedCmds d = (units "blocked: " ++ c, None)).
Proof.
  unfold actionScript, candidates.
  destruct (body d) as [bd|] eqn:Hb; [|left; auto].
  rewrite scan_first_candidate.
  destruct (filter _ (findAllButtons (all bd))) as [|b rest] eqn:Hf; [left; auto|].
  right. unfold act.
  destruct (equal (textOf toLowerCase b) (units "run")) eqn:Hrun.
  - apply equal_eq in Hrun.
    destruct (firstBlocked (pageText d) blockedCmds) as [c|] eqn:Hc.
    + right. exists b, rest, c. auto.
    + left. exists b, rest. auto.
  - left. exists b, rest. repeat split; auto.
    intros H. apply equal_eq in H. rewrite H in Hrun. discriminate.
Qed.

(** C2, amended.  When the first candidate in document order -- the first
    visible button whose text is accept, run, retry or apply -- is
    run-labelled and the page text contains a substring of the blocked
    list, the script yields 'blocked: ' followed by the first such
    substring of the list, and clicks nothing.  This holds whatever the
    case conversion of the platform does. *)
Theorem block_preempts_click_of_run
        (blockedCmds : list DOMString) (d : Document)
        (c : Element) (rest : list Element) (blocked : DOMString) :
  candidates toLowerCase d = c :: rest ->
  textOf toLowerCase c = units "run" ->
  firstBlocked (pageText d) blockedCmds = Some blocked ->
  actionScript toLowerCase blockedCmds d = (units "blocked: " ++ blocked, None)
  /\ In blocked blockedCmds /\ includes (pageText d) blocked = true.
Proof.
  intros Hc Hrun Hb. split.
  - unfold actionScript, candidates in *.
    destruct (body d) as [bd|]; [|discriminate].
    rewrite scan_first_candidate, Hc. unfold act. rewrite Hrun, Hb. reflexivity.
  - unfold firstBlocked in Hb. apply find_some in Hb. exact Hb.
Qed.

End Platform.

(** C2, as the claim puts it, fails: the page shows an 'Accept' button
    before the 'Run' button and its text contains the blocked substring;
    a run-labelled candidate is present, yet the script clicks 'Accept'
    and reports a click, not a block.  The texts of the page are ASCII. *)
Lemma block_does_not_preempt_earlier_candidate :
  includes (pageText acceptThenRunPage) (units "rm -rf /") = true /\
  In runButton (candidates toLowerCaseASCII acceptThenRunPage) /\
  textOf toLowerCaseASCII runButton = units "run" /\
  actionScript toLowerCaseASCII [units "rm -rf /"] acceptThenRunPage
  = (units "clicked_accept", Some acceptButton).
Proof. vm_compute. repeat split. right. left. reflexivity. Qed.

Lemma block_preempts_click_of_run_witness :
  actionScript toLowerCaseASCII [units "format"; units "rm -rf /"] runPage
  = (units "blocked: " ++ units "rm -rf /", None)
  /\ In (units "rm -rf /") [units "format"; units "rm -rf /"]
  /\ includes (pageText runPage) (units "rm -rf /") = true.
Proof.
  apply (block_preempts_click_of_run toLowerCaseASCII
           [units "format"; units "rm -rf /"] runPage
           runButton [] (units "rm -rf /")); reflexivity.
Defined.


(** ** What the script clicks *)

(** Induction over an element and the elements of its shadow root. *)
Lemma Element_shadow_ind (P : Element -> Prop) :
  (forall t r c tc it rect sh,
      (forall items, sh = Some items -> Forall P items) ->
      P (mkElement t r c tc it rect sh)) ->
  forall e, P e.
Proof.
  intros step. fix IH 1. intros [t r c tc it rect [l|]]; apply step.
  - intros items H. injection H as <-.
    induction l as [|x k IHk]; constructor; [apply IH | exact IHk].
  - intros items H. discriminate.
Qed.

Lemma buttonsOf_eq (e : Element) :
  buttonsOf e
  = (if isButton e then [e] else [])
    ++ match shadowRoot e with Some items => findAllButtons items | None => [] end.
Proof. destruct e as [t r c tc it rect [l|]]; reflexivity. Qed.

Lemma buttonsOf_buttons (e : Element) :
  forall b, In b (buttonsOf e) -> isButton b = true.
Proof.
  induction e as [t r c tc it rect sh IH] using Element_shadow_ind.
  intros b Hb. rewrite buttonsOf_eq in Hb. apply in_app_or in Hb.
  destruct Hb as [Hb|Hb].
  - destruct (isButton (mkElement t r c tc it rect sh)) eqn:He; [|contradiction].
    destruct Hb as [<-|[]]. exact He.
  - simpl in Hb. destruct sh as [items|]; [|contradiction].
    specialize (IH items eq_refl). unfold findAllButtons in Hb.
    apply in_flat_map in Hb. destruct Hb as (x & Hx & Hbx).
    rewrite Forall_forall in IH. exact (IH x Hx b Hbx).
Qed.

Lemma findAllButtons_buttons (items : list Element) :
  forall b, In b (findAllButtons items) -> isButton b = true.
Proof.
  intros b Hb. unfold findAllButtons in Hb. apply in_flat_map in Hb.
  destruct Hb as (x & _ & Hbx). exact (buttonsOf_buttons x b Hbx).
Qed.

(** The buttons of a shadow root are found, however deep it is nested. *)
Lemma findAllButtons_shadow (items inner : list Element) (host b : Element) :
  In host items -> shadowRoot host = Some inner ->
  In b (findAllButtons inner) -> In b (findAllButtons items).
Proof.
  intros Hh Hs Hb. unfold findAllButtons. apply in_flat_map.
  exists host. split; [exact Hh|]. rewrite buttonsOf_eq, Hs.
  apply in_or_app. now right.
Qed.

Lemma findAllButtons_direct (items : list Element) (b : Element) :
  In b items -> isButton b = true -> In b (findAllButtons items).
Proof.
  intros Hb Hi. unfold findAllButtons. apply in_flat_map.
  exists b. split; [exact Hb|]. rewrite buttonsOf_eq, Hi. now left.
Qed.

Lemma buttonsOf_reaches (e : Element) :
  forall b, In b (buttonsOf e) ->
            b = e \/ exists inner, shadowRoot e = Some inner /\ reaches inner b.
Proof.
  induction e as [t r c tc it rect sh IH] using Element_shadow_ind.
  intros b Hb. rewrite buttonsOf_eq in Hb. apply in_app_or in Hb.
  destruct Hb as [Hb|Hb].
  - destruct (isButton _); [|contradiction]. destruct Hb as [<-|[]]. now left.
  - simpl in Hb. destruct sh as [items|]; [|contradiction].
    right. exists items. split; [reflexivity|].
    specialize (IH items eq_refl). rewrite Forall_forall in IH.
    unfold findAllButtons in Hb. apply in_flat_map in Hb.
    destruct Hb as (x & Hx & Hbx).
    destruct (IH x Hx b Hbx) as [->|(inner & Hs & Hr)].
    + now apply reach_here.
    + exact (reach_shadow items x inner b Hx Hs Hr).
Qed.

(** X9.  [findAllButtons] returns exactly the elements of the root, or of a
    shadow root nested at any depth below one of them, that are buttons (a
    BUTTON tag, role 'button', or the class 'cursor-pointer'). *)
Theorem findAllButtons_finds_shadow_buttons (items : list Element) (b : Element) :
  In b (findAllButtons items) <-> reaches items b /\ isButton b = true.
Proof.
  split.
  - intros Hb. split; [|exact (findAllButtons_buttons items b Hb)].
    unfold findAllButtons in Hb. apply in_flat_map in Hb.
    destruct Hb as (x & Hx & Hbx).
    destruct (buttonsOf_reaches x b Hbx) as [->|(inner & Hs & Hr)].
    + now apply reach_here.
    + exact (reach_shadow items x inner b Hx Hs Hr).
  - intros [Hr Hi]. induction Hr as [items b Hb | items host inner b Hh Hs Hr IH].
    + now apply findAllButtons_direct.
    + exact (findAllButtons_shadow items inner host b Hh Hs (IH Hi)).
Qed.

Lemma findAllButtons_finds_shadow_buttons_witness :
  In runButton (findAllButtons [mkElement "DIV" None [] [] None (mkRect 0 0)
                                  (Some [mkElement "SPAN" None [] [] None (mkRect 0 0)
                                           (Some [runButton])])]).
Proof.
  apply (proj2 (findAllButtons_finds_shadow_buttons _ runButton)).
  split; [|reflexivity].
  eapply reach_shadow; [left; reflexivity | reflexivity |].
  eapply reach_shadow; [left; reflexivity | reflexivity |].
  apply reach_here. left. reflexivity.
Defined.

Section Platform.

Variable toLowerCase : DOMString -> DOMString.

(** X10.  Whenever the action script clicks an element, it returns
    'clicked_' followed by the element's text; the element is one that
    [findAllButtons] found in the body, it is a button, it has a positive
    width and height, its trimmed lower-case text is one of accept, run,
    retry, apply, it is the first such element, and if its text is 'run'
    then no blocked command occurs in the text of the page.  This holds
    whatever the case conversion of the platform does. *)
Theorem script_clicks_only_safe_candidates
        (blockedCmds : list DOMString) (d : Document) (out : DOMString) (b : Element) :
  actionScript toLowerCase blockedCmds d = (out, Some b) ->
  out = units "clicked_" ++ textOf toLowerCase b /\
  (exists bd, body d = Some bd /\ In b (findAllButtons (all bd))) /\
  isButton b = true /\ visible b = true /\
  In (textOf toLowerCase b) targetTexts /\
  (exists rest, candidates toLowerCase d = b :: rest) /\
  (textOf toLowerCase b = units "run" ->
   forall c, In c blockedCmds -> includes (pageText d) c = false).
Proof.
  intros H.
  destruct (actionScript_shape toLowerCase blockedCmds d)
    as [[Hn _] | [(b' & rest & Hc & Ha & Hsafe) | (b' & rest & c & _ & _ & _ & Ha)]];
    rewrite H in *; try discriminate.
  inversion Ha; subst b' out. clear Ha.
  assert (Hin : In b (candidates toLowerCase d)) by (rewrite Hc; now left).
  unfold candidates in Hin. destruct (body d) as [bd|] eqn:Hb; [|contradiction].
  apply filter_In in Hin. destruct Hin as [Hin Hp].
  apply andb_true_iff in Hp. destruct Hp as [Ht Hv].
  split; [reflexivity|]. split; [exists bd; auto|].
  split; [exact (findAllButtons_buttons _ b Hin)|]. split; [exact Hv|].
  split.
  { apply existsb_exists in Ht. destruct Ht as (x & Hx & He).
    apply equal_eq in He. now subst. }
  split; [exists rest; exact Hc|].
  intros Hrun c Hcin. specialize (Hsafe Hrun). unfold firstBlocked in Hsafe.
  exact (find_none _ _ Hsafe c Hcin).
Qed.

(** X11.  The edges of the blocked list.  A list that contains the empty string
    blocks every 'run' button; with an empty list a run of the script that
    clicks nothing returns 'none'; a document without a body gives 'none';
    and a run that clicks nothing returns either 'none', there being no
    candidate, or 'blocked: ' followed by a command of the list that
    occurs in the text of the page.  This holds whatever the case
    conversion of the platform does. *)
Theorem blocked_list_edge_cases (blockedCmds : list DOMString) (d : Document) :
  (In [] blockedCmds ->
   forall out b, actionScript toLowerCase blockedCmds d = (out, Some b) ->
                 textOf toLowerCase b <> units "run") /\
  (forall out, actionScript toLowerCase [] d = (out, None) -> out = units "none") /\
  (body d = None -> actionScript toLowerCase blockedCmds d = (units "none", None)) /\
  (forall out, actionScript toLowerCase blockedCmds d = (out, None) ->
     out = units "none" /\ candidates toLowerCase d = []
     \/ exists c, out = units "blocked: " ++ c /\ In c blockedCmds /\
                  includes (pageText d) c = true).
Proof.
  split; [|split; [|split]].
  - intros Hin out b H Hrun.
    destruct (actionScript_shape toLowerCase blockedCmds d)
      as [[Hn _] | [(b' & rest & _ & Ha & Hsafe) | (b' & rest & c & _ & _ & _ & Ha)]];
      rewrite H in *; try discriminate.
    inversion Ha; subst b' out. specialize (Hsafe Hrun). unfold firstBlocked in Hsafe.
    assert (Hs := find_none _ _ Hsafe [] Hin). cbv beta in Hs.
    rewrite includes_empty in Hs. discriminate.
  - intros out H.
    destruct (actionScript_shape toLowerCase [] d)
      as [[Hn _] | [(b' & rest & _ & Ha & _) | (b' & rest & c & _ & _ & Hc & _)]].
    + rewrite H in Hn. now inversion Hn.
    + rewrite H in Ha. discriminate.
    + discriminate.
  - intros Hb. unfold actionScript. now rewrite Hb.
  - intros out H.
    destruct (actionScript_shape toLowerCase blockedCmds d)
      as [[Hn Hc] | [(b' & rest & _ & Ha & _) | (b' & rest & c & _ & _ & Hc & Ha)]].
    + rewrite H in Hn. inversion Hn. now left.
    + rewrite H in Ha. discriminate.
    + rewrite H in Ha. inversion Ha. right. exists c. split; [reflexivity|].
      unfold firstBlocked in Hc. apply find_some in Hc. exact Hc.
Qed.

End Platform.

Lemma script_clicks_only_safe_candidates_witness :
  textOf toLowerCaseASCII acceptButton = units "accept" /\ visible acceptButton = true.
Proof.
  destruct (script_clicks_only_safe_candidates toLowerCaseASCII
              [units "rm -rf /"] acceptThenRunPage
              (units "clicked_accept") acceptButton eq_refl)
    as (_ & _ & _ & Hv & _).
  split; [reflexivity | exact Hv].
Defined.

Lemma blocked_list_edge_cases_witness :
  units "blocked: " = units "none" /\ candidates toLowerCaseASCII runPage = []
  \/ exists c, units "blocked: " = units "blocked: " ++ c /\ In c [[]] /\
               includes (pageText runPage) c = true.
Proof.
  apply (proj2 (proj2 (proj2 (blocked_list_edge_cases toLowerCaseASCII [[]] runPage)))).
  vm_compute. reflexivity.
Defined.

End ScriptProofs.

(** * Properties of the Action Supervisor *)
Module SupervisorProofs.
Import Supervisor.

(** What leaves the guard alone. *)
Lemma guard_set_cdp v s : guard (set_cdp v s) = guard s.
Proof. reflexivity. Qed.
Lemma guard_set_isRunning v s : guard (set_isRunning v s) = guard s.
Proof. reflexivity. Qed.
Lemma guard_set_isDisposed v s : guard (set_isDisposed v s) = guard s.
Proof. reflexivity. Qed.
Lemma guard_set_pollInterval v s : guard (set_pollInterval v s) = guard s.
Proof. reflexivity. Qed.
Lemma guard_set_intervals v s : guard (set_intervals v s) = guard s.
Proof. reflexivity. Qed.
Lemma guard_set_nextInterval v s : guard (set_nextInterval v s) = guard s.
Proof. reflexivity. Qed.
Lemma guard_set_startAwaits v s : guard (set_startAwaits v s) = guard s.
Proof. reflexivity. Qed.
Lemma guard_set_ui v s : guard (set_ui v s) = guard s.
Proof. reflexivity. Qed.
Lemma guard_show e s : guard (show e s) = guard s.
Proof. reflexivity. Qed.
Lemma guard_withCdp f s : guard (withCdp f s) = guard s.
Proof. reflexivity. Qed.
Lemma guard_flush s : guard (flush s) = guard s.
Proof. reflexivity. Qed.

Lemma guard_log l s : guard (log l s) = guard s.
Proof. unfold log. destruct (isDisposed s); reflexivity. Qed.

Lemma guard_updateStatusBar st s : guard (updateStatusBar st s) = guard s.
Proof. unfold updateStatusBar. destruct (isDisposed s); reflexivity. Qed.

Lemma guard_resumePolling s : guard (resumePolling s) = guard s.
Proof. unfold resumePolling. destruct (isDisposed s), (pollInterval s); reflexivity. Qed.

Lemma guard_pausePolling s : guard (pausePolling s) = guard s.
Proof. unfold pausePolling. destruct (pollInterval s); reflexivity. Qed.

Create Rewrite HintDb guard_frame.
#[local] Hint Rewrite guard_set_cdp guard_set_isRunning guard_set_isDisposed
  guard_set_pollInterval guard_set_intervals guard_set_nextInterval
  guard_set_startAwaits guard_set_ui guard_show guard_withCdp guard_flush guard_log
  guard_updateStatusBar guard_resumePolling guard_pausePolling : guard_frame.

Ltac guard_frame := cbv zeta; autorewrite with guard_frame; try reflexivity.

Lemma guard_cdpOnDisconnect s : guard (cdpOnDisconnect s) = guard s.
Proof. unfold cdpOnDisconnect. destruct (isDisposed s); guard_frame. Qed.

Lemma guard_cdpOnReconnect s : guard (cdpOnReconnect s) = guard s.
Proof. unfold cdpOnReconnect. destruct (isDisposed s); guard_frame. Qed.

Lemma guard_cdpOnReconnectFailed s : guard (cdpOnReconnectFailed s) = guard s.
Proof. unfold cdpOnReconnectFailed. destruct (isDisposed s); guard_frame. Qed.

Lemma guard_startConnected s : guard (startConnected s) = guard s.
Proof. unfold startConnected. guard_frame. Qed.

Lemma guard_startFailed e s : guard (startFailed e s) = guard s.
Proof. unfold startFailed. guard_frame. Qed.

Lemma guard_callback e s : guard (callback e s) = guard s.
Proof.
  destruct e; simpl; try reflexivity.
  - apply guard_log.
  - apply guard_cdpOnDisconnect.
  - apply guard_cdpOnReconnect.
  - apply guard_cdpOnReconnectFailed.
Qed.

Lemma guard_start s : guard (start s) = guard s.
Proof.
  unfold start. destruct (isDisposed s); [apply guard_log|].
  destruct (isRunning s); [reflexivity|]. cbv zeta.
  destruct (Cdp.connect 9222 (cdp (log LogConnecting s))) as [[err|a] c].
  - now rewrite guard_startFailed, guard_set_cdp, guard_log.
  - now rewrite guard_set_startAwaits, guard_set_cdp, guard_log.
Qed.

Lemma guard_stop s : guard (stop s) = guard s.
Proof. unfold stop. destruct (isDisposed s); guard_frame. Qed.

Lemma guard_toggle s : guard (toggle s) = guard s.
Proof.
  unfold toggle. destruct (isDisposed s); [apply guard_log|].
  destruct (isRunning s); [apply guard_stop | apply guard_start].
Qed.

Lemma guard_dispose s : guard (dispose s) = guard s.
Proof. unfold dispose. destruct (isDisposed s); guard_frame. Qed.

(** The two ways out of the guarded region clear the flag. *)
Lemma pollResolved_guard v s : guard (pollResolved v s) = (false, pollAwaits s).
Proof.
  unfold pollResolved, pollFinally, guard. cbv zeta.
  cbn [isPollInProgress pollAwaits set_isPollInProgress].
  repeat match goal with |- context [if ?b then _ else _] => destruct b end;
  match goal with |- (_, pollAwaits ?t) = _ =>
    change (pollAwaits t) with (snd (guard t)) end;
  autorewrite with guard_frame; reflexivity.
Qed.

Lemma pollRejected_guard e s : guard (pollRejected e s) = (false, pollAwaits s).
Proof.
  unfold pollRejected, pollFinally, guard.
  cbn [isPollInProgress pollAwaits set_isPollInProgress].
  change (pollAwaits (log (LogPollError e) s)) with (snd (guard (log (LogPollError e) s))).
  now rewrite guard_log.
Qed.

Lemma guardOk_woken (id : Z) (flag : bool) (awaits : list Z) :
  guardOk (flag, awaits) = true -> Cdp.has id awaits = true ->
  guardOk (false, Cdp.mapDelete id awaits) = true.
Proof.
  destruct awaits as [|x [|y r]]; simpl; try discriminate.
  unfold Cdp.has, Cdp.mapDelete. simpl. rewrite orb_false_r.
  intros _ ->. reflexivity.
Qed.

Lemma guardOk_wake (e : Cdp.effect) (s : AutoAcceptor) :
  guardOk (guard s) = true -> guardOk (guard (wake e s)) = true.
Proof.
  intros Hok. destruct e; simpl; try exact Hok.
  - destruct (Cdp.has id (pollAwaits s)) eqn:Hin; [|exact Hok].
    rewrite pollResolved_guard. simpl. now apply (guardOk_woken id (isPollInProgress s)).
  - destruct (Cdp.has id (pollAwaits s)) eqn:Hin; [|exact Hok].
    rewrite pollRejected_guard. simpl. now apply (guardOk_woken id (isPollInProgress s)).
  - destruct (existsb _ _); [|exact Hok].
    now rewrite guard_startConnected, guard_set_startAwaits.
  - destruct (existsb _ _); [|exact Hok].
    now rewrite guard_startFailed, guard_set_startAwaits.
Qed.

Lemma guardOk_settle (s : AutoAcceptor) :
  guardOk (guard s) = true -> guardOk (guard (settle s)) = true.
Proof.
  unfold settle. cbv zeta. generalize (rev (Cdp.trace (cdp s))). intros effects Hok.
  assert (H1 : guardOk (guard (fold_left (fun s e => callback e s) effects s)) = true).
  { revert s Hok. induction effects as [|e r IH]; intros s Hok; simpl; [exact Hok|].
    apply IH. now rewrite guard_callback. }
  revert H1. generalize (fold_left (fun s e => callback e s) effects s).
  induction effects as [|e r IH]; intros t Ht; simpl; [exact Ht|].
  apply IH. now apply guardOk_wake.
Qed.

Lemma guardOk_poll (cfg : configRead) (throws : bool) (s : AutoAcceptor) :
  guardOk (guard s) = true -> guardOk (guard (poll cfg throws s)) = true.
Proof.
  intros Hok. unfold poll.
  destruct (isPollInProgress s) eqn:Hflag; [exact Hok|].
  assert (Hnone : pollAwaits s = []).
  { unfold guardOk, guard in Hok. rewrite Hflag in Hok. simpl in Hok.
    destruct (pollAwaits s) as [|x [|y r]]; [reflexivity | discriminate | discriminate]. }
  cbn [orb]. destruct (negb (isRunning s) || isDisposed s); [exact Hok|].
  destruct (negb (Cdp.isConnected (cdp s))); [exact Hok|].
  cbv zeta.
  cbn [cdp set_isPollInProgress].
  destruct (Cdp.send "Runtime.evaluate" throws (cdp s)) as [[err|id] c].
  - rewrite pollRejected_guard. cbn. rewrite Hnone. reflexivity.
  - unfold guard. cbn. rewrite Hnone. reflexivity.
Qed.

Lemma guardOk_step (e : event) (s : AutoAcceptor) :
  guardOk (guard s) = true -> guardOk (guard (step e s)) = true.
Proof.
  intros Hok. destruct e; simpl.
  - apply guardOk_settle. now rewrite guard_start, guard_flush.
  - apply guardOk_settle. now rewrite guard_stop, guard_flush.
  - apply guardOk_settle. now rewrite guard_toggle, guard_flush.
  - apply guardOk_settle. now rewrite guard_dispose, guard_flush.
  - destruct (existsb _ _); [|exact Hok].
    apply guardOk_settle, guardOk_poll. now rewrite guard_flush.
  - apply guardOk_settle. now rewrite guard_withCdp, guard_flush.
Qed.

Lemma guardOk_run (evs : list event) : forall s : AutoAcceptor,
  guardOk (guard s) = true -> guardOk (guard (run evs s)) = true.
Proof.
  induction evs as [|e r IH]; intros s Hok; [exact Hok|].
  change (run (e :: r) s) with (run r (step e s)).
  apply IH, guardOk_step, Hok.
Qed.



(** ** The early return of a tick *)

Lemma send_connected (m : string) (throws : bool) (c : Cdp.CDPClient) :
  Cdp.isConnected c = true ->
  fst (Cdp.send m throws c) <> inl Cdp.NotConnected.
Proof.
  unfold Cdp.isConnected, Cdp.send. intros Hc.
  destruct (Cdp.isDisposed c); [discriminate|].
  destruct (String.eqb m ""); [discriminate|].
  destruct (Cdp.ws c) as [sock|]; [|discriminate].
  rewrite Hc. simpl. destruct throws; discriminate.
Qed.

Lemma ui_log l s x : In x (ui (log l s)) -> x = UiLog l \/ In x (ui s).
Proof. unfold log. destruct (isDisposed s); simpl; intuition. Qed.

(** C10.  A poll tick that fires while the supervisor is disposed or not
    running, while another tick is in flight, or while the socket of the
    client is not open, returns the state as it is: no script is built, no
    [send] is called, nothing is logged.  A tick that gets past these
    checks calls [send] on an open socket, so [send] does not throw the
    not-connected error, and no tick logs a poll error for it. *)
Theorem poll_returns_early_when_not_ready :
  (forall (cfg : configRead) (throws : bool) (s : AutoAcceptor),
      isDisposed s = true \/ isRunning s = false \/ isPollInProgress s = true
      \/ Cdp.isConnected (cdp s) = false ->
      poll cfg throws s = s) /\
  (forall (cfg : configRead) (throws : bool) (s : AutoAcceptor),
      poll cfg throws s <> s ->
      fst (Cdp.send "Runtime.evaluate" throws (cdp s)) <> inl Cdp.NotConnected) /\
  (forall (cfg : configRead) (throws : bool) (s : AutoAcceptor),
      In (UiLog (LogPollError (SendThrew Cdp.NotConnected))) (ui (poll cfg throws s)) ->
      In (UiLog (LogPollError (SendThrew Cdp.NotConnected))) (ui s)).
Proof.
  split; [|split].
  - intros cfg throws s H. unfold poll.
    destruct (isPollInProgress s); [reflexivity|].
    destruct (isRunning s); [|reflexivity].
    destruct (isDisposed s); [reflexivity|].
    destruct (Cdp.isConnected (cdp s)); [|reflexivity].
    destruct H as [H|[H|[H|H]]]; discriminate.
  - intros cfg throws s H. apply send_connected.
    destruct (Cdp.isConnected (cdp s)) eqn:Hc; [reflexivity|].
    exfalso. apply H. unfold poll. rewrite Hc.
    destruct (isPollInProgress s || negb (isRunning s) || isDisposed s); reflexivity.
  - intros cfg throws s. unfold poll.
    destruct (isPollInProgress s || negb (isRunning s) || isDisposed s); [auto|].
    destruct (Cdp.isConnected (cdp s)) eqn:Hc; [|auto]. cbn [negb]. cbv zeta.
    cbn [cdp set_isPollInProgress].
    pose proof (send_connected "Runtime.evaluate" throws (cdp s) Hc) as Hne.
    destruct (Cdp.send "Runtime.evaluate" throws (cdp s)) as [[err|id] c].
    + unfold pollRejected, pollFinally. cbn [ui set_isPollInProgress].
      intros H. apply ui_log in H. destruct H as [H|H]; [|exact H].
      inversion H; subst. now elim Hne.
    + cbn. auto.
Qed.

Lemma poll_returns_early_when_not_ready_witness :
  poll ConfigMissing false newAutoAcceptor = newAutoAcceptor
  /\
  fst (Cdp.send "Runtime.evaluate" false (cdp runningAcceptor)) <> inl Cdp.NotConnected
  /\
  ~ In (UiLog (LogPollError (SendThrew Cdp.NotConnected)))
       (ui (poll ConfigMissing false runningAcceptor)).
Proof.
  split; [|split].
  - apply (proj1 poll_returns_early_when_not_ready). right. left. reflexivity.
  - apply (proj1 (proj2 poll_returns_early_when_not_ready) ConfigMissing).
    assert (H1 : isPollInProgress (poll ConfigMissing false runningAcceptor) = true)
      by (vm_compute; reflexivity).
    assert (H2 : isPollInProgress runningAcceptor = false)
      by (vm_compute; reflexivity).
    intros H. rewrite H in H1. rewrite H1 in H2. discriminate.
  - intros H.
    apply (proj2 (proj2 poll_returns_early_when_not_ready)) in H.
    assert (Hui : ui runningAcceptor
                  = [UiLog LogStarted; UiInformation NoteConnected; UiStatus StatusOn;
                     UiLog (LogCdp Cdp.LogConnected); UiLog LogConnecting;
                     UiStatus StatusOff])
      by (vm_compute; reflexivity).
    rewrite Hui in H. simpl in H.
    repeat (destruct H as [H|H]; [discriminate|]). exact H.
Defined.


(** ** The poll timer *)

Lemma tv_set_cdp v s : timerView (set_cdp v s) = timerView s.
Proof. reflexivity. Qed.
Lemma tv_set_isRunning v s : timerView (set_isRunning v s) = timerView s.
Proof. reflexivity. Qed.
Lemma tv_set_isPollInProgress v s : timerView (set_isPollInProgress v s) = timerView s.
Proof. reflexivity. Qed.
Lemma tv_set_startAwaits v s : timerView (set_startAwaits v s) = timerView s.
Proof. reflexivity. Qed.
Lemma tv_set_pollAwaits v s : timerView (set_pollAwaits v s) = timerView s.
Proof. reflexivity. Qed.
Lemma tv_set_ui v s : timerView (set_ui v s) = timerView s.
Proof. reflexivity. Qed.
Lemma tv_show e s : timerView (show e s) = timerView s.
Proof. reflexivity. Qed.
Lemma tv_withCdp f s : timerView (withCdp f s) = timerView s.
Proof. reflexivity. Qed.
Lemma tv_flush s : timerView (flush s) = timerView s.
Proof. reflexivity. Qed.
Lemma tv_pollFinally s : timerView (pollFinally s) = timerView s.
Proof. reflexivity. Qed.

Lemma tv_log l s : timerView (log l s) = timerView s.
Proof. unfold log. destruct (isDisposed s); reflexivity. Qed.

Lemma tv_updateStatusBar st s : timerView (updateStatusBar st s) = timerView s.
Proof. unfold updateStatusBar. destruct (isDisposed s); reflexivity. Qed.

Create Rewrite HintDb tv_frame.
#[local] Hint Rewrite tv_set_cdp tv_set_isRunning tv_set_isPollInProgress
  tv_set_startAwaits tv_set_pollAwaits tv_set_ui tv_show tv_withCdp tv_flush
  tv_pollFinally tv_log tv_updateStatusBar : tv_frame.

Arguments timerOk : simpl never.

Lemma tok_resumePolling s :
  timerOk (timerView s) -> timerOk (timerView (resumePolling s)).
Proof.
  unfold resumePolling.
  destruct (isDisposed s) eqn:Hd; [auto|].
  destruct (pollInterval s) eqn:Hp; [auto|].
  unfold timerView, timerOk.
  cbn [isDisposed pollInterval intervals set_pollInterval set_intervals set_nextInterval].
  rewrite Hd, Hp. intros [-> _]. split; [reflexivity | discriminate].
Qed.

Lemma tok_pausePolling s :
  timerOk (timerView s) -> timerOk (timerView (pausePolling s)).
Proof.
  unfold pausePolling.
  destruct (pollInterval s) as [h|] eqn:Hp; [|auto].
  unfold timerView, timerOk.
  cbn [isDisposed pollInterval intervals set_pollInterval set_intervals].
  rewrite Hp. intros [-> _]. simpl. rewrite Nat.eqb_refl. auto.
Qed.

Lemma tok_pollResolved v s :
  timerView (pollResolved v s) = timerView s.
Proof.
  unfold pollResolved. cbv zeta.
  repeat match goal with |- context [if ?b then _ else _] => destruct b end;
    now autorewrite with tv_frame.
Qed.

Lemma tok_pollRejected e s :
  timerView (pollRejected e s) = timerView s.
Proof. unfold pollRejected. now autorewrite with tv_frame. Qed.

Lemma tok_startFailed e s : timerView (startFailed e s) = timerView s.
Proof. unfold startFailed. cbv zeta. now autorewrite with tv_frame. Qed.

Lemma tok_startConnected s :
  timerOk (timerView s) -> timerOk (timerView (startConnected s)).
Proof.
  intros H. unfold startConnected. cbv zeta. autorewrite with tv_frame.
  apply tok_resumePolling. now autorewrite with tv_frame.
Qed.

Lemma tok_callback e s :
  timerOk (timerView s) -> timerOk (timerView (callback e s)).
Proof.
  intros H. destruct e; simpl; try exact H.
  - now rewrite tv_log.
  - unfold cdpOnDisconnect. destruct (isDisposed s); [exact H|]. cbv zeta.
    autorewrite with tv_frame. apply tok_pausePolling. now autorewrite with tv_frame.
  - unfold cdpOnReconnect. destruct (isDisposed s); [exact H|]. cbv zeta.
    autorewrite with tv_frame. apply tok_resumePolling. now autorewrite with tv_frame.
  - unfold cdpOnReconnectFailed. destruct (isDisposed s); [exact H|]. cbv zeta.
    now autorewrite with tv_frame.
Qed.

Lemma tok_wake e s :
  timerOk (timerView s) -> timerOk (timerView (wake e s)).
Proof.
  intros H. destruct e; simpl; try exact H.
  - destruct (Cdp.has id (pollAwaits s)); [|exact H].
    now rewrite tok_pollResolved, tv_set_pollAwaits.
  - destruct (Cdp.has id (pollAwaits s)); [|exact H].
    now rewrite tok_pollRejected, tv_set_pollAwaits.
  - destruct (existsb _ _); [|exact H].
    apply tok_startConnected. now rewrite tv_set_startAwaits.
  - destruct (existsb _ _); [|exact H].
    now rewrite tok_startFailed, tv_set_startAwaits.
Qed.

Lemma tok_settle s :
  timerOk (timerView s) -> timerOk (timerView (settle s)).
Proof.
  unfold settle. cbv zeta. generalize (rev (Cdp.trace (cdp s))). intros effects Hok.
  assert (H1 : timerOk (timerView (fold_left (fun s e => callback e s) effects s))).
  { revert s Hok. induction effects as [|e r IH]; intros s Hok; simpl; [exact Hok|].
    apply IH. now apply tok_callback. }
  revert H1. generalize (fold_left (fun s e => callback e s) effects s).
  induction effects as [|e r IH]; intros t Ht; simpl; [exact Ht|].
  apply IH. now apply tok_wake.
Qed.

Lemma tok_start s : timerView (start s) = timerView s.
Proof.
  unfold start. destruct (isDisposed s); [apply tv_log|].
  destruct (isRunning s); [reflexivity|]. cbv zeta.
  destruct (Cdp.connect 9222 (cdp (log LogConnecting s))) as [[err|a] c].
  - now rewrite tok_startFailed, tv_set_cdp, tv_log.
  - now rewrite tv_set_startAwaits, tv_set_cdp, tv_log.
Qed.

Lemma tok_stop s : timerOk (timerView s) -> timerOk (timerView (stop s)).
Proof.
  intros H. unfold stop. destruct (isDisposed s); [exact H|]. cbv zeta.
  autorewrite with tv_frame. apply tok_pausePolling. now autorewrite with tv_frame.
Qed.

Lemma tok_dispose s : timerOk (timerView s) -> timerOk (timerView (dispose s)).
Proof.
  unfold dispose. destruct (isDisposed s) eqn:Hd; [auto|]. cbv zeta.
  autorewrite with tv_frame.
  unfold pausePolling. cbn [pollInterval set_isDisposed].
  destruct (pollInterval s) as [h|] eqn:Hp;
    unfold timerView, timerOk;
    cbn [isDisposed pollInterval intervals set_pollInterval set_intervals set_isDisposed];
    rewrite ?Hp; intros [-> _]; simpl; rewrite ?Nat.eqb_refl; auto.
Qed.

Lemma tok_poll cfg throws s : timerView (poll cfg throws s) = timerView s.
Proof.
  unfold poll.
  destruct (isPollInProgress s || negb (isRunning s) || isDisposed s); [reflexivity|].
  destruct (negb (Cdp.isConnected (cdp s))); [reflexivity|]. cbv zeta.
  cbn [cdp set_isPollInProgress].
  destruct (Cdp.send "Runtime.evaluate" throws (cdp s)) as [[err|id] c].
  - now rewrite tok_pollRejected.
  - reflexivity.
Qed.

Lemma tok_step (e : event) (s : AutoAcceptor) :
  timerOk (timerView s) -> timerOk (timerView (step e s)).
Proof.
  intros H. destruct e; simpl.
  - apply tok_settle. now rewrite tok_start, tv_flush.
  - apply tok_settle, tok_stop. now rewrite tv_flush.
  - apply tok_settle. unfold toggle.
    destruct (isDisposed (flush s)); [now rewrite tv_log, tv_flush|].
    destruct (isRunning (flush s));
      [apply tok_stop; now rewrite tv_flush | now rewrite tok_start, tv_flush].
  - apply tok_settle, tok_dispose. now rewrite tv_flush.
  - destruct (existsb _ _); [|exact H].
    apply tok_settle. now rewrite tok_poll, tv_flush.
  - apply tok_settle. now rewrite tv_withCdp, tv_flush.
Qed.

Lemma tok_run (evs : list event) : forall s : AutoAcceptor,
  timerOk (timerView s) -> timerOk (timerView (run evs s)).
Proof.
  induction evs as [|e r IH]; intros s Hs; [exact Hs|].
  change (run (e :: r) s) with (run r (step e s)). apply IH, tok_step, Hs.
Qed.

(** X12.  In every state that the supervisor reaches from its constructor, by
    whatever calls and events: the interval timers that are armed are
    exactly the one whose handle [pollInterval] holds (none when it is
    null), a disposed supervisor has no timer, and a tick that arrives when
    no timer is held changes nothing. *)
Theorem at_most_one_poll_timer (evs : list event) :
  let s := run evs newAutoAcceptor in
  intervals s = match pollInterval s with Some h => [h] | None => [] end /\
  (isDisposed s = true -> pollInterval s = None /\ intervals s = []) /\
  (forall h cfg throws, pollInterval s = None -> step (Tick h cfg throws) s = s).
Proof.
  cbv zeta.
  assert (H : timerOk (timerView (run evs newAutoAcceptor))).
  { apply tok_run. unfold timerOk, timerView. simpl. split; [reflexivity | discriminate]. }
  unfold timerOk, timerView in H. destruct H as [H1 H2].
  split; [exact H1|]. split.
  - intros Hd. specialize (H2 Hd). rewrite H2 in H1. auto.
  - intros h cfg throws Hp. rewrite Hp in H1. simpl. rewrite H1. reflexivity.
Qed.

Lemma at_most_one_poll_timer_witness :
  step (Tick 1 ConfigMissing false) (run lostConnection newAutoAcceptor)
  = run lostConnection newAutoAcceptor.
Proof.
  apply (proj2 (proj2 (at_most_one_poll_timer lostConnection))).
  vm_compute. reflexivity.
Defined.

(** ** The disposed supervisor *)

Lemma log_disposed l s : isDisposed s = true -> log l s = s.
Proof. intros H. unfold log. now rewrite H. Qed.

Lemma updateStatusBar_disposed st s : isDisposed s = true -> updateStatusBar st s = s.
Proof. intros H. unfold updateStatusBar. now rewrite H. Qed.

Lemma resumePolling_disposed s : isDisposed s = true -> resumePolling s = s.
Proof. intros H. unfold resumePolling. now rewrite H. Qed.

Lemma callback_disposed e s : isDisposed s = true -> callback e s = s.
Proof.
  intros H. destruct e; simpl; try reflexivity.
  - now apply log_disposed.
  - unfold cdpOnDisconnect. now rewrite H.
  - unfold cdpOnReconnect. now rewrite H.
  - unfold cdpOnReconnectFailed. now rewrite H.
Qed.

Lemma dv_startConnected s :
  isDisposed s = true -> disposedView (startConnected s) = disposedView s.
Proof.
  intros H. unfold startConnected. cbv zeta.
  rewrite updateStatusBar_disposed by exact H.
  rewrite resumePolling_disposed by exact H.
  rewrite log_disposed by exact H.
  reflexivity.
Qed.

Lemma dv_startFailed e s :
  isDisposed s = true -> disposedView (startFailed e s) = disposedView s.
Proof.
  intros H. unfold startFailed. cbv zeta.
  rewrite log_disposed by exact H.
  rewrite updateStatusBar_disposed by exact H.
  reflexivity.
Qed.

Lemma dv_pollResolved v s :
  isDisposed s = true -> disposedView (pollResolved v s) = disposedView s.
Proof.
  intros H. unfold pollResolved, pollFinally. cbv zeta.
  rewrite !log_disposed by exact H.
  repeat match goal with |- context [if ?b then _ else _] => destruct b end;
    reflexivity.
Qed.

Lemma dv_pollRejected e s :
  isDisposed s = true -> disposedView (pollRejected e s) = disposedView s.
Proof.
  intros H. unfold pollRejected, pollFinally.
  rewrite log_disposed by exact H. reflexivity.
Qed.

Lemma dv_wake e s :
  isDisposed s = true -> disposedView (wake e s) = disposedView s.
Proof.
  intros H. destruct e; simpl; try reflexivity.
  - destruct (Cdp.has id (pollAwaits s)); [|reflexivity].
    now rewrite dv_pollResolved.
  - destruct (Cdp.has id (pollAwaits s)); [|reflexivity].
    now rewrite dv_pollRejected.
  - destruct (existsb _ _); [|reflexivity]. now rewrite dv_startConnected.
  - destruct (existsb _ _); [|reflexivity]. now rewrite dv_startFailed.
Qed.

Lemma dv_disposed s s' :
  disposedView s' = disposedView s -> isDisposed s = true -> isDisposed s' = true.
Proof. unfold disposedView. intros H Hd. inversion H. congruence. Qed.

Lemma dv_settle s :
  isDisposed s = true -> disposedView (settle s) = disposedView s.
Proof.
  intros Hd. unfold settle. cbv zeta. generalize (rev (Cdp.trace (cdp s))). intros effects.
  assert (H1 : fold_left (fun s e => callback e s) effects s = s).
  { induction effects as [|e r IH]; simpl; [reflexivity|].
    now rewrite callback_disposed. }
  rewrite H1. clear H1. revert s Hd.
  induction effects as [|e r IH]; intros s Hd; simpl; [reflexivity|].
  rewrite IH by exact (dv_disposed _ _ (dv_wake e s Hd) Hd).
  now apply dv_wake.
Qed.

Lemma dv_step (e : event) (s : AutoAcceptor) :
  isDisposed s = true -> disposedView (step e s) = disposedView s.
Proof.
  intros Hd.
  assert (Hf : isDisposed (flush s) = true) by exact Hd.
  destruct e; simpl.
  - unfold start. rewrite Hf, log_disposed by exact Hf. now rewrite dv_settle.
  - unfold stop. rewrite Hf. now rewrite dv_settle.
  - unfold toggle. rewrite Hf, log_disposed by exact Hf. now rewrite dv_settle.
  - unfold dispose. rewrite Hf. now rewrite dv_settle.
  - destruct (existsb _ _); [|reflexivity].
    unfold poll. rewrite Hf, !orb_true_r. now rewrite dv_settle.
  - rewrite dv_settle by exact Hd.
    unfold disposedView, withCdp, flush, withCdp. simpl.
    now rewrite CdpProofs.messageId_deliver.
Qed.

(** X13.  Once the supervisor is disposed, whatever is called and whatever the
    host delivers afterwards, it stays disposed, its poll timer is not
    touched, it writes no log line and no status-bar state, and it sends no
    call on the client. *)
Theorem disposed_supervisor_is_quiet (evs : list event) (s : AutoAcceptor) :
  isDisposed s = true ->
  let s' := run evs s in
  isDisposed s' = true /\
  pollInterval s' = pollInterval s /\ intervals s' = intervals s /\
  filter isLogOrStatus (ui s') = filter isLogOrStatus (ui s) /\
  Cdp.messageId (cdp s') = Cdp.messageId (cdp s).
Proof.
  intros Hd. cbv zeta.
  assert (H : disposedView (run evs s) = disposedView s).
  { revert s Hd. induction evs as [|e r IH]; intros s Hd; [reflexivity|].
    change (run (e :: r) s) with (run r (step e s)).
    rewrite IH by exact (dv_disposed _ _ (dv_step e s Hd) Hd).
    now apply dv_step. }
  unfold disposedView in H. inversion H as [[H1 H2 H3 H4 H5]].
  rewrite H1. auto.
Qed.

Lemma disposed_supervisor_is_quiet_witness :
  let s' := run [Start; Tick 0 ConfigMissing false; Host (Cdp.WsClose 0); Toggle]
                disposedAcceptor in
  isDisposed s' = true /\ intervals s' = [].
Proof.
  destruct (disposed_supervisor_is_quiet
              [Start; Tick 0 ConfigMissing false; Host (Cdp.WsClose 0); Toggle]
              disposedAcceptor eq_refl) as (H1 & _ & H3 & _).
  split; [exact H1 | rewrite H3; reflexivity].
Defined.

(** ** The outcome of the script, as the tick reports it *)

Lemma substring_all (s : string) : String.substring 0 (String.length s) s = s.
Proof. induction s as [|c s IH]; simpl; [reflexivity | now rewrite IH]. Qed.

Lemma clicked_prefix (t : string) :
  Script.startsWith ("clicked_" ++ t) "clicked_" = true.
Proof. unfold Script.startsWith. simpl. destruct t; reflexivity. Qed.

Lemma blocked_prefix (c : string) :
  Script.startsWith ("blocked: " ++ c) "clicked_" = false /\
  Script.startsWith ("blocked: " ++ c) "blocked: " = true /\
  String.substring 9 (String.length ("blocked: " ++ c) - 9) ("blocked: " ++ c) = c.
Proof.
  unfold Script.startsWith. simpl. rewrite Nat.sub_0_r, substring_all.
  destruct c; auto.
Qed.

Lemma error_prefix (e : string) :
  Script.startsWith ("error: " ++ e) "clicked_" = false /\
  Script.startsWith ("error: " ++ e) "blocked: " = false /\
  Script.startsWith ("error: " ++ e) "error: " = true.
Proof. unfold Script.startsWith. simpl. destruct e; auto. Qed.

(** X14.  What a poll tick reports when the call that evaluates the script
    is answered, for any value of the answer: it always leaves the guarded
    region; for 'clicked_<text>' it logs 'Accepted action: clicked_<text>';
    for 'blocked: <command>' it logs the command and shows the warning with
    exactly that command, whatever the command is; for 'error: <message>'
    it logs the script error; for 'none', for the empty string and for an
    answer without a value it reports nothing. *)
Theorem tick_reports_script_outcome (v : option string) (s : AutoAcceptor) :
  isDisposed s = false ->
  let s' := pollResolved v s in
  isPollInProgress s' = false /\
  (forall t, v = Some ("clicked_" ++ t)%string ->
             ui s' = UiLog (LogAccepted ("clicked_" ++ t)) :: ui s) /\
  (forall c, v = Some ("blocked: " ++ c)%string ->
             ui s' = UiWarning (NoteBlocked c) :: UiLog (LogBlocked c) :: ui s) /\
  (forall e, v = Some ("error: " ++ e)%string ->
             ui s' = UiLog (LogScriptError ("error: " ++ e)) :: ui s) /\
  (v = Some "none"%string \/ v = Some ""%string \/ v = None -> ui s' = ui s).
Proof.
  intros Hd. cbv zeta.
  split; [exact (f_equal fst (pollResolved_guard v s))|].
  split; [|split; [|split]].
  - intros t ->. unfold pollResolved. cbv zeta.
    rewrite clicked_prefix. unfold log. rewrite Hd.
    destruct (0 <? String.length ("clicked_" ++ t))%nat eqn:Hl; [reflexivity|].
    simpl in Hl. discriminate.
  - intros c ->. unfold pollResolved. cbv zeta.
    destruct (blocked_prefix c) as (H1 & H2 & H3).
    rewrite H1, H2, H3. unfold log. rewrite Hd.
    destruct (0 <? String.length ("blocked: " ++ c))%nat eqn:Hl; [reflexivity|].
    simpl in Hl. discriminate.
  - intros e ->. unfold pollResolved. cbv zeta.
    destruct (error_prefix e) as (H1 & H2 & H3).
    rewrite H1, H2, H3. unfold log. rewrite Hd.
    destruct (0 <? String.length ("error: " ++ e))%nat eqn:Hl; [reflexivity|].
    simpl in Hl. discriminate.
  - intros [-> | [-> | ->]]; reflexivity.
Qed.

Lemma tick_reports_script_outcome_witness :
  ui (pollResolved (Some "blocked: rm -rf /"%string) runningAcceptor)
  = UiWarning (NoteBlocked "rm -rf /") :: UiLog (LogBlocked "rm -rf /")
    :: ui runningAcceptor.
Proof.
  apply (proj1 (proj2 (proj2 (tick_reports_script_outcome
                                (Some "blocked: rm -rf /"%string) runningAcceptor
                                eq_refl))) "rm -rf /"%string).
  reflexivity.
Defined.

End SupervisorProofs.

(** * Properties of the settings-based AutoAcceptor *)
Module SettingsProofs.
Import Settings.

Lemma mapFind_mapSet (k k' : string) (v : option value) (m : list (string * option value)) :
  mapFind k (mapSet k' v m) = if String.eqb k k' then Some v else mapFind k m.
Proof.
  induction m as [|[k0 v0] m IH]; simpl.
  - destruct (String.eqb k k'); reflexivity.
  - destruct (String.eqb k' k0) eqn:E0; simpl.
    + apply String.eqb_eq in E0. subst k0.
      destruct (String.eqb k k'); reflexivity.
    + rewrite IH. destruct (String.eqb k k') eqn:E; [|reflexivity].
      apply String.eqb_eq in E. subst k'. now rewrite E0.
Qed.

Lemma existsb_eqb_In (k : string) (l : list string) :
  existsb (String.eqb k) l = true <-> In k l.
Proof.
  rewrite existsb_exists. split.
  - intros (x & Hin & E). apply String.eqb_eq in E. now subst.
  - intros Hin. exists k. split; [exact Hin | apply String.eqb_refl].
Qed.

(** ** What the helpers leave alone *)

Lemma log_fields l s :
  isRunning (log l s) = isRunning s /\ isDisposed (log l s) = isDisposed s /\
  pollInterval (log l s) = pollInterval s /\ intervals (log l s) = intervals s /\
  savedSettings (log l s) = savedSettings s /\
  globalSettings (log l s) = globalSettings s.
Proof. unfold log. destruct (isDisposed s) eqn:E; simpl; auto 10. Qed.

Lemma updateStatusBar_fields st s :
  isRunning (updateStatusBar st s) = isRunning s /\
  isDisposed (updateStatusBar st s) = isDisposed s /\
  pollInterval (updateStatusBar st s) = pollInterval s /\
  intervals (updateStatusBar st s) = intervals s /\
  savedSettings (updateStatusBar st s) = savedSettings s /\
  globalSettings (updateStatusBar st s) = globalSettings s.
Proof. unfold updateStatusBar. destruct (isDisposed s) eqn:E; simpl; auto 10. Qed.

Lemma log_when_disposed l s : isDisposed s = true -> log l s = s.
Proof. unfold log. now intros ->. Qed.

Lemma pausePolling_fields s :
  isRunning (pausePolling s) = isRunning s /\
  isDisposed (pausePolling s) = isDisposed s /\
  savedSettings (pausePolling s) = savedSettings s /\
  globalSettings (pausePolling s) = globalSettings s /\
  ui (pausePolling s) = ui s.
Proof. unfold pausePolling. destruct (pollInterval s); simpl; auto 10. Qed.

Lemma pausePolling_clears s :
  pollInterval (pausePolling s) = None /\
  forall t, pollInterval s = Some t -> ~ In t (intervals (pausePolling s)).
Proof.
  unfold pausePolling. destruct (pollInterval s) as [h|] eqn:E; simpl.
  - split; [reflexivity|]. intros t [= <-] Hin.
    apply filter_In in Hin. destruct Hin as [_ Hne].
    now rewrite Nat.eqb_refl in Hne.
  - split; [exact E|]. intros t Ht. discriminate.
Qed.

(** ** One turn of each loop *)

Lemma applySetting_frame h s e :
  isRunning (applySetting h s e) = isRunning s /\
  isDisposed (applySetting h s e) = isDisposed s /\
  pollInterval (applySetting h s e) = pollInterval s /\
  intervals (applySetting h s e) = intervals s.
Proof.
  destruct e as [[section key] v]. unfold applySetting.
  destruct (h (fullKey section key)); cbv zeta;
    repeat match goal with
           | |- context [log ?l ?t] =>
               destruct (log_fields l t) as (-> & -> & -> & -> & _)
           end; simpl; auto.
Qed.

Lemma applySetting_store h s e k :
  snd e = VBool true ->
  globalSettings (applySetting h s e) k
  = if String.eqb k (keyOf e) && isDone (h k) then Some (VBool true)
    else globalSettings s k.
Proof.
  destruct e as [[section key] v]. simpl. intros ->.
  unfold applySetting.
  destruct (String.eqb k (fullKey section key)) eqn:E.
  - apply String.eqb_eq in E. subst k.
    destruct (h (fullKey section key)); cbv zeta;
      match goal with
      | |- context [log ?l ?t] =>
          destruct (log_fields l t) as (_ & _ & _ & _ & _ & ->)
      end; simpl; try reflexivity.
    unfold update. now rewrite String.eqb_refl.
  - destruct (h (fullKey section key)); cbv zeta;
      match goal with
      | |- context [log ?l ?t] =>
          destruct (log_fields l t) as (_ & _ & _ & _ & _ & ->)
      end; simpl; try reflexivity.
    unfold update. now rewrite E.
Qed.

Lemma applySetting_saved h s e k :
  mapFind k (savedSettings (applySetting h s e))
  = if String.eqb k (keyOf e) && negb (isReadThrows (h k))
    then Some (globalSettings s k)
    else mapFind k (savedSettings s).
Proof.
  destruct e as [[section key] v]. simpl.
  unfold applySetting.
  destruct (String.eqb k (fullKey section key)) eqn:E.
  - apply String.eqb_eq in E. subst k.
    destruct (h (fullKey section key)); cbv zeta;
      match goal with
      | |- context [log ?l ?t] =>
          destruct (log_fields l t) as (_ & _ & _ & _ & -> & _)
      end; simpl; try reflexivity;
      rewrite mapFind_mapSet, String.eqb_refl; reflexivity.
  - destruct (h (fullKey section key)); cbv zeta;
      match goal with
      | |- context [log ?l ?t] =>
          destruct (log_fields l t) as (_ & _ & _ & _ & -> & _)
      end; simpl; try reflexivity;
      rewrite mapFind_mapSet, E; reflexivity.
Qed.

Lemma restoreSetting_frame h s e :
  isRunning (restoreSetting h s e) = isRunning s /\
  isDisposed (restoreSetting h s e) = isDisposed s /\
  pollInterval (restoreSetting h s e) = pollInterval s /\
  intervals (restoreSetting h s e) = intervals s /\
  savedSettings (restoreSetting h s e) = savedSettings s.
Proof.
  destruct e as [[section key] v]. unfold restoreSetting. cbv zeta.
  destruct (h (fullKey section key));
    match goal with
    | |- context [log ?l ?t] =>
        destruct (log_fields l t) as (-> & -> & -> & -> & -> & _)
    end; simpl; auto 10.
Qed.

Lemma restoreSetting_store h s e k :
  globalSettings (restoreSetting h s e) k
  = if String.eqb k (keyOf e) && isDone (h k) then mapGet k (savedSettings s)
    else globalSettings s k.
Proof.
  destruct e as [[section key] v]. simpl. unfold restoreSetting. cbv zeta.
  destruct (String.eqb k (fullKey section key)) eqn:E.
  - apply String.eqb_eq in E. subst k.
    destruct (h (fullKey section key));
      match goal with
      | |- context [log ?l ?t] =>
          destruct (log_fields l t) as (_ & _ & _ & _ & _ & ->)
      end; simpl; try reflexivity.
    unfold update. now rewrite String.eqb_refl.
  - destruct (h (fullKey section key));
      match goal with
      | |- context [log ?l ?t] =>
          destruct (log_fields l t) as (_ & _ & _ & _ & _ & ->)
      end; simpl; try reflexivity.
    unfold update. now rewrite E.
Qed.

Lemma restoreSetting_silent h s e :
  isDisposed s = true -> ui (restoreSetting h s e) = ui s.
Proof.
  intros Hd. destruct e as [[section key] v]. unfold restoreSetting. cbv zeta.
  destruct (h (fullKey section key)); rewrite log_when_disposed by exact Hd; reflexivity.
Qed.

(** ** The loops, over any table of entries *)

Lemma applyLoop_frame h l : forall s,
  isRunning (fold_left (applySetting h) l s) = isRunning s /\
  isDisposed (fold_left (applySetting h) l s) = isDisposed s /\
  pollInterval (fold_left (applySetting h) l s) = pollInterval s /\
  intervals (fold_left (applySetting h) l s) = intervals s.
Proof.
  induction l as [|e l IH]; intros s; cbn [fold_left]; [auto|].
  destruct (IH (applySetting h s e)) as (-> & -> & -> & ->).
  apply applySetting_frame.
Qed.

Lemma applyLoop_store h l : forall s k,
  Forall (fun e => snd e = VBool true) l ->
  globalSettings (fold_left (applySetting h) l s) k
  = if existsb (String.eqb k) (map keyOf l) && isDone (h k) then Some (VBool true)
    else globalSettings s k.
Proof.
  induction l as [|e l IH]; intros s k Hv; cbn [fold_left map existsb]; [reflexivity|].
  inversion Hv as [|? ? He Hl]; subst.
  rewrite IH by exact Hl. rewrite applySetting_store by exact He.
  destruct (String.eqb k (keyOf e)), (existsb (String.eqb k) (map keyOf l)),
    (isDone (h k)); reflexivity.
Qed.

Lemma applyLoop_saved h l : forall s k,
  NoDup (map keyOf l) ->
  Forall (fun e => snd e = VBool true) l ->
  mapFind k (savedSettings (fold_left (applySetting h) l s))
  = if existsb (String.eqb k) (map keyOf l) && negb (isReadThrows (h k))
    then Some (globalSettings s k)
    else mapFind k (savedSettings s).
Proof.
  induction l as [|e l IH]; intros s k Hn Hv; cbn [fold_left map existsb]; [reflexivity|].
  inversion Hn as [|? ? Hnotin Hn']; subst.
  inversion Hv as [|? ? He Hl]; subst.
  rewrite IH by assumption.
  rewrite applySetting_saved, applySetting_store by exact He.
  destruct (String.eqb k (keyOf e)) eqn:E.
  - apply String.eqb_eq in E. subst k.
    destruct (existsb (String.eqb (keyOf e)) (map keyOf l)) eqn:Hex.
    + apply existsb_eqb_In in Hex. contradiction.
    + cbn [orb andb]. reflexivity.
  - cbn [orb andb]. reflexivity.
Qed.

Lemma restoreLoop_frame h l : forall s,
  isRunning (fold_left (restoreSetting h) l s) = isRunning s /\
  isDisposed (fold_left (restoreSetting h) l s) = isDisposed s /\
  pollInterval (fold_left (restoreSetting h) l s) = pollInterval s /\
  intervals (fold_left (restoreSetting h) l s) = intervals s /\
  savedSettings (fold_left (restoreSetting h) l s) = savedSettings s.
Proof.
  induction l as [|e l IH]; intros s; cbn [fold_left]; [auto 10|].
  destruct (IH (restoreSetting h s e)) as (-> & -> & -> & -> & ->).
  apply restoreSetting_frame.
Qed.

Lemma restoreLoop_store h l : forall s k,
  globalSettings (fold_left (restoreSetting h) l s) k
  = if existsb (String.eqb k) (map keyOf l) && isDone (h k)
    then mapGet k (savedSettings s)
    else globalSettings s k.
Proof.
  induction l as [|e l IH]; intros s k; cbn [fold_left map existsb]; [reflexivity|].
  rewrite IH, restoreSetting_store.
  destruct (restoreSetting_frame h s e) as (_ & _ & _ & _ & ->).
  destruct (String.eqb k (keyOf e)), (existsb (String.eqb k) (map keyOf l)),
    (isDone (h k)); reflexivity.
Qed.

Lemma restoreLoop_silent h l : forall s,
  isDisposed s = true -> ui (fold_left (restoreSetting h) l s) = ui s.
Proof.
  induction l as [|e l IH]; intros s Hd; cbn [fold_left]; [reflexivity|].
  rewrite IH.
  - now apply restoreSetting_silent.
  - destruct (restoreSetting_frame h s e) as (_ & -> & _). exact Hd.
Qed.

Lemma table_values : Forall (fun e : string * string * value => snd e = VBool true)
                            AUTO_APPROVE_SETTINGS.
Proof. repeat constructor. Qed.

Lemma table_keys : NoDup (map keyOf AUTO_APPROVE_SETTINGS).
Proof.
  repeat constructor; simpl; intros H;
    repeat (destruct H as [H|H]; [discriminate|]); exact H.
Qed.

(** ** The two methods *)

Lemma apply_store h s k :
  globalSettings (applyAutoApproveSettings h s) k
  = if managed k && isDone (h k) then Some (VBool true) else globalSettings s k.
Proof.
  unfold applyAutoApproveSettings, managed, managedKeys. cbv zeta.
  now rewrite applyLoop_store by exact table_values.
Qed.

Lemma apply_saved h s k :
  mapFind k (savedSettings (applyAutoApproveSettings h s))
  = if managed k && negb (isReadThrows (h k)) then Some (globalSettings s k) else None.
Proof.
  unfold applyAutoApproveSettings, managed, managedKeys. cbv zeta.
  now rewrite applyLoop_saved by (exact table_keys || exact table_values).
Qed.

Lemma restore_store h s k :
  globalSettings (restoreSettings h s) k
  = if managed k && isDone (h k) then mapGet k (savedSettings s) else globalSettings s k.
Proof.
  unfold restoreSettings, managed, managedKeys. cbv zeta.
  cbn [globalSettings set_savedSettings]. apply restoreLoop_store.
Qed.

Lemma restore_frame h s :
  isRunning (restoreSettings h s) = isRunning s /\
  isDisposed (restoreSettings h s) = isDisposed s /\
  pollInterval (restoreSettings h s) = pollInterval s /\
  intervals (restoreSettings h s) = intervals s /\
  savedSettings (restoreSettings h s) = [].
Proof.
  unfold restoreSettings. cbv zeta.
  cbn [isRunning isDisposed pollInterval intervals savedSettings set_savedSettings].
  destruct (restoreLoop_frame h AUTO_APPROVE_SETTINGS s) as (-> & -> & -> & -> & _).
  auto 10.
Qed.

Lemma restore_silent h s :
  isDisposed s = true -> ui (restoreSettings h s) = ui s.
Proof.
  intros Hd. unfold restoreSettings. cbv zeta. cbn [ui set_savedSettings].
  now apply restoreLoop_silent.
Qed.

(** The tail of [stop()], after the settings are restored. *)
Lemma stop_tail_fields (sh : bool) (t : AutoAcceptor) :
  let t' := if sh
            then updateStatusBar StatusOff
                   (set_isRunning false
                      (log LogStopError
                         (updateStatusBar StatusOff (set_isRunning false t))))
            else set_ui (UiInfoStopped
                           :: ui (updateStatusBar StatusOff (set_isRunning false t)))
                   (updateStatusBar StatusOff (set_isRunning false t)) in
  isRunning t' = false /\ isDisposed t' = isDisposed t /\
  pollInterval t' = pollInterval t /\ savedSettings t' = savedSettings t /\
  globalSettings t' = globalSettings t.
Proof.
  cbv zeta.
  destruct (updateStatusBar_fields StatusOff (set_isRunning false t))
    as (U1 & U2 & U3 & _ & U5 & U6).
  cbn [isRunning isDisposed pollInterval savedSettings globalSettings set_isRunning]
    in U1, U2, U3, U5, U6.
  destruct sh.
  - set (u := updateStatusBar StatusOff (set_isRunning false t)) in *.
    destruct (log_fields LogStopError u) as (_ & L2 & L3 & _ & L5 & L6).
    destruct (updateStatusBar_fields StatusOff (set_isRunning false (log LogStopError u)))
      as (-> & -> & -> & _ & -> & ->).
    cbn [isRunning isDisposed pollInterval savedSettings globalSettings set_isRunning].
    rewrite L2, L3, L5, L6. auto.
  - cbn [isRunning isDisposed pollInterval savedSettings globalSettings set_ui].
    auto.
Qed.

Lemma stop_store h sh s k :
  isDisposed s = false ->
  globalSettings (stop h sh s) k
  = if managed k && isDone (h k) then mapGet k (savedSettings s) else globalSettings s k.
Proof.
  intros Hd. unfold stop. rewrite Hd. cbv zeta.
  destruct (stop_tail_fields sh (restoreSettings h (pausePolling (log LogStopping s))))
    as (_ & _ & _ & _ & ->).
  rewrite restore_store.
  destruct (pausePolling_fields (log LogStopping s)) as (_ & _ & -> & -> & _).
  destruct (log_fields LogStopping s) as (_ & _ & _ & _ & -> & ->).
  reflexivity.
Qed.

Lemma stop_fields h sh s :
  isDisposed s = false ->
  isRunning (stop h sh s) = false /\ isDisposed (stop h sh s) = false /\
  pollInterval (stop h sh s) = None /\ savedSettings (stop h sh s) = [].
Proof.
  intros Hd. unfold stop. rewrite Hd. cbv zeta.
  destruct (stop_tail_fields sh (restoreSettings h (pausePolling (log LogStopping s))))
    as (-> & -> & -> & -> & _).
  destruct (restore_frame h (pausePolling (log LogStopping s)))
    as (_ & -> & -> & _ & ->).
  destruct (pausePolling_fields (log LogStopping s)) as (_ & -> & _).
  destruct (log_fields LogStopping s) as (_ & -> & _).
  split; [reflexivity|]. split; [exact Hd|].
  split; [apply pausePolling_clears | reflexivity].
Qed.

(** X15.  [applyAutoApproveSettings], whatever the configuration service does
    for each setting: a setting is set to true exactly when it is one of the
    three managed ones and its update went through, every other setting
    keeps its value; the saved map holds, for each managed setting that
    could be read, the value it had before (and nothing else, what was
    saved earlier is dropped); the flags and the poll timer are not
    touched. *)
Theorem apply_saves_then_enables (h : host) (s : AutoAcceptor) (k : string) :
  let s' := applyAutoApproveSettings h s in
  globalSettings s' k
  = (if managed k && isDone (h k) then Some (VBool true) else globalSettings s k) /\
  mapFind k (savedSettings s')
  = (if managed k && negb (isReadThrows (h k)) then Some (globalSettings s k) else None) /\
  isRunning s' = isRunning s /\ isDisposed s' = isDisposed s /\
  pollInterval s' = pollInterval s.
Proof.
  cbv zeta. split; [apply apply_store|]. split; [apply apply_saved|].
  unfold applyAutoApproveSettings. cbv zeta.
  destruct (applyLoop_frame h AUTO_APPROVE_SETTINGS (set_savedSettings [] s))
    as (-> & -> & -> & _).
  auto.
Qed.

(** X16.  [applyAutoApproveSettings] followed by [restoreSettings]: the saved
    map is empty afterwards, and a setting whose restoring update went
    through has the value it had before -- except that a managed setting
    that could not be read when it was applied is unset; a managed
    setting whose restoring update fails stays true if it was turned on,
    and every other setting keeps its value.  When every
    managed setting could be read and every restoring update goes through,
    the user's settings are exactly what they were. *)
Theorem apply_restore_round_trip (ha hr : host) (s : AutoAcceptor) :
  let s' := restoreSettings hr (applyAutoApproveSettings ha s) in
  savedSettings s' = [] /\
  (forall k,
      globalSettings s' k
      = if managed k && isDone (hr k)
        then (if isReadThrows (ha k) then None else globalSettings s k)
        else if managed k && isDone (ha k) then Some (VBool true)
             else globalSettings s k) /\
  ((forall k, managed k = true -> ha k <> ReadThrows /\ hr k = Done) ->
   forall k, globalSettings s' k = globalSettings s k).
Proof.
  cbv zeta.
  assert (Hstore : forall k,
             globalSettings (restoreSettings hr (applyAutoApproveSettings ha s)) k
             = if managed k && isDone (hr k)
               then (if isReadThrows (ha k) then None else globalSettings s k)
               else if managed k && isDone (ha k) then Some (VBool true)
                    else globalSettings s k).
  { intros k. rewrite restore_store, apply_store. unfold mapGet. rewrite apply_saved.
    destruct (managed k), (isDone (hr k)), (ha k); reflexivity. }
  split; [apply restore_frame|]. split; [exact Hstore|].
  intros Hok k. rewrite Hstore.
  destruct (managed k) eqn:Hm; [|reflexivity].
  destruct (Hok k Hm) as (Hne & ->). cbn.
  destruct (ha k); try reflexivity. congruence.
Qed.

Lemma apply_restore_round_trip_witness :
  globalSettings (restoreSettings reliable (applyAutoApproveSettings reliable activeAcceptor))
                 "chat.agent.autoApprove"
  = Some (VBool false).
Proof.
  apply (proj2 (proj2 (apply_restore_round_trip reliable reliable activeAcceptor))).
  intros k _. split; [discriminate | reflexivity].
Defined.

(** X17.  [stop()] empties the saved map, and neither [dispose()] nor a second
    [stop()] looks at [isRunning]: after a [stop()], a [dispose()] or another
    [stop()] writes [undefined] to every managed setting whose update goes
    through, whatever value the first [stop()] had restored. *)
Theorem second_restore_unsets_managed_settings
        (h1 h2 : host) (sh : bool) (s : AutoAcceptor) (k : string) :
  isDisposed s = false ->
  managed k = true ->
  h2 k = Done ->
  globalSettings (dispose h2 (stop h1 sh s)) k = None /\
  globalSettings (stop h2 sh (stop h1 sh s)) k = None.
Proof.
  intros Hd Hm Hk.
  destruct (stop_fields h1 sh s Hd) as (_ & Hd' & _ & Hs).
  split.
  - unfold dispose. rewrite Hd'. cbv zeta. cbn [globalSettings set_ui].
    rewrite restore_store, Hm, Hk. cbn [andb isDone].
    destruct (pausePolling_fields (set_isDisposed true (stop h1 sh s)))
      as (_ & _ & -> & _).
    cbn [savedSettings set_isDisposed]. now rewrite Hs.
  - rewrite stop_store by exact Hd'. now rewrite Hm, Hk, Hs.
Qed.

Lemma second_restore_unsets_managed_settings_witness :
  globalSettings
    (dispose reliable
       (stop reliable false (applyAutoApproveSettings reliable activeAcceptor)))
    "chat.agent.autoApprove" = None /\
  globalSettings activeAcceptor "chat.agent.autoApprove" = Some (VBool false).
Proof.
  split; [|reflexivity].
  apply (second_restore_unsets_managed_settings
           reliable reliable false
           (applyAutoApproveSettings reliable activeAcceptor)
           "chat.agent.autoApprove"); reflexivity.
Defined.

(** X18.  [dispose()] of the settings-based acceptor sets the flag, clears the
    poll timer, and restores the saved value of every managed setting whose
    update goes through; as the flag is set first, the restore writes no log
    line, and the only effects on the interface are the disposal of the
    status-bar item and of the output channel.  A [dispose()] or [stop()]
    after it changes nothing. *)
Theorem dispose_restores_settings_silently (h h' : host) (sh : bool) (s : AutoAcceptor) :
  isDisposed s = false ->
  let s' := dispose h s in
  isDisposed s' = true /\
  pollInterval s' = None /\
  (forall t, pollInterval s = Some t -> ~ In t (intervals s')) /\
  savedSettings s' = [] /\
  (forall k, globalSettings s' k
             = if managed k && isDone (h k) then mapGet k (savedSettings s)
               else globalSettings s k) /\
  ui s' = UiChannelDispose :: UiStatusBarDispose :: ui s /\
  dispose h' s' = s' /\ stop h' sh s' = s'.
Proof.
  intros Hd. cbv zeta.
  assert (Hdis : isDisposed (dispose h s) = true).
  { unfold dispose. rewrite Hd. cbv zeta. cbn [isDisposed set_ui].
    destruct (restore_frame h (pausePolling (set_isDisposed true s))) as (_ & -> & _).
    destruct (pausePolling_fields (set_isDisposed true s)) as (_ & -> & _).
    reflexivity. }
  split; [exact Hdis|].
  split; [|split; [|split; [|split; [|split; [|split]]]]].
  - unfold dispose. rewrite Hd. cbv zeta. cbn [pollInterval set_ui].
    destruct (restore_frame h (pausePolling (set_isDisposed true s))) as (_ & _ & -> & _).
    apply pausePolling_clears.
  - intros t Ht. unfold dispose. rewrite Hd. cbv zeta. cbn [intervals set_ui].
    destruct (restore_frame h (pausePolling (set_isDisposed true s)))
      as (_ & _ & _ & -> & _).
    apply pausePolling_clears. exact Ht.
  - unfold dispose. rewrite Hd. cbv zeta. cbn [savedSettings set_ui].
    apply restore_frame.
  - intros k. unfold dispose. rewrite Hd. cbv zeta. cbn [globalSettings set_ui].
    rewrite restore_store.
    destruct (pausePolling_fields (set_isDisposed true s)) as (_ & _ & -> & -> & _).
    reflexivity.
  - unfold dispose. rewrite Hd. cbv zeta. cbn [ui set_ui].
    rewrite restore_silent.
    + destruct (pausePolling_fields (set_isDisposed true s)) as (_ & _ & _ & _ & ->).
      reflexivity.
    + destruct (pausePolling_fields (set_isDisposed true s)) as (_ & -> & _).
      reflexivity.
  - unfold dispose at 1. now rewrite Hdis.
  - unfold stop. now rewrite Hdis.
Qed.

Lemma dispose_restores_settings_silently_witness :
  ui (dispose reliable (applyAutoApproveSettings reliable activeAcceptor))
  = UiChannelDispose :: UiStatusBarDispose
    :: ui (applyAutoApproveSettings reliable activeAcceptor).
Proof.
  apply (dispose_restores_settings_silently
           reliable reliable false
           (applyAutoApproveSettings reliable activeAcceptor) eq_refl).
Defined.

(** X19.  [stop()] of the settings-based acceptor that is not disposed, whether
    or not the information message can be shown: the acceptor is not
    running, the poll timer is cleared, every managed setting whose update
    goes through has its saved value, the saved map is empty, and the status
    bar shows OFF. *)
Theorem stop_restores_and_turns_off (h : host) (sh : bool) (s : AutoAcceptor) :
  isDisposed s = false ->
  let s' := stop h sh s in
  isRunning s' = false /\
  pollInterval s' = None /\
  savedSettings s' = [] /\
  (forall k, globalSettings s' k
             = if managed k && isDone (h k) then mapGet k (savedSettings s)
               else globalSettings s k) /\
  find isStatus (ui s') = Some (UiStatus StatusOff).
Proof.
  intros Hd. cbv zeta.
  destruct (stop_fields h sh s Hd) as (H1 & _ & H3 & H4).
  split; [exact H1|]. split; [exact H3|]. split; [exact H4|].
  split; [intros k; now apply stop_store|].
  unfold stop. rewrite Hd. cbv zeta.
  set (t := restoreSettings h (pausePolling (log LogStopping s))).
  assert (Ht : isDisposed t = false).
  { unfold t. destruct (restore_frame h (pausePolling (log LogStopping s)))
      as (_ & -> & _).
    destruct (pausePolling_fields (log LogStopping s)) as (_ & -> & _).
    destruct (log_fields LogStopping s) as (_ & -> & _). exact Hd. }
  clearbody t.
  assert (Hu : updateStatusBar StatusOff (set_isRunning false t)
               = set_ui (UiStatus StatusOff :: ui t) (set_isRunning false t)).
  { unfold updateStatusBar. cbn [isDisposed set_isRunning]. now rewrite Ht. }
  destruct sh.
  - unfold updateStatusBar at 1.
    cbn [isDisposed set_isRunning].
    destruct (log_fields LogStopError (updateStatusBar StatusOff (set_isRunning false t)))
      as (_ & -> & _).
    rewrite Hu. cbn [isDisposed set_ui set_isRunning]. rewrite Ht. reflexivity.
  - rewrite Hu. reflexivity.
Qed.

Lemma stop_restores_and_turns_off_witness :
  isRunning (stop reliable true (applyAutoApproveSettings reliable activeAcceptor))
  = false.
Proof.
  apply (stop_restores_and_turns_off
           reliable true (applyAutoApproveSettings reliable activeAcceptor) eq_refl).
Defined.

End SettingsProofs.
